(** * WeatherAlerts: TTL cache, bulk fetch, background tasks and purge

    A shallow embedding of the cache-and-bulk-fetch core of the repository:
    - [services/database.py]: the SQLite-backed weather cache and alerts table;
    - [services/weather_service.py]: [WeatherService.get_bulk_weather_data];
    - [utils/background.py]: [BackgroundTaskManager];
    - [routes/api_routes.py]: the background job [generate_alerts_task].

    The two SQL tables are finite maps indexed by their primary key, every
    function that opens a connection is a state transformer on the pair of
    tables, and Python exceptions are an explicit [outcome].  What the code
    imports from libraries and from modules that are not embedded here (the
    [json] module, pandas, [config.Config], [utils.validation], the HTTP
    session, the executor's completion order, the alert service) is an
    interface.  The database engine is taken to be at hand and to run every
    statement by its relational meaning: a lost connection or a statement
    beyond the engine's size limits, which the code answers with an empty or
    absent result, is not part of the model. *)

From Stdlib Require Import ZArith Lia Ascii.
From stdpp Require Import base option list gmap strings pretty.

Local Open Scope Z_scope.

(** ** Python values, exceptions and clocks *)

(** [json.loads], [json.dumps] and the truth value [bool(data)] of a decoded
    document.  [payload] is the type of JSON documents (what
    [response.json()] yields), so [dumps] is total on it; [loads] raises on a
    text that is not JSON, which is [None] here. *)
Class Json := {
  payload : Type;
  loads : string → option payload;
  dumps : payload → string;
  truthy : payload → bool;
}.

(** [pd.DataFrame.from_records] and [DataFrame.to_json]. *)
Class Pandas `{Json} := {
  DataFrame : Type;
  from_records : payload → option DataFrame;
  to_json : DataFrame → string;
}.

(** [config.Config]: the cache lifetime in seconds. *)
Class Config := { CACHE_TIME : Z }.

(** [utils.validation.sanitize_filename]. *)
Class Validation := { sanitize_filename : string → string }.

(** The result of running a block of Python: a value, or an exception
    carrying its message [str(e)]. *)
Inductive outcome (A : Type) : Type :=
  | Returned (a : A)
  | Raised (e : string).
Arguments Returned {A} a.
Arguments Raised {A} e.

(** Timestamps are counted in microseconds.  The process clock
    [datetime.now()] and the clock of the database engine
    [CURRENT_TIMESTAMP] are two readings: the first is local time with
    microseconds, the second is UTC with a resolution of one second. *)
Record clock := Clock { py_now : Z; db_now : Z }.

Definition second : Z := 1000000.

(** [dt.replace(microsecond=0)] *)
Definition replace_microsecond_0 (t : Z) : Z := t - t mod second.

(** [dt + pd.Timedelta(seconds=s)] *)
Definition add_seconds (t s : Z) : Z := t + s * second.

(** [(a - b).total_seconds() < s] *)
Definition age_below (a b s : Z) : bool := bool_decide (a - b < s * second).

(** ** SQL fragments *)

(** The [LIKE] operator of SQLite on the default configuration: [%] matches
    any run of characters, [_] exactly one, and letters of the ASCII range
    compare without case.  A string is the sequence of its bytes, so that
    on a key outside ASCII the [_] takes one byte where SQLite takes one
    UTF-8 character. *)
Definition to_lower (c : ascii) : ascii :=
  let n := N_of_ascii c in
  if ((65 <=? n) && (n <=? 90))%N then ascii_of_N (n + 32) else c.

Definition ci_eqb (a b : ascii) : bool := Ascii.eqb (to_lower a) (to_lower b).

Fixpoint like (pat s : string) {struct pat} : bool :=
  match pat with
  | EmptyString => match s with EmptyString => true | _ => false end
  | String c pat' =>
      if Ascii.eqb c "%"%char then
        (fix any_run (s : string) : bool :=
           like pat' s ||
           match s with EmptyString => false | String _ s' => any_run s' end) s
      else if Ascii.eqb c "_"%char then
        match s with EmptyString => false | String _ s' => like pat' s' end
      else
        match s with
        | EmptyString => false
        | String d s' => ci_eqb c d && like pat' s'
        end
  end.

(** [DELETE FROM t WHERE P]: the remaining rows and [cursor.rowcount]. *)
Definition delete_where `{Countable K} {V} (P : K → V → bool)
    (t : gmap K V) : gmap K V * Z :=
  (filter (λ kv, P kv.1 kv.2 = false) t,
   Z.of_nat (size (filter (λ kv, P kv.1 kv.2 = true) t))).

(** [SELECT ... FROM t WHERE P] followed by [cursor.fetchall()]. *)
Definition fetchall `{Countable K} {V} (P : K → V → bool)
    (t : gmap K V) : list (K * V) :=
  map_to_list (filter (λ kv, P kv.1 kv.2 = true) t).

(** ** services/database.py *)

(** A row of [weather_cache(cache_key PRIMARY KEY, data, created_at,
    expires_at)] without its key. *)
Record weather_row := WeatherRow {
  data : string;
  created_at : Z;
  expires_at : Z;
}.

(** A row of [alerts] without its key [(province, district, forecast_days)]. *)
Record alert_row := AlertRow {
  alert_text : string;
  alert_created_at : Z;
  alert_expires_at : Z;
}.

Abbreviation alert_key := (string * string * Z)%type.

Record db := Db {
  weather_cache : gmap string weather_row;
  alerts : gmap alert_key alert_row;
}.

Definition with_weather_cache (f : gmap string weather_row → gmap string weather_row)
    (d : db) : db :=
  Db (f (weather_cache d)) (alerts d).

Definition with_alerts (f : gmap alert_key alert_row → gmap alert_key alert_row)
    (d : db) : db :=
  Db (weather_cache d) (f (alerts d)).

(** [with get_db_connection() as conn: body]: commit when the body returns,
    roll back and re-raise when it raises. *)
Definition get_db_connection {A} (body : db → outcome A * db) (d : db)
    : outcome A * db :=
  match body d with
  | (Returned a, d') => (Returned a, d')
  | (Raised e, _) => (Raised e, d)
  end.

(** [try: ... except Exception: return default] around a connection block. *)
Definition or_return {A} (default : A) (r : outcome A * db) : A * db :=
  match r with
  | (Returned a, d) => (a, d)
  | (Raised _, d) => (default, d)
  end.

(** [SELECT data, created_at FROM weather_cache WHERE cache_key = ? AND
    expires_at > CURRENT_TIMESTAMP], then [cursor.fetchone()]. *)
Definition fetchone_live (cache_key : string) (now : Z) (d : db)
    : option weather_row :=
  match weather_cache d !! cache_key with
  | Some row => if bool_decide (now < expires_at row) then Some row else None
  | None => None
  end.

Definition get_weather_cache `{Pandas} (cache_key : string) (c : clock)
    (d : db) : option DataFrame * db :=
  or_return None
    (get_db_connection (λ d,
       match fetchone_live cache_key (db_now c) d with
       | Some row =>
           match loads (data row) ≫= from_records with
           | Some df => (Returned (Some df), d)
           | None =>
               (Returned None, with_weather_cache (delete cache_key) d)
           end
       | None => (Returned None, d)
       end) d).

Definition get_raw_weather_cache `{Json} (cache_key : string) (c : clock)
    (d : db) : option (payload * Z) * db :=
  or_return None
    (get_db_connection (λ d,
       match fetchone_live cache_key (db_now c) d with
       | Some row =>
           match loads (data row) with
           | Some data_dict => (Returned (Some (data_dict, created_at row)), d)
           | None => (Raised "JSONDecodeError", d)
           end
       | None => (Returned None, d)
       end) d).

(** [INSERT OR REPLACE INTO weather_cache VALUES (?, ?, CURRENT_TIMESTAMP, ?)] *)
Definition insert_or_replace_weather `{Config} (cache_key data_json : string)
    (c : clock) (d : db) : db :=
  let expires := add_seconds (replace_microsecond_0 (py_now c)) CACHE_TIME in
  with_weather_cache (<[cache_key := WeatherRow data_json (db_now c) expires]>) d.

Definition set_raw_weather_cache `{Json, Config} (cache_key : string)
    (data : payload) (c : clock) (d : db) : db :=
  (or_return tt
     (get_db_connection (λ d,
        (Returned tt, insert_or_replace_weather cache_key (dumps data) c d)) d)).2.

Definition set_weather_cache `{Pandas, Config} (cache_key : string)
    (df : DataFrame) (c : clock) (d : db) : db :=
  (or_return tt
     (get_db_connection (λ d,
        (Returned tt, insert_or_replace_weather cache_key (to_json df) c d)) d)).2.

(** What [sqlite3] binds as an [INTEGER] parameter: a Python [int] of
    at most 64 bits; for any other, [execute] raises [OverflowError]. *)
Definition sqlite_integer (n : Z) : bool :=
  bool_decide (- 2 ^ 63 ≤ n < 2 ^ 63).

Definition save_alert `{Config} (province district : string)
    (forecast_days : Z) (text : string) (c : clock) (d : db) : db :=
  let expires := add_seconds (replace_microsecond_0 (py_now c)) CACHE_TIME in
  (or_return tt
     (get_db_connection (λ d,
        if sqlite_integer forecast_days then
          (Returned tt,
           with_alerts
             (<[(province, district, forecast_days) :=
                  AlertRow text (db_now c) expires]>) d)
        else
          (Raised "Python int too large to convert to SQLite INTEGER", d))
        d)).2.

Definition get_alert (province district : string) (forecast_days : Z)
    (c : clock) (d : db) : option string * db :=
  or_return None
    (get_db_connection (λ d,
       match alerts d !! (province, district, forecast_days) with
       | Some row =>
           if bool_decide (db_now c < alert_expires_at row)
           then (Returned (Some (alert_text row)), d)
           else (Returned None, d)
       | None => (Returned None, d)
       end) d).

(** The two [LIKE] patterns and the two exact keys that [purge_cache_db]
    hands to its [DELETE FROM weather_cache] statements (f-strings). *)
Definition forecast_pattern (province : string) (forecast_days : Z) : string :=
  "forecast_" +:+ province +:+ "_%_" +:+ pretty forecast_days.

Definition alerts_pattern (province : string) (forecast_days : Z) : string :=
  "alerts_" +:+ province +:+ "_" +:+ pretty forecast_days +:+ "_%".

Definition forecast_key (province district : string) (forecast_days : Z)
    : string :=
  "forecast_" +:+ province +:+ "_" +:+ district +:+ "_" +:+ pretty forecast_days.

Definition alerts_cache_key (province : string) (forecast_days : Z)
    (district : string) : string :=
  "alerts_" +:+ province +:+ "_" +:+ pretty forecast_days +:+ "_" +:+ district.

(** One iteration of the loop [for district in districts] of
    [purge_cache_db], on the running [count] and the open transaction. *)
Definition purge_district (province : string) (forecast_days : Z)
    (acc : Z * db) (district : string) : Z * db :=
  let '(count, d) := acc in
  let '(alerts', rowcount) :=
    delete_where
      (λ (k : alert_key) (_ : alert_row),
         bool_decide (k = (province, district, forecast_days)))
      (alerts d) in
  let '(cache', _) :=
    delete_where
      (λ (k : string) (_ : weather_row),
         bool_decide (k = forecast_key province district forecast_days)
         || bool_decide (k = alerts_cache_key province forecast_days district))
      (weather_cache d) in
  (count + rowcount, Db cache' alerts').

Definition purge_cache_db (province : string) (districts : list string)
    (forecast_days : Z) (d : db) : Z * db :=
  or_return 0
    (get_db_connection (λ d,
       match districts with
       | [] =>
           let '(alerts', count) :=
             delete_where
               (λ (k : alert_key) (_ : alert_row),
                  bool_decide (k.1.1 = province)
                  && bool_decide (k.2 = forecast_days))
               (alerts d) in
           let '(cache', _) :=
             delete_where
               (λ (k : string) (_ : weather_row),
                  like (forecast_pattern province forecast_days) k
                  || like (alerts_pattern province forecast_days) k)
               (weather_cache d) in
           (Returned count, Db cache' alerts')
       | _ =>
           let '(count, d') :=
             foldl (purge_district province forecast_days) (0, d) districts in
           (Returned count, d')
       end) d).

(** The body of the loop [for key, data_json, created_at_str in rows] of
    [get_raw_weather_cache_batch]: a row that does not parse is skipped. *)
Definition batch_step `{Json} (results : gmap string (payload * Z))
    (r : string * weather_row) : gmap string (payload * Z) :=
  match loads (data r.2) with
  | Some data_dict => <[r.1 := (data_dict, created_at r.2)]> results
  | None => results
  end.

Definition get_raw_weather_cache_batch `{Json} (cache_keys : list string)
    (c : clock) (d : db) : gmap string (payload * Z) * db :=
  match cache_keys with
  | [] => (∅, d)
  | _ =>
      or_return ∅
        (get_db_connection (λ d,
           let rows :=
             fetchall
               (λ (k : string) (row : weather_row),
                  bool_decide (k ∈ cache_keys)
                  && bool_decide (db_now c < expires_at row))
               (weather_cache d) in
           (Returned (foldl batch_step ∅ rows), d)) d)
  end.

(** *** The two queries of [get_alerts_batch]

    A [WHERE] clause is kept as the query text has it: operands joined by
    [AND] and [OR] without parentheses around the chain.  SQL reads such a
    chain with [AND] binding tighter than [OR]. *)
Inductive operand : Type :=
  | InValues (l : list alert_key)
      (* (province, district, forecast_days) IN (VALUES (?, ?, ?), ...) *)
  | EqTuple (k : alert_key)
      (* (province = ? AND district = ? AND forecast_days = ?) *)
  | NotExpired.
      (* expires_at > CURRENT_TIMESTAMP *)

Inductive connective : Type := OR | AND.

Definition where_clause : Type := operand * list (connective * operand).

Definition eval_operand (now : Z) (k : alert_key) (row : alert_row)
    (o : operand) : bool :=
  match o with
  | InValues l => bool_decide (k ∈ l)
  | EqTuple k' => bool_decide (k = k')
  | NotExpired => bool_decide (now < alert_expires_at row)
  end.

(** [disj] is the value of the disjuncts already closed, [conj] the value of
    the conjunction being read. *)
Fixpoint eval_chain (now : Z) (k : alert_key) (row : alert_row)
    (disj conj : bool) (rest : list (connective * operand)) : bool :=
  match rest with
  | [] => disj || conj
  | (AND, o) :: rest' =>
      eval_chain now k row disj (conj && eval_operand now k row o) rest'
  | (OR, o) :: rest' =>
      eval_chain now k row (disj || conj) (eval_operand now k row o) rest'
  end.

Definition eval_where (now : Z) (w : where_clause) (k : alert_key)
    (row : alert_row) : bool :=
  eval_chain now k row false (eval_operand now k row w.1) w.2.

(** [' OR '.join(conditions)] *)
Definition join_or (conditions : list operand) : option where_clause :=
  match conditions with
  | [] => None
  | o :: os => Some (o, (λ o', (OR, o')) <$> os)
  end.

(** The primary query: [WHERE (province, district, forecast_days) IN
    (VALUES ...) AND expires_at > CURRENT_TIMESTAMP]. *)
Definition tuple_in_query (province_district_days : list alert_key)
    : where_clause :=
  (InValues province_district_days, [(AND, NotExpired)]).

(** The fallback query: [WHERE {' OR '.join(conditions)} AND expires_at >
    CURRENT_TIMESTAMP], with one parenthesised condition per tuple. *)
Definition or_chain_query (province_district_days : list alert_key)
    : option where_clause :=
  match join_or (EqTuple <$> province_district_days) with
  | Some (o, rest) => Some (o, rest ++ [(AND, NotExpired)])
  | None => None
  end.

(** The loop [for province, district, forecast_days, alert_text in rows]. *)
Definition alerts_step (results : gmap alert_key string)
    (r : alert_key * alert_row) : gmap alert_key string :=
  <[r.1 := alert_text r.2]> results.

Definition run_alert_query (w : where_clause) (c : clock) (d : db)
    : gmap alert_key string :=
  foldl alerts_step ∅ (fetchall (eval_where (db_now c) w) (alerts d)).

(** [tuple_syntax] tells whether the engine accepts the row-value [IN]; when
    it does not, [cursor.execute] raises [sqlite3.OperationalError] and the
    fallback query runs. *)
Definition get_alerts_batch (tuple_syntax : bool)
    (province_district_days : list alert_key) (c : clock) (d : db)
    : gmap alert_key string * db :=
  match province_district_days with
  | [] => (∅, d)
  | _ =>
      or_return ∅
        (get_db_connection (λ d,
           if tuple_syntax then
             (Returned
                (run_alert_query (tuple_in_query province_district_days) c d),
              d)
           else
             match or_chain_query province_district_days with
             | Some w => (Returned (run_alert_query w c d), d)
             | None => (Raised "OperationalError", d)
             end) d)
  end.

(** ** services/weather_service.py *)

(** What [self.session.get] comes back with, once the adapter has spent its
    retries: a response, or an exception of [requests]. *)
Inductive http_reply : Type :=
  | Response (status_code : Z) (body : string)
  | RequestException (msg : string).

(** Latitudes and longitudes, which the service only passes on. *)
Class Geo := { coord : Type }.

(** The upstream weather API.  [session_get] is indexed by the district on
    whose behalf the request is sent, so that two districts with equal
    coordinates may still see different replies. *)
Class Upstream `{Geo} := {
  session_get : string → coord → coord → Z → http_reply;
}.

(** [concurrent.futures.as_completed]: the futures in the order in which
    they finish, each of them once. *)
Class Executor := {
  as_completed : ∀ {A : Type}, list A → list A;
  as_completed_perm : ∀ {A : Type} (l : list A), as_completed l ≡ₚ l;
}.

(** f"weather_{forecast_days}_{province}_{sanitized_district}" *)
Definition weather_key (forecast_days : Z) (province sanitized_district : string)
    : string :=
  "weather_" +:+ pretty forecast_days +:+ "_" +:+ province +:+ "_"
  +:+ sanitized_district.

Section weather_service.
Context `{Json, Config, Validation, Geo, !Upstream, Executor}.

(** The tuple [(district_name, lat, lon, cache_key)] appended to
    [uncached]. *)
Record district_info := DistrictInfo {
  info_name : string;
  info_lat : coord;
  info_lon : coord;
  info_key : string;
}.

(** The tuple [(district_name, data, cache_key, error)] that
    [fetch_single_district] returns. *)
Record fetched := Fetched {
  fetched_name : string;
  fetched_data : option payload;
  fetched_key : string;
  fetched_error : option string;
}.

(** State of the first loop of [get_bulk_weather_data]. *)
Record lookup_state := LookupState {
  uncached : list district_info;
  cached_data : gmap string payload;
  store : db;
}.

(** One iteration of [for district_name, (lat, lon) in districts.items()]. *)
Definition lookup_step (province : string) (forecast_days cache_time : Z)
    (c : clock) (st : lookup_state) (item : string * (coord * coord))
    : lookup_state :=
  let district_name := item.1 in
  let cache_key :=
    weather_key forecast_days province (sanitize_filename district_name) in
  let '(cache_result, d) := get_raw_weather_cache cache_key c (store st) in
  let miss :=
    LookupState
      (uncached st ++ [DistrictInfo district_name item.2.1 item.2.2 cache_key])
      (cached_data st) d in
  match cache_result with
  | Some (data, created) =>
      if age_below (py_now c) created cache_time
      then LookupState (uncached st) (<[district_name := data]> (cached_data st)) d
      else miss
  | None => miss
  end.

Definition fetch_single_district (forecast_days : Z) (i : district_info)
    : fetched :=
  match session_get (info_name i) (info_lat i) (info_lon i) forecast_days with
  | Response status_code body =>
      if bool_decide (status_code = 200) then
        match loads body with
        | Some data => Fetched (info_name i) (Some data) (info_key i) None
        | None =>
            Fetched (info_name i) None (info_key i) (Some "JSONDecodeError")
        end
      else
        Fetched (info_name i) None (info_key i)
          (Some ("HTTP " +:+ pretty status_code))
  | RequestException msg =>
      Fetched (info_name i) None (info_key i) (Some msg)
  end.

(** [if data:] on a fetched tuple. *)
Definition succeeded (r : fetched) : bool :=
  match fetched_data r with
  | Some data => truthy data
  | None => false
  end.

(** One iteration of [for future in as_completed(futures)]. *)
Definition store_step (c : clock) (acc : gmap string payload * db)
    (r : fetched) : gmap string payload * db :=
  match fetched_data r with
  | Some data =>
      if truthy data
      then (<[fetched_name r := data]> acc.1,
            set_raw_weather_cache (fetched_key r) data c acc.2)
      else acc
  | None => acc
  end.

(** What a call of [get_bulk_weather_data] leaves behind: the mapping it
    returns, the database, and the requests it has submitted. *)
Record bulk := Bulk {
  bulk_result : gmap string payload;
  bulk_db : db;
  bulk_calls : list district_info;
}.

Definition get_bulk_weather_data (province : string)
    (districts : gmap string (coord * coord)) (forecast_days : Z)
    (cache_time : option Z) (c : clock) (d : db) : bulk :=
  let cache_time := default CACHE_TIME cache_time in
  let st :=
    foldl (lookup_step province forecast_days cache_time c)
      (LookupState [] ∅ d) (map_to_list districts) in
  match uncached st with
  | [] => Bulk (cached_data st) (store st) []
  | _ =>
      let futures := fetch_single_district forecast_days <$> uncached st in
      let '(result, d') :=
        foldl (store_step c) (cached_data st, store st)
          (as_completed futures) in
      Bulk result d' (uncached st)
  end.

(** [WeatherService.purge_cache] *)
Definition purge_cache (province : string) (districts : list string)
    (days : Z) (d : db) : Z * db :=
  purge_cache_db province districts days d.
End weather_service.

(** ** utils/background.py *)

(** What the unit of work of a task does: it returns a value, it raises an
    exception that derives from [Exception], or it raises one that does not
    ([SystemExit], [KeyboardInterrupt], [GeneratorExit]); [e] is [str(e)]. *)
Inductive task_outcome (V : Type) : Type :=
  | Completed (result : V)
  | Failed (e : string)
  | Aborted (e : string).
Arguments Completed {V} result.
Arguments Failed {V} e.
Arguments Aborted {V} e.

(** A block of Python of this development as the unit of work of a task: the
    exceptions that an [outcome] carries all derive from [Exception]. *)
Definition task_of {V W : Type} (job : W → outcome V * W)
    : W → task_outcome V * W :=
  λ w,
    let '(o, w') := job w in
    (match o with
     | Returned result => Completed result
     | Raised e => Failed e
     end, w').

Section background.
Context {V : Type}.

(** The three dictionaries of [BackgroundTaskManager].  A thread is known
    by its identifier; whether it is alive is a fact of the system, kept
    apart as the set of live threads. *)
Record BackgroundTaskManager := Manager {
  tasks : gmap string nat;
  task_results : gmap string V;
  task_errors : gmap string string;
}.

Definition new_manager : BackgroundTaskManager := Manager ∅ ∅ ∅.

(** The closure [wrapper] of [run_task], run on the world state [W] that
    [func] works on: the [try] records the result, the [except Exception]
    records [str(e)] and nothing else is caught, the [finally] drops the
    thread reference in every case.  The first component is how the
    wrapper itself ends: it returns, or the exception that was not caught
    leaves it. *)
Definition wrapper {W : Type} (task_id : string)
    (func : W → task_outcome V * W) (m : BackgroundTaskManager) (w : W)
    : outcome unit * BackgroundTaskManager * W :=
  let '(o, w') := func w in
  let m1 :=
    match o with
    | Completed result =>
        Manager (tasks m) (<[task_id := result]> (task_results m))
          (task_errors m)
    | Failed e =>
        Manager (tasks m) (task_results m) (<[task_id := e]> (task_errors m))
    | Aborted _ => m
    end in
  let m2 :=
    if bool_decide (task_id ∈ dom (tasks m1))
    then Manager (delete task_id (tasks m1)) (task_results m1) (task_errors m1)
    else m1 in
  (match o with
   | Aborted e => Raised e
   | _ => Returned tt
   end, m2, w').

(** [run_task] up to [thread.start()]: the thread [t] is registered and
    joins the live threads. *)
Definition run_task (task_id : string) (t : nat)
    (m : BackgroundTaskManager) (alive : gset nat)
    : BackgroundTaskManager * gset nat :=
  (Manager (<[task_id := t]> (tasks m)) (task_results m) (task_errors m),
   {[t]} ∪ alive).

Definition is_running (task_id : string) (m : BackgroundTaskManager)
    (alive : gset nat) : bool :=
  match tasks m !! task_id with
  | Some t => bool_decide (t ∈ alive)
  | None => false
  end.

Definition get_result (task_id : string) (m : BackgroundTaskManager)
    : option V :=
  task_results m !! task_id.

Definition get_error (task_id : string) (m : BackgroundTaskManager)
    : option string :=
  task_errors m !! task_id.

(** Exactly one of the two dictionaries has the key. *)
Definition exactly_one_recorded (task_id : string)
    (m : BackgroundTaskManager) : Prop :=
  (is_Some (task_results m !! task_id) ∧ task_errors m !! task_id = None)
  ∨ (task_results m !! task_id = None ∧ is_Some (task_errors m !! task_id)).
End background.
Arguments BackgroundTaskManager V : clear implicits.

(** ** utils/formatting.py and routes/api_routes.py *)

(** Python code that works on the database and may raise. *)
Definition Py (A : Type) : Type := db → outcome A * db.

Definition py_ret {A} (a : A) : Py A := λ d, (Returned a, d).

Definition py_bind {A B} (m : Py A) (k : A → Py B) : Py B :=
  λ d, match m d with
       | (Returned a, d') => k a d'
       | (Raised e, d') => (Raised e, d')
       end.

Notation "'let*' x ':=' m 'in' k" := (py_bind m (λ x, k))
  (at level 10, x name, m at level 100, k at level 200).

Definition py_lift {A} (o : outcome A) : Py A := λ d, (o, d).

Fixpoint py_fold {A B} (f : B → A → Py B) (l : list A) (b : B) : Py B :=
  match l with
  | [] => py_ret b
  | a :: l' => let* b' := f b a in py_fold f l' b'
  end.

(** The dictionary plumbing that the routes do on a decoded forecast, and the
    [pd.DataFrame({...})] constructor of [create_weather_dataframe]. *)
Class DailyFields `{Pandas} := {
  normalized_daily : payload → outcome payload;
  daily_frame : payload → outcome DataFrame;
}.

(** [services/alert_service.py] is not embedded: the four methods that the
    job calls are an interface. *)
Class AlertService `{Pandas} := {
  parsed_alerts : Type;
  generate_alert : string → gmap string DataFrame → Py string;
  parse_district_alerts : string → Py parsed_alerts;
  alert_purge_cache : string → list string → Z → Py Z;
  save_district_alerts : parsed_alerts → Z → string → Py unit;
}.

(** The dictionary that a finished job returns. *)
Record report := Report {
  status : string;
  message : string;
  report_alert_text : string;
  report_province : string;
}.

Section api_routes.
Context `{Json, Config, Validation, Geo, !Upstream, Executor}.
Context `{!Pandas, !DailyFields, !AlertService}.

Definition create_weather_dataframe (daily : payload)
    (cache_key : option string) (c : clock) : Py DataFrame :=
  let use_cache := match cache_key with Some "" | None => None | k => k end in
  λ d,
    let '(cached_df, d1) :=
      match use_cache with
      | Some k => get_weather_cache k c d
      | None => (None, d)
      end in
    match cached_df with
    | Some df => (Returned df, d1)
    | None =>
        match daily_frame daily with
        | Returned df =>
            (Returned df,
             match use_cache with
             | Some k => set_weather_cache k df c d1
             | None => d1
             end)
        | Raised e => (Raised e, d1)
        end
    end.

(** The body of [for d, data in weather_data.items()]. *)
Definition forecast_step (province : string) (forecast_days : Z) (c : clock)
    (forecasts : gmap string DataFrame) (item : string * payload)
    : Py (gmap string DataFrame) :=
  let* daily := py_lift (normalized_daily item.2) in
  let* df :=
    create_weather_dataframe daily
      (Some (alerts_cache_key province forecast_days item.1)) c in
  py_ret (<[item.1 := df]> forecasts).

(** The closure [generate_alerts_task] of the route [/generate_alerts];
    [None] is Python's [None]. *)
Definition generate_alerts_task (province : string)
    (districts_to_fetch : gmap string (coord * coord)) (forecast_days : Z)
    (c : clock) : Py (option report) :=
  λ d,
    let b :=
      get_bulk_weather_data province districts_to_fetch forecast_days
        (Some 0) c d in
    let weather_data := bulk_result b in
    if bool_decide (weather_data = ∅) then (Returned None, bulk_db b)
    else
      (let* forecasts :=
         py_fold (forecast_step province forecast_days c)
           (map_to_list weather_data) ∅ in
       let* text := generate_alert province forecasts in
       let* alerts := parse_district_alerts text in
       let* _ :=
         alert_purge_cache province (map_to_list forecasts).*1
           forecast_days in
       let* _ := save_district_alerts alerts forecast_days province in
       py_ret
         (Some
            (Report "success" ("Alerts generated for " +:+ province) text
               province))) (bulk_db b).
End api_routes.

(** ** The rest of services/database.py *)

(** The body of the loop [for province, district, alert_text in rows] of
    [get_all_alerts]: the inner dictionary is made when the province is met
    for the first time, then the district is filed in it. *)
Definition all_alerts_step (found : gmap string (gmap string string))
    (r : alert_key * alert_row) : gmap string (gmap string string) :=
  let province := r.1.1.1 in
  let district := r.1.1.2 in
  let found :=
    if bool_decide (province ∈ dom found) then found
    else <[province := ∅]> found in
  alter (<[district := alert_text r.2]>) province found.

Definition get_all_alerts (forecast_days : Z) (c : clock) (d : db)
    : gmap string (gmap string string) * db :=
  or_return ∅
    (get_db_connection (λ d,
       let rows :=
         fetchall
           (λ (k : alert_key) (row : alert_row),
              bool_decide (k.2 = forecast_days)
              && bool_decide (db_now c < alert_expires_at row))
           (alerts d) in
       (Returned (foldl all_alerts_step ∅ rows), d)) d).

(** [SELECT COUNT( * ) FROM t WHERE P], then [cursor.fetchone()[0]]. *)
Definition count_where `{Countable K} {V} (P : K → V → bool)
    (t : gmap K V) : Z :=
  Z.of_nat (size (filter (λ kv, P kv.1 kv.2 = true) t)).

(** The dictionary that [get_cache_stats] returns. *)
Record cache_stats := CacheStats {
  weather_cache_count : Z;
  alerts_count : Z;
  expired_weather_count : Z;
  expired_alerts_count : Z;
}.

Definition get_cache_stats (c : clock) (d : db) : cache_stats * db :=
  or_return (CacheStats 0 0 0 0)
    (get_db_connection (λ d,
       let weather_count :=
         count_where
           (λ (_ : string) (row : weather_row),
              bool_decide (db_now c < expires_at row))
           (weather_cache d) in
       let alerts_count :=
         count_where
           (λ (_ : alert_key) (row : alert_row),
              bool_decide (db_now c < alert_expires_at row))
           (alerts d) in
       let expired_weather_count :=
         count_where
           (λ (_ : string) (row : weather_row),
              bool_decide (expires_at row ≤ db_now c))
           (weather_cache d) in
       let expired_alerts_count :=
         count_where
           (λ (_ : alert_key) (row : alert_row),
              bool_decide (alert_expires_at row ≤ db_now c))
           (alerts d) in
       (Returned
          (CacheStats weather_count alerts_count expired_weather_count
             expired_alerts_count),
        d)) d).

Definition cleanup_expired_cache (c : clock) (d : db) : Z * db :=
  or_return 0
    (get_db_connection (λ d,
       let '(cache', weather_deleted) :=
         delete_where
           (λ (_ : string) (row : weather_row),
              bool_decide (expires_at row ≤ db_now c))
           (weather_cache d) in
       let '(alerts', alerts_deleted) :=
         delete_where
           (λ (_ : alert_key) (row : alert_row),
              bool_decide (alert_expires_at row ≤ db_now c))
           (alerts d) in
       (Returned (weather_deleted + alerts_deleted), Db cache' alerts')) d).

(** ** The rest of services/weather_service.py and utils/background.py *)

(** [WeatherService.get_weather_forecast]: the cached document of a
    district, whatever its age. *)
Definition get_weather_forecast `{Json, Validation} (province district : string)
    (days : Z) (c : clock) (d : db) : option payload * db :=
  let cache_key := weather_key days province (sanitize_filename district) in
  let '(cache_result, d') := get_raw_weather_cache cache_key c d in
  (match cache_result with
   | Some r => Some r.1
   | None => None
   end, d').

(** One iteration of [for tid in completed_tasks] of
    [cleanup_old_results]. *)
Definition cleanup_step {V} (alive : gset nat) (m : BackgroundTaskManager V)
    (tid : string) : BackgroundTaskManager V :=
  if is_running tid m alive then m
  else
    let results :=
      if bool_decide (tid ∈ dom (task_results m))
      then delete tid (task_results m) else task_results m in
    let errors :=
      if bool_decide (tid ∈ dom (task_errors m))
      then delete tid (task_errors m) else task_errors m in
    Manager (tasks m) results errors.

(** [cleanup_old_results]: the identifiers walked are the keys of
    [task_results] when the call starts. *)
Definition cleanup_old_results {V} (m : BackgroundTaskManager V)
    (alive : gset nat) : BackgroundTaskManager V :=
  let completed_tasks := (map_to_list (task_results m)).*1 in
  foldl (cleanup_step alive) m completed_tasks.

(** ** routes/api_routes.py: the read-all and purge routes *)

(** [models.PROVINCES], the districts of each province with their
    coordinates, and the two validators of [utils.validation] that these
    routes call. *)
Class Models `{Geo} := {
  PROVINCES : gmap string (gmap string (coord * coord));
}.

Class RequestValidation := {
  validate_province : string → bool;
  validate_forecast_days : Z → bool;
}.

(** What a route hands to Flask: a JSON body, or an error body with its
    HTTP status. *)
Inductive api_reply (A : Type) : Type :=
  | Ok (body : A)
  | Rejected (http_status : Z) (error : string).
Arguments Ok {A} body.
Arguments Rejected {A} http_status error.

Definition no_alert_yet : string := "⚠️ No alert generated yet.".

(** [all_alerts[province][district] = "..."] of the first loop of the route
    [get_all_alerts]. *)
Definition init_district (province : string)
    (all_alerts : gmap string (gmap string string)) (district : string)
    : gmap string (gmap string string) :=
  alter (<[district := no_alert_yet]>) province all_alerts.

(** The body of [for province in PROVINCES.keys()]. *)
Definition init_province `{Models}
    (all_alerts : gmap string (gmap string string)) (province : string)
    : gmap string (gmap string string) :=
  foldl (init_district province) (<[province := ∅]> all_alerts)
    (map_to_list (PROVINCES !!! province)).*1.

(** The body of [for district, alert_text in districts_data.items()]. *)
Definition merge_district (province : string)
    (all_alerts : gmap string (gmap string string))
    (item : string * string) : gmap string (gmap string string) :=
  if bool_decide (item.1 ∈ dom (all_alerts !!! province))
  then alter (<[item.1 := item.2]>) province all_alerts
  else all_alerts.

(** The body of [for province, districts_data in db_alerts.items()]. *)
Definition merge_province (all_alerts : gmap string (gmap string string))
    (item : string * gmap string string)
    : gmap string (gmap string string) :=
  if bool_decide (item.1 ∈ dom all_alerts)
  then foldl (merge_district item.1) all_alerts (map_to_list item.2)
  else all_alerts.

(** The route [/get_all_alerts/<int:days>]. *)
Definition get_all_alerts_route `{Models, RequestValidation} (days : Z)
    (c : clock) (d : db)
    : api_reply (gmap string (gmap string string)) * db :=
  if negb (validate_forecast_days days)
  then (Rejected 400 "Invalid forecast days", d)
  else
    let all_alerts := foldl init_province ∅ (map_to_list PROVINCES).*1 in
    let '(db_alerts, d') := get_all_alerts days c d in
    (Ok (foldl merge_province all_alerts (map_to_list db_alerts)), d').

(** The route [/purge_cache], from the validation of the province on, for a
    request whose JSON names a province, a list of districts and a horizon;
    the body of the reply is [purged_count]. *)
Definition purge_cache_route `{Models, RequestValidation} (province : string)
    (districts : list string) (forecast_days : Z) (d : db)
    : api_reply Z * db :=
  if negb (validate_province province)
  then (Rejected 400 "Invalid province", d)
  else
    let districts :=
      match districts with
      | [] => (map_to_list (default ∅ (PROVINCES !! province))).*1
      | _ => districts
      end in
    let '(purged_count, d') :=
      purge_cache_db province districts forecast_days d in
    (Ok purged_count, d').

(** ** routes/api_routes.py: the combined route *)

(** The dictionary plumbing of [generate_forecast_and_alerts] on a decoded
    forecast: the choice of its daily part and the wrapping of the scalars
    of that part in lists. *)
Class CombinedFields `{Json} := {
  listified_daily : payload → outcome payload;
}.

(** The three replies of [generate_forecast_and_alerts] once the request
    is parsed: the error body of an empty fetch, the success body, and the
    body with status 503 of the [except]. *)
Inductive combined_reply : Type :=
  | FetchFailed
  | Generated (r : report)
  | Unavailable (message : string).

Definition combined_cache_key (province : string) (forecast_days : Z)
    (district : string) : string :=
  "combined_" +:+ province +:+ "_" +:+ pretty forecast_days +:+ "_" +:+ district.

Section combined_route.
Context `{Json, Config, Validation, Geo, !Upstream, Executor}.
Context `{!Pandas, !DailyFields, !AlertService, !Models, !CombinedFields}.

(** [districts_to_fetch]: [PROVINCES[province]] raises [KeyError] for a
    province that is not listed. *)
Definition select_districts (province : string) (districts : list string)
    : outcome (gmap string (coord * coord)) :=
  match PROVINCES !! province with
  | None => Raised ("'" +:+ province +:+ "'")
  | Some listed =>
      Returned
        match districts with
        | [] => listed
        | _ =>
            list_to_map
              (omap (λ district, (district,.) <$> listed !! district)
                 districts)
        end
  end.

(** The body of [for d, data in weather_data.items()]. *)
Definition combined_step (province : string) (forecast_days : Z) (c : clock)
    (forecasts : gmap string DataFrame) (item : string * payload)
    : Py (gmap string DataFrame) :=
  let* daily := py_lift (listified_daily item.2) in
  let* df :=
    create_weather_dataframe daily
      (Some (combined_cache_key province forecast_days item.1)) c in
  py_ret (<[item.1 := df]> forecasts).

(** The route [/generate_forecast_and_alerts] from its second [try] on. *)
Definition generate_forecast_and_alerts (province : string)
    (districts : list string) (forecast_days : Z) (c : clock) (d : db)
    : combined_reply * db :=
  let body : Py combined_reply :=
    let* districts_to_fetch := py_lift (select_districts province districts) in
    λ d,
      let b :=
        get_bulk_weather_data province districts_to_fetch forecast_days
          (Some 0) c d in
      let weather_data := bulk_result b in
      if bool_decide (weather_data = ∅) then (Returned FetchFailed, bulk_db b)
      else
        (let* forecasts :=
           py_fold (combined_step province forecast_days c)
             (map_to_list weather_data) ∅ in
         let* text := generate_alert province forecasts in
         let* alerts := parse_district_alerts text in
         let* _ :=
           alert_purge_cache province (map_to_list forecasts).*1
             forecast_days in
         let* _ := save_district_alerts alerts forecast_days province in
         py_ret
           (Generated
              (Report "success"
                 ("Forecasts and alerts generated for "
                  +:+ pretty (Z.of_nat (size weather_data))
                  +:+ " districts in " +:+ province)
                 text province))) (bulk_db b) in
  match body d with
  | (Returned reply, d') => (reply, d')
  | (Raised ex, d') => (Unavailable ex, d')
  end.
End combined_route.

(** ** A small instance of the interfaces

    Four JSON documents, a cache lifetime of five minutes, four districts
    of Punjab of which the upstream serves two, and an executor that
    completes its futures in reverse order. *)

Inductive demo_doc : Type := DocNull | DocEmptyObject | DocWarm | DocCold.

Definition demo_dumps (v : demo_doc) : string :=
  match v with
  | DocNull => "null"
  | DocEmptyObject => "{}"
  | DocWarm => "[20]"
  | DocCold => "[-3]"
  end.

Definition demo_loads (s : string) : option demo_doc :=
  if bool_decide (s = "null") then Some DocNull
  else if bool_decide (s = "{}") then Some DocEmptyObject
  else if bool_decide (s = "[20]") then Some DocWarm
  else if bool_decide (s = "[-3]") then Some DocCold
  else None.

Definition demo_truthy (v : demo_doc) : bool :=
  match v with
  | DocNull | DocEmptyObject => false
  | DocWarm | DocCold => true
  end.

Definition demo_json : Json :=
  {| payload := demo_doc; loads := demo_loads; dumps := demo_dumps;
     truthy := demo_truthy |}.

Definition demo_pandas : @Pandas demo_json :=
  {| DataFrame := demo_doc;
     from_records := λ v : @payload demo_json,
       if demo_truthy v then Some v else None;
     to_json := demo_dumps |}.

Definition demo_config : Config := {| CACHE_TIME := 300 |}.

Definition demo_validation : Validation := {| sanitize_filename := id |}.

Definition demo_session_get (district : string) (lat lon : Z)
    (forecast_days : Z) : http_reply :=
  if bool_decide (district = "LAHORE") then Response 200 "[20]"
  else if bool_decide (district = "MULTAN") then Response 503 ""
  else if bool_decide (district = "OKARA") then Response 200 "[-3]"
  else RequestException "timed out".

Definition demo_geo : Geo := {| coord := Z |}.

Definition demo_upstream : @Upstream demo_geo :=
  @Build_Upstream demo_geo demo_session_get.

Definition demo_executor : Executor :=
  {| as_completed := @reverse; as_completed_perm := @reverse_Permutation |}.

(** Noon, seen alike by the process and by the database. *)
Definition demo_clock : clock := Clock 43200000000 43200000000.

Definition demo_fields : @DailyFields demo_json demo_pandas :=
  {| normalized_daily := λ v : @payload demo_json, Returned v;
     daily_frame := λ v : @payload demo_json, Returned (v : @DataFrame _ demo_pandas) |}.

Definition demo_alert_service : @AlertService demo_json demo_pandas :=
  {| parsed_alerts := gmap string string;
     generate_alert := λ province _, py_ret ("Alerts for " +:+ province);
     parse_district_alerts := λ text, py_ret {[ "LAHORE" := text ]};
     alert_purge_cache := λ province districts days d,
       let '(n, d') := purge_cache_db province districts days d in
       (Returned n, d');
     save_district_alerts := λ alerts days province d,
       (Returned tt,
        map_fold
          (λ district text d,
             @save_alert demo_config province district days text
               demo_clock d)
          d alerts) |}.

(** A cache with a fresh row for Lahore, an expired one for Multan and a
    live row for Quetta whose text is not JSON; an alerts table with five
    rows of Punjab at horizon 3, one of them expired, one row of Punjab at
    horizon 1 and one of Sindh. *)
Definition demo_db : db :=
  Db
    (list_to_map
       [("weather_3_PUNJAB_LAHORE", WeatherRow "[20]" 43100000000 43400000000);
        ("weather_3_PUNJAB_MULTAN", WeatherRow "[-3]" 40000000000 40300000000);
        ("weather_3_PUNJAB_QUETTA", WeatherRow "<html>" 43100000000 43400000000)])
    (list_to_map
       [(("PUNJAB", "LAHORE", 3), AlertRow "Heat" 43100000000 43400000000);
        (("PUNJAB", "MULTAN", 3), AlertRow "Rain" 40000000000 40300000000);
        (("PUNJAB", "OKARA", 3), AlertRow "Wind" 43100000000 43400000000);
        (("PUNJAB", "KASUR", 3), AlertRow "Fog" 43100000000 43400000000);
        (("PUNJAB", "JHANG", 3), AlertRow "Dust" 43100000000 43400000000);
        (("PUNJAB", "LAHORE", 1), AlertRow "Heat" 43100000000 43400000000);
        (("SINDH", "KARACHI", 3), AlertRow "Storm" 43100000000 43400000000)]).

Definition demo_districts : gmap string (Z * Z) :=
  list_to_map
    [("LAHORE", (31520400, 74358700));
     ("MULTAN", (30157500, 71524900));
     ("OKARA", (30808100, 73445800));
     ("QUETTA", (30179800, 66975000))].

(** An upstream that differs from [demo_upstream] for Multan only. *)
Definition demo_upstream_multan_up : @Upstream demo_geo :=
  @Build_Upstream demo_geo
    (λ district lat lon forecast_days,
       if bool_decide (district = "MULTAN") then Response 200 "[-3]"
       else demo_session_get district lat lon forecast_days).

(** Two provinces, of which Punjab lists the four districts above. *)
Definition demo_models : @Models demo_geo :=
  @Build_Models demo_geo
    (list_to_map
       [("PUNJAB", demo_districts);
        ("SINDH", list_to_map [("KARACHI", (24860700, 67001100))])]).

Definition demo_request_validation : RequestValidation :=
  {| validate_province := λ p,
       bool_decide (p = "PUNJAB") || bool_decide (p = "SINDH");
     validate_forecast_days := λ n, bool_decide (1 ≤ n ≤ 16) |}.

Definition demo_combined_fields : @CombinedFields demo_json :=
  {| listified_daily := λ v : @payload demo_json, Returned v |}.

(** ** Vocabulary of the statements *)

(** The [WHERE] of the purge of a whole province. *)
Definition purge_all_predicate (province : string) (forecast_days : Z)
    (k : alert_key) (_ : alert_row) : bool :=
  bool_decide (k.1.1 = province) && bool_decide (k.2 = forecast_days).

(** What a stored row contributes to a batch result. *)
Definition parsed_row `{Json} (row : weather_row) : option (payload * Z) :=
  (λ v, (v, created_at row)) <$> loads (data row).

(** The cached entry of a district that counts as a hit, read off the stored
    row: the row is there under the district's key, the database clock has
    not reached its [expires_at], its text parses, and its age on the
    process clock is below [ttl] seconds. *)
Definition fresh_entry `{Json, Validation} (province : string)
    (forecast_days ttl : Z) (c : clock) (d : db) (district_name : string)
    : option payload :=
  match
    weather_cache d
      !! weather_key forecast_days province (sanitize_filename district_name)
  with
  | Some row =>
      if bool_decide (db_now c < expires_at row) then
        match loads (data row) with
        | Some v =>
            if bool_decide (py_now c - created_at row < ttl * second)
            then Some v else None
        | None => None
        end
      else None
  | None => None
  end.

(** The request that the service sends for an entry of [districts]. *)
Definition info_of `{Validation, Geo} (province : string)
    (forecast_days : Z) (item : string * (coord * coord)) : district_info :=
  DistrictInfo item.1 item.2.1 item.2.2
    (weather_key forecast_days province (sanitize_filename item.1)).

(** A reply that is no forecast: an exception of the transport layer (time
    out, connection error, retries exhausted) or a status other than 200. *)
Definition reply_failed (r : http_reply) : Prop :=
  match r with
  | Response status_code _ => status_code ≠ 200
  | RequestException _ => True
  end.

(** The row that the write-back of a fetched document leaves in the weather
    cache. *)
Definition written_row `{Json, Config} (c : clock) (v : payload)
    : weather_row :=
  WeatherRow (dumps v) (db_now c)
    (add_seconds (replace_microsecond_0 (py_now c)) CACHE_TIME).

(** What the route [get_all_alerts] shows for the districts of one
    province: the alert found for a district, the text shown so far for the
    others. *)
Definition overlay (shown found : gmap string string) : gmap string string :=
  map_imap (λ district text, Some (default text (found !! district))) shown.

(** The row that [set_weather_cache] leaves for a frame. *)
Definition written_frame_row `{Pandas, Config} (c : clock) (df : DataFrame)
    : weather_row :=
  WeatherRow (to_json df) (db_now c)
    (add_seconds (replace_microsecond_0 (py_now c)) CACHE_TIME).

(** What happens to a task manager over time: [run_task] schedules a task,
    the wrapper of a scheduled task runs to its end on the manager as it
    then is, or [cleanup_old_results] is called. *)
Inductive manager_event (V W : Type) : Type :=
  | RunTask (task_id : string) (t : nat)
  | WrapperEnds (task_id : string) (func : W → task_outcome V * W) (w : W)
  | CleanupOldResults (alive : gset nat).
Arguments RunTask {V W} task_id t.
Arguments WrapperEnds {V W} task_id func w.
Arguments CleanupOldResults {V W} alive.

Definition manager_step {V W : Type} (m : BackgroundTaskManager V)
    (ev : manager_event V W) : BackgroundTaskManager V :=
  match ev with
  | RunTask task_id t => (run_task task_id t m ∅).1
  | WrapperEnds task_id func w => (wrapper task_id func m w).1.2
  | CleanupOldResults alive => cleanup_old_results m alive
  end.

(** The event is not the scheduling or the end of a task under [task_id]. *)
Definition of_other_task {V W : Type} (task_id : string)
    (ev : manager_event V W) : Prop :=
  match ev with
  | RunTask task_id' _ | WrapperEnds task_id' _ _ => task_id' ≠ task_id
  | CleanupOldResults _ => True
  end.

Definition no_cleanup {V W : Type} (ev : manager_event V W) : Prop :=
  match ev with
  | CleanupOldResults _ => False
  | _ => True
  end.

(** * Properties *)

(** ** Tables *)

Lemma delete_where_lookup `{EqK : EqDecision K, CountK : !Countable K} {V} (P : K → V → bool)
    (t : gmap K V) (k : K) :
  (delete_where P t).1 !! k
  = match t !! k with
    | Some v => if P k v then None else Some v
    | None => None
    end.
Proof.
  unfold delete_where; simpl. rewrite map_lookup_filter.
  destruct (t !! k) as [v|]; simpl; [|done].
  destruct (P k v); by case_guard.
Qed.

Lemma delete_where_rowcount `{EqK : EqDecision K, CountK : !Countable K} {V} (P : K → V → bool)
    (t : gmap K V) :
  (delete_where P t).2 = Z.of_nat (size (filter (λ kv, P kv.1 kv.2 = true) t)).
Proof. done. Qed.

Lemma delete_where_key `{EqK : EqDecision K, CountK : !Countable K} {V} (k0 : K) (t : gmap K V) :
  delete_where (λ k _, bool_decide (k = k0)) t
  = (delete k0 t, match t !! k0 with Some _ => 1 | None => 0 end).
Proof.
  unfold delete_where. f_equal.
  - apply map_eq; intros k. apply option_eq; intros v.
    rewrite map_lookup_filter_Some, lookup_delete_Some. simpl.
    rewrite bool_decide_eq_false. naive_solver.
  - assert (filter (λ kv : K * V, bool_decide (kv.1 = k0) = true) t
            = match t !! k0 with Some v => {[k0 := v]} | None => ∅ end) as ->.
    { apply map_eq; intros k. apply option_eq; intros v.
      rewrite map_lookup_filter_Some. simpl. rewrite bool_decide_eq_true.
      destruct (t !! k0) as [v0|] eqn:Hk0.
      - rewrite lookup_singleton_Some. naive_solver.
      - rewrite lookup_empty. naive_solver. }
    destruct (t !! k0); [by rewrite map_size_singleton|by rewrite map_size_empty].
Qed.

Lemma filter_all {A} (P : A → Prop) `{!∀ x, Decision (P x)} (l : list A) :
  (∀ x, x ∈ l → P x) → filter P l = l.
Proof.
  induction l as [|x l IH]; intros Hall; [done|].
  rewrite filter_cons_True by (apply Hall, elem_of_cons; by left).
  f_equal. apply IH. intros y Hy. apply Hall, elem_of_cons. by right.
Qed.

Lemma fetchone_live_Some (k : string) (now : Z) (d : db) (row : weather_row) :
  fetchone_live k now d = Some row
  ↔ weather_cache d !! k = Some row ∧ now < expires_at row.
Proof.
  unfold fetchone_live. destruct (weather_cache d !! k) as [r|]; [|naive_solver].
  case_bool_decide; naive_solver.
Qed.

Lemma fetchone_live_None (k : string) (now : Z) (d : db) :
  fetchone_live k now d = None
  ↔ ∀ row, weather_cache d !! k = Some row → expires_at row ≤ now.
Proof.
  unfold fetchone_live. destruct (weather_cache d !! k) as [r|]; [|naive_solver].
  case_bool_decide; split; try done.
  - intros Hall. specialize (Hall r eq_refl). lia.
  - intros _ row [= <-]. lia.
Qed.

Section database_facts.
Context {json : Json} {config : Config}.

(** The single-key read in terms of the stored row: a value comes back
    exactly for a live row whose text parses, and the tables are never
    changed. *)
Lemma get_raw_weather_cache_spec (k : string) (c : clock) (d : db) :
  get_raw_weather_cache k c d
  = (match weather_cache d !! k with
     | Some row =>
         if bool_decide (db_now c < expires_at row)
         then (λ v, (v, created_at row)) <$> loads (data row)
         else None
     | None => None
     end, d).
Proof.
  unfold get_raw_weather_cache, get_db_connection, fetchone_live.
  destruct (weather_cache d !! k) as [row|]; [|done].
  case_bool_decide; [|done]. by destruct (loads (data row)).
Qed.

Lemma set_raw_weather_cache_spec (k : string) (v : payload) (c : clock)
    (d : db) :
  set_raw_weather_cache k v c d
  = Db (<[k := WeatherRow (dumps v) (db_now c)
                 (add_seconds (replace_microsecond_0 (py_now c)) CACHE_TIME)]>
          (weather_cache d))
       (alerts d).
Proof. done. Qed.

(** A write followed by a read that comes before the expiry stamped by the
    write. *)
Lemma set_then_get_before_expiry (k : string) (v : payload) (c c' : clock)
    (d : db) :
  (∀ v', loads (dumps v') = Some v') →
  db_now c' < add_seconds (replace_microsecond_0 (py_now c)) CACHE_TIME →
  (get_raw_weather_cache k c' (set_raw_weather_cache k v c d)).1
  = Some (v, db_now c).
Proof.
  intros Hjson Hlive.
  rewrite get_raw_weather_cache_spec, set_raw_weather_cache_spec. simpl.
  rewrite lookup_insert_eq. simpl.
  rewrite bool_decide_eq_true_2 by done. by rewrite Hjson.
Qed.

Lemma replace_microsecond_0_bounds (t : Z) :
  t - second < replace_microsecond_0 t ≤ t.
Proof.
  unfold replace_microsecond_0, second.
  pose proof (Z.mod_pos_bound t 1000000). lia.
Qed.

(** When the round trip works.  A payload written under a key by
    [set_raw_weather_cache] and read at
    once by [get_raw_weather_cache], on the same readings of the two clocks,
    comes back as it was written, together with the creation time stamped
    by the write.  The round trip goes through [json.dumps] and
    [json.loads], which are inverse on JSON documents; the row must not be
    born expired, which is the case when [Config.CACHE_TIME] is positive and
    the process clock, from which the expiry is computed, is not behind the
    database clock, against which it is compared.  And a read of a key whose
    stored [expires_at] is not in the future is a miss. *)
Theorem set_then_get_raw_weather_cache :
  (∀ (k : string) (v : payload) (c : clock) (d : db),
     (∀ v', loads (dumps v') = Some v') →
     0 < CACHE_TIME →
     db_now c ≤ py_now c →
     (get_raw_weather_cache k c (set_raw_weather_cache k v c d)).1
     = Some (v, db_now c))
  ∧ (∀ (k : string) (row : weather_row) (c : clock) (d : db),
       weather_cache d !! k = Some row →
       expires_at row ≤ db_now c →
       (get_raw_weather_cache k c d).1 = None).
Proof.
  split.
  - intros k v c d Hjson Httl Hclocks.
    apply set_then_get_before_expiry; [done|].
    pose proof (replace_microsecond_0_bounds (py_now c)).
    unfold add_seconds, second in *. lia.
  - intros k row c d Hrow Hpast.
    rewrite get_raw_weather_cache_spec. simpl. rewrite Hrow.
    rewrite bool_decide_eq_false_2 by lia. done.
Qed.

(** C8, on [get_raw_weather_cache].  A live row whose text does not parse
    makes the read a miss, and no exception leaves the function; but the
    [json.loads] failure is raised inside the connection block, which
    rolls back, and no [DELETE] is issued: the row is still there. *)
Theorem get_raw_weather_cache_keeps_corrupt_row (k : string)
    (row : weather_row) (c : clock) (d : db) :
  weather_cache d !! k = Some row →
  db_now c < expires_at row →
  loads (data row) = None →
  get_raw_weather_cache k c d = (None, d)
  ∧ weather_cache (get_raw_weather_cache k c d).2 !! k = Some row.
Proof.
  intros Hrow Hlive Hbad. rewrite get_raw_weather_cache_spec, Hrow.
  rewrite bool_decide_eq_true_2 by done. by rewrite Hbad.
Qed.

(** C2, on the code.  The write computes [expires_at] from [datetime.now()],
    the local time of the process, and the read compares it with
    [CURRENT_TIMESTAMP], which is UTC.  When the former is behind the
    latter by the cache lifetime or more, the row that
    [set_raw_weather_cache] has just written is in the table, and the read
    that follows at once is a miss. *)
Theorem set_raw_weather_cache_born_expired (k : string) (v : payload)
    (c : clock) (d : db) :
  py_now c + CACHE_TIME * second ≤ db_now c →
  let d' := set_raw_weather_cache k v c d in
  weather_cache d' !! k = Some (written_row c v)
  ∧ (get_raw_weather_cache k c d').1 = None.
Proof.
  intros Hbehind. cbn zeta.
  rewrite get_raw_weather_cache_spec, set_raw_weather_cache_spec.
  cbn [fst weather_cache]. rewrite lookup_insert_eq. split; [done|].
  cbn [expires_at]. rewrite bool_decide_eq_false_2; [done|].
  pose proof (replace_microsecond_0_bounds (py_now c)).
  unfold add_seconds, second in *. lia.
Qed.
End database_facts.

(** The sibling read [get_weather_cache] does heal the table: a live row
    that does not parse into a frame is deleted and reported as a miss. *)
Lemma get_weather_cache_self_heals {json : Json} {pandas : Pandas} (k : string) (row : weather_row)
    (c : clock) (d : db) :
  weather_cache d !! k = Some row →
  db_now c < expires_at row →
  loads (data row) ≫= from_records = None →
  get_weather_cache k c d = (None, with_weather_cache (delete k) d)
  ∧ weather_cache (get_weather_cache k c d).2 !! k = None.
Proof.
  intros Hrow Hlive Hbad.
  assert (get_weather_cache k c d = (None, with_weather_cache (delete k) d))
    as ->.
  { unfold get_weather_cache, get_db_connection.
    assert (fetchone_live k (db_now c) d = Some row) as ->
      by by apply fetchone_live_Some.
    by rewrite Hbad. }
  split; [done|]. simpl. apply lookup_delete_eq.
Qed.

(** ** Batch lookup of the weather cache *)

Section batch_facts.
Context {json : Json}.

Lemma batch_step_lookup (results : gmap string (payload * Z))
    (r : string * weather_row) (k : string) :
  batch_step results r !! k
  = if decide (k = r.1)
    then from_option Some (results !! k) (parsed_row r.2)
    else results !! k.
Proof.
  unfold batch_step, parsed_row. destruct (loads (data r.2)); simpl.
  - rewrite lookup_insert. repeat case_decide; congruence.
  - by case_decide.
Qed.

Lemma batch_loop_lookup (rows : list (string * weather_row))
    (results : gmap string (payload * Z)) (k : string) :
  NoDup rows.*1 →
  foldl batch_step results rows !! k
  = match (list_to_map rows : gmap string weather_row) !! k with
    | Some row => from_option Some (results !! k) (parsed_row row)
    | None => results !! k
    end.
Proof.
  revert results. induction rows as [|[k' row'] rows IH]; intros results Hnd.
  { done. }
  simpl in *. apply NoDup_cons in Hnd as [Hfresh Hnd].
  rewrite IH by done. rewrite batch_step_lookup. simpl.
  destruct (decide (k = k')) as [->|Hne].
  - rewrite lookup_insert_eq.
    by rewrite (proj1 (not_elem_of_list_to_map rows k')).
  - rewrite lookup_insert_ne by done.
    destruct (list_to_map rows !! k); done.
Qed.

(** C4. The batch lookup never raises (it is a total function of the key
    list, the clock and the tables, and leaves the tables as they are),
    and it maps a key to a value exactly when the key was asked for and
    has a stored row whose [expires_at] is in the future and whose text
    parses; the value is then that row's payload and [created_at].  Keys
    that are absent, expired or unknown have no entry.  The key list is any
    list: it may be empty and may repeat keys. *)
Theorem get_raw_weather_cache_batch_exact (cache_keys : list string)
    (c : clock) (d : db) :
  (get_raw_weather_cache_batch cache_keys c d).2 = d
  ∧ ∀ (k : string) (v : payload) (t : Z),
      (get_raw_weather_cache_batch cache_keys c d).1 !! k = Some (v, t)
      ↔ k ∈ cache_keys
        ∧ ∃ row, weather_cache d !! k = Some row
                 ∧ db_now c < expires_at row
                 ∧ loads (data row) = Some v
                 ∧ created_at row = t.
Proof.
  destruct cache_keys as [|k0 keys].
  { split; [done|]. intros k v t. simpl. rewrite lookup_empty.
    split; [done|]. intros [Hin _]. by apply elem_of_nil in Hin. }
  set (ks := k0 :: keys). split; [done|]. intros k v t.
  unfold get_raw_weather_cache_batch, get_db_connection, fetchall. simpl.
  rewrite batch_loop_lookup by apply NoDup_fst_map_to_list.
  rewrite list_to_map_to_list, lookup_empty, map_lookup_filter.
  destruct (weather_cache d !! k) as [row|] eqn:Hrow; simpl.
  - case_guard as Hg; simpl in *;
      rewrite andb_true_iff, !bool_decide_eq_true in Hg.
    + unfold parsed_row.
      destruct (loads (data row)) as [v'|] eqn:Hparse; simpl; naive_solver.
    + naive_solver.
  - naive_solver.
Qed.
End batch_facts.

(** ** Purge *)

Lemma purge_cache_db_nil (province : string) (forecast_days : Z) (d : db) :
  purge_cache_db province [] forecast_days d
  = ((delete_where (purge_all_predicate province forecast_days) (alerts d)).2,
     Db (delete_where
           (λ (k : string) (_ : weather_row),
              like (forecast_pattern province forecast_days) k
              || like (alerts_pattern province forecast_days) k)
           (weather_cache d)).1
        (delete_where (purge_all_predicate province forecast_days) (alerts d)).1).
Proof. done. Qed.

Lemma purge_district_spec (province : string) (forecast_days count : Z)
    (d : db) (district : string) :
  purge_district province forecast_days (count, d) district
  = (count + match alerts d !! (province, district, forecast_days) with
             | Some _ => 1
             | None => 0
             end,
     Db (delete_where
           (λ (k : string) (_ : weather_row),
              bool_decide (k = forecast_key province district forecast_days)
              || bool_decide
                   (k = alerts_cache_key province forecast_days district))
           (weather_cache d)).1
        (delete (province, district, forecast_days) (alerts d))).
Proof.
  unfold purge_district. rewrite delete_where_key. done.
Qed.

Lemma purge_cache_db_cons (province district : string)
    (districts : list string) (forecast_days : Z) (d : db) :
  purge_cache_db province (district :: districts) forecast_days d
  = foldl (purge_district province forecast_days) (0, d) (district :: districts).
Proof.
  unfold purge_cache_db, get_db_connection.
  by destruct (foldl _ _ _).
Qed.

Lemma purge_loop_alerts (province : string) (forecast_days : Z)
    (districts : list string) (acc : Z * db) (k : alert_key) :
  alerts (foldl (purge_district province forecast_days) acc districts).2 !! k
  = if decide (k.1.1 = province ∧ k.2 = forecast_days ∧ k.1.2 ∈ districts)
    then None else alerts acc.2 !! k.
Proof.
  revert acc. induction districts as [|district districts IH]; intros [count d].
  { simpl. case_decide as Hk; [|done]. destruct Hk as (_ & _ & Hin).
    by apply elem_of_nil in Hin. }
  cbn [foldl]. rewrite IH, purge_district_spec. cbn [snd alerts].
  destruct k as [[p dist] h]. cbn [fst snd].
  destruct (decide ((p, dist, h) = (province, district, forecast_days)))
    as [Heq|Hne].
  - injection Heq as -> -> ->. rewrite lookup_delete_eq.
    rewrite (decide_True (P:=_ ∧ _ ∧ _ ∈ _ :: _)).
    + by destruct (decide _).
    + repeat split; try done. apply elem_of_cons; by left.
  - rewrite lookup_delete_ne by done.
    destruct (decide (p = province ∧ h = forecast_days ∧ dist ∈ districts))
      as [(-> & -> & Hin)|Hout].
    + rewrite decide_True; [done|].
      repeat split; try done. apply elem_of_cons; by right.
    + destruct (decide (p = province ∧ h = forecast_days
                        ∧ dist ∈ district :: districts))
        as [(-> & -> & Hin)|_]; [|done].
      exfalso. apply elem_of_cons in Hin as [->|Hin]; [done|].
      by apply Hout.
Qed.

(** No pattern and no key of the purge can match a text that begins with the
    letter w: the patterns begin with the literal letters f and a. *)
Lemma purge_predicates_miss_w (province district : string) (forecast_days : Z)
    (rest : string) :
  let k := String "w" rest in
  like (forecast_pattern province forecast_days) k = false
  ∧ like (alerts_pattern province forecast_days) k = false
  ∧ k ≠ forecast_key province district forecast_days
  ∧ k ≠ alerts_cache_key province forecast_days district.
Proof. repeat split; try done; discriminate. Qed.

Lemma purge_loop_weather (province : string) (forecast_days : Z)
    (districts : list string) (acc : Z * db) (rest : string) :
  weather_cache (foldl (purge_district province forecast_days) acc districts).2
    !! String "w" rest
  = weather_cache acc.2 !! String "w" rest.
Proof.
  revert acc. induction districts as [|district districts IH]; intros [count d].
  { done. }
  cbn [foldl]. rewrite IH, purge_district_spec. cbn [snd weather_cache].
  rewrite delete_where_lookup.
  destruct (weather_cache d !! String "w" rest); [|done].
  destruct (purge_predicates_miss_w province district forecast_days rest)
    as (_ & _ & Hf & Ha).
  by rewrite !bool_decide_eq_false_2.
Qed.

(** C7. For a province, a horizon and any state of the alerts table:
    purging with the empty district list removes every alert row keyed
    [(province, _, forecast_days)] and returns how many there were (so five
    when there are five), a number that is never negative; purging with one
    district removes the row [(province, district, forecast_days)] when it
    is there, and returns 1 or 0 accordingly; and whatever the district list
    is, the rows of other provinces, of other horizons and, for a list that
    is not empty, of districts outside the list are left as they were. *)
Theorem purge_cache_db_alerts (province : string) (forecast_days : Z) (d : db) :
  (let r := purge_cache_db province [] forecast_days d in
   r.1 = Z.of_nat
           (size (filter
                    (λ kv : alert_key * alert_row,
                       kv.1.1.1 = province ∧ kv.1.2 = forecast_days)
                    (alerts d)))
   ∧ 0 ≤ r.1
   ∧ ∀ k : alert_key,
       alerts r.2 !! k
       = if decide (k.1.1 = province ∧ k.2 = forecast_days)
         then None else alerts d !! k)
  ∧ (∀ district : string,
       let r := purge_cache_db province [district] forecast_days d in
       alerts r.2 = delete (province, district, forecast_days) (alerts d)
       ∧ r.1 = match alerts d !! (province, district, forecast_days) with
               | Some _ => 1
               | None => 0
               end)
  ∧ (∀ (districts : list string) (k : alert_key),
       k.1.1 ≠ province ∨ k.2 ≠ forecast_days
       ∨ (districts ≠ [] ∧ k.1.2 ∉ districts) →
       alerts (purge_cache_db province districts forecast_days d).2 !! k
       = alerts d !! k).
Proof.
  split; [|split].
  - cbn zeta. rewrite purge_cache_db_nil. cbn [fst snd alerts]. split; [|split].
    + rewrite delete_where_rowcount. do 2 f_equal.
      apply map_filter_ext. intros [[p dist] h] row _.
      unfold purge_all_predicate. simpl.
      rewrite andb_true_iff, !bool_decide_eq_true. done.
    + rewrite delete_where_rowcount. lia.
    + intros k. rewrite delete_where_lookup. unfold purge_all_predicate.
      destruct (alerts d !! k); [|by case_decide].
      case_decide as Hk.
      * destruct Hk as [-> ->]. by rewrite !bool_decide_eq_true_2.
      * apply not_and_l in Hk as [Hk|Hk];
          rewrite (bool_decide_eq_false_2 _ Hk); [done|by rewrite andb_false_r].
  - intros district. cbn zeta. rewrite purge_cache_db_cons. cbn [foldl].
    rewrite purge_district_spec. simpl. split; [done|lia].
  - intros districts k Hk. destruct districts as [|district districts].
    + rewrite purge_cache_db_nil. cbn [snd alerts].
      rewrite delete_where_lookup.
      unfold purge_all_predicate. destruct (alerts d !! k); [|done].
      destruct Hk as [Hk|[Hk|[Hk _]]]; [| |done];
        rewrite (bool_decide_eq_false_2 _ Hk); [done|by rewrite andb_false_r].
    + rewrite purge_cache_db_cons, purge_loop_alerts. cbn [snd].
      case_decide as Hin; [|done]. naive_solver.
Qed.

(** C10. No purge deletes a weather-cache row filed under a key
    [weather_{h}_{p}_{district}], the keys under which
    [get_bulk_weather_data] files what it fetches: the purge only issues
    [LIKE] patterns and exact keys that begin with the words forecast and
    alerts, and none of them matches a text beginning with the letter w.
    This holds for every province, district list and horizon of the purge
    and every such key, whether or not it names the purged scope. *)
Theorem purge_cache_db_keeps_weather_rows (province : string)
    (districts : list string) (forecast_days : Z) (d : db)
    (h : Z) (p sanitized_district : string) :
  weather_cache (purge_cache_db province districts forecast_days d).2
    !! weather_key h p sanitized_district
  = weather_cache d !! weather_key h p sanitized_district.
Proof.
  change (weather_key h p sanitized_district)
    with (String "w"
            ("eather_" +:+ pretty h +:+ "_" +:+ p +:+ "_" +:+ sanitized_district)).
  set (rest := "eather_" +:+ _).
  destruct districts as [|district districts].
  - rewrite purge_cache_db_nil. cbn [snd weather_cache].
    rewrite delete_where_lookup.
    destruct (weather_cache d !! String "w" rest); [|done].
    destruct (purge_predicates_miss_w province "" forecast_days rest)
      as (-> & -> & _). done.
  - rewrite purge_cache_db_cons. apply purge_loop_weather.
Qed.

(** ** Batch lookup of alerts *)

Lemma alerts_loop_lookup (rows : list (alert_key * alert_row))
    (results : gmap alert_key string) (k : alert_key) :
  NoDup rows.*1 →
  foldl alerts_step results rows !! k
  = match (list_to_map rows : gmap alert_key alert_row) !! k with
    | Some row => Some (alert_text row)
    | None => results !! k
    end.
Proof.
  revert results. induction rows as [|[k' row'] rows IH]; intros results Hnd.
  { done. }
  cbn [foldl fmap list_fmap fst] in *. apply NoDup_cons in Hnd as [Hfresh Hnd].
  rewrite IH by done. unfold alerts_step at 1.
  change (list_to_map ((k', row') :: rows))
    with (<[k' := row']> (list_to_map rows : gmap alert_key alert_row)).
  cbn [fst snd].
  destruct (decide (k = k')) as [->|Hne].
  - rewrite !lookup_insert_eq.
    by rewrite (proj1 (not_elem_of_list_to_map rows k')).
  - by rewrite !lookup_insert_ne.
Qed.

Lemma run_alert_query_lookup (w : where_clause) (c : clock) (d : db)
    (k : alert_key) :
  run_alert_query w c d !! k
  = match alerts d !! k with
    | Some row =>
        if eval_where (db_now c) w k row then Some (alert_text row) else None
    | None => None
    end.
Proof.
  unfold run_alert_query, fetchall.
  rewrite alerts_loop_lookup by apply NoDup_fst_map_to_list.
  rewrite list_to_map_to_list, lookup_empty, map_lookup_filter.
  destruct (alerts d !! k) as [row|]; [|done]. simpl.
  destruct (eval_where (db_now c) w k row); by case_guard.
Qed.

Lemma eval_tuple_in_query (now : Z) (l : list alert_key) (k : alert_key)
    (row : alert_row) :
  eval_where now (tuple_in_query l) k row
  = bool_decide (k ∈ l) && bool_decide (now < alert_expires_at row).
Proof. done. Qed.

(** The chain [... OR c_n AND expires_at > CURRENT_TIMESTAMP]: the expiry
    test is conjoined with the last condition only. *)
Lemma eval_or_chain (now : Z) (k : alert_key) (row : alert_row)
    (disj conj : bool) (l : list alert_key) (k_last : alert_key) :
  eval_chain now k row disj conj
    (((λ o, (OR, o)) <$> (EqTuple <$> l ++ [k_last])) ++ [(AND, NotExpired)])
  = disj || conj || bool_decide (k ∈ l)
    || (bool_decide (k = k_last) && bool_decide (now < alert_expires_at row)).
Proof.
  revert disj conj. induction l as [|k' l IH]; intros disj conj.
  - cbn. rewrite (bool_decide_eq_false_2 (k ∈ [])) by apply not_elem_of_nil.
    by rewrite orb_false_r.
  - cbn [app fmap list_fmap eval_chain]. rewrite IH. cbn [eval_operand].
    rewrite (bool_decide_ext (k ∈ k' :: l) (k = k' ∨ k ∈ l))
      by apply elem_of_cons.
    rewrite bool_decide_or. by rewrite !orb_assoc.
Qed.

Lemma eval_or_chain_query (now : Z) (k1 : alert_key) (l : list alert_key)
    (k_last : alert_key) :
  ∃ w, or_chain_query (k1 :: l ++ [k_last]) = Some w
       ∧ ∀ (k : alert_key) (row : alert_row),
           eval_where now w k row
           = bool_decide (k ∈ k1 :: l)
             || (bool_decide (k = k_last)
                 && bool_decide (now < alert_expires_at row)).
Proof.
  eexists. split; [done|]. intros k row.
  unfold eval_where. cbn [fst snd]. rewrite eval_or_chain. cbn [eval_operand].
  rewrite (bool_decide_ext (k ∈ k1 :: l) (k = k1 ∨ k ∈ l))
    by apply elem_of_cons.
  by rewrite bool_decide_or.
Qed.

(** With a single tuple the two queries do select the same rows. *)
Lemma get_alerts_batch_single (k0 : alert_key) (c : clock) (d : db) :
  get_alerts_batch true [k0] c d = get_alerts_batch false [k0] c d.
Proof.
  unfold get_alerts_batch, get_db_connection. cbn. f_equal.
  apply map_eq. intros k. rewrite !run_alert_query_lookup.
  destruct (alerts d !! k) as [row|]; [|done].
  cbn. rewrite (bool_decide_ext (k ∈ [k0]) (k = k0)); [done|].
  apply list_elem_of_singleton.
Qed.

(** C9, on the code.  When two or more tuples are asked for, the text of the
    fallback query is [c_1 OR ... OR c_n AND expires_at >
    CURRENT_TIMESTAMP], in which the expiry test binds to [c_n] alone: an
    expired row stored under any tuple before the last is returned by the
    fallback and left out by the tuple-IN query, so the two result mappings
    differ. *)
Theorem get_alerts_batch_fallback_returns_expired (k1 : alert_key)
    (l : list alert_key) (k_last : alert_key) (row : alert_row) (c : clock)
    (d : db) :
  alerts d !! k1 = Some row →
  alert_expires_at row ≤ db_now c →
  (get_alerts_batch true (k1 :: l ++ [k_last]) c d).1 !! k1 = None
  ∧ (get_alerts_batch false (k1 :: l ++ [k_last]) c d).1 !! k1
    = Some (alert_text row)
  ∧ get_alerts_batch true (k1 :: l ++ [k_last]) c d
    ≠ get_alerts_batch false (k1 :: l ++ [k_last]) c d.
Proof.
  intros Hrow Hexpired.
  destruct (eval_or_chain_query (db_now c) k1 l k_last) as (w & Hw & Heval).
  assert ((get_alerts_batch true (k1 :: l ++ [k_last]) c d).1 !! k1 = None)
    as Hprimary.
  { unfold get_alerts_batch, get_db_connection. cbn [or_return fst].
    rewrite run_alert_query_lookup, Hrow, eval_tuple_in_query.
    rewrite (bool_decide_eq_false_2 (db_now c < _)) by lia.
    by rewrite andb_false_r. }
  assert ((get_alerts_batch false (k1 :: l ++ [k_last]) c d).1 !! k1
          = Some (alert_text row)) as Hfallback.
  { unfold get_alerts_batch, get_db_connection. rewrite Hw. cbn [or_return fst].
    rewrite run_alert_query_lookup, Hrow, Heval.
    rewrite (bool_decide_eq_true_2 (k1 ∈ k1 :: l)); [done|].
    apply elem_of_cons; by left. }
  split; [done|]. split; [done|].
  intros Heq. rewrite Heq, Hfallback in Hprimary. done.
Qed.

(** ** Bulk fetch *)

Section bulk_facts.
Context {json : Json} {config : Config} {validation : Validation}.
Context {geo : Geo} {upstream : Upstream} {executor : Executor}.
Variables (province : string) (forecast_days ttl : Z) (c : clock).

Abbreviation fresh := (fresh_entry province forecast_days ttl c).
Abbreviation step := (lookup_step province forecast_days ttl c).
Abbreviation request := (info_of province forecast_days).
Abbreviation fetch := (fetch_single_district forecast_days).

Lemma lookup_step_spec (st : lookup_state) (item : string * (coord * coord)) :
  step st item
  = match fresh (store st) item.1 with
    | Some v =>
        LookupState (uncached st) (<[item.1 := v]> (cached_data st)) (store st)
    | None =>
        LookupState (uncached st ++ [request item]) (cached_data st) (store st)
    end.
Proof.
  unfold lookup_step, fresh_entry, age_below, info_of.
  rewrite get_raw_weather_cache_spec.
  destruct (weather_cache (store st) !! _) as [row|]; [|done].
  case_bool_decide; [|done].
  destruct (loads (data row)) as [v|]; [|done]. simpl.
  by case_bool_decide.
Qed.

(** The first loop: the store is only read, the misses are queued in the
    order of the dictionary, the hits are filed under their names. *)
Lemma lookup_loop_spec (items : list (string * (coord * coord)))
    (st : lookup_state) :
  let st' := foldl step st items in
  store st' = store st
  ∧ uncached st'
    = uncached st
      ++ (request <$> filter (λ it, fresh (store st) it.1 = None) items)
  ∧ ∀ n : string,
      cached_data st' !! n
      = if decide (n ∈ items.*1)
        then from_option Some (cached_data st !! n) (fresh (store st) n)
        else cached_data st !! n.
Proof.
  revert st. induction items as [|item items IH]; intros st; cbn zeta.
  { split; [done|]. split; [by rewrite app_nil_r|]. intros n.
    by rewrite decide_False by apply not_elem_of_nil. }
  cbn [foldl]. destruct (IH (step st item)) as (Hstore & Hqueue & Hhits).
  rewrite Hstore, Hqueue. clear Hstore Hqueue.
  assert (store (step st item) = store st) as Hs.
  { rewrite lookup_step_spec. by destruct (fresh (store st) item.1). }
  rewrite Hs. split; [done|]. split.
  - rewrite filter_cons. rewrite lookup_step_spec.
    destruct (fresh (store st) item.1) eqn:Hf; simpl.
    + done.
    + by rewrite <-app_assoc.
  - intros n. rewrite Hhits, Hs. clear Hhits.
    rewrite fmap_cons.
    destruct (decide (n = item.1)) as [->|Hne].
    + rewrite (decide_True (P:=item.1 ∈ item.1 :: _))
        by (apply elem_of_cons; by left).
      rewrite lookup_step_spec.
      destruct (fresh (store st) item.1) eqn:Hf; simpl.
      * destruct (decide _); [done|]. by rewrite lookup_insert_eq.
      * by destruct (decide _).
    + assert (cached_data (step st item) !! n = cached_data st !! n) as ->.
      { rewrite lookup_step_spec.
        destruct (fresh (store st) item.1); simpl; [|done].
        by rewrite lookup_insert_ne. }
      destruct (decide (n ∈ items.*1)) as [Hin|Hout].
      * rewrite decide_True by (apply elem_of_cons; by right). done.
      * rewrite decide_False; [done|].
        rewrite elem_of_cons. naive_solver.
Qed.

(** The second loop, seen from one name: a name that no future carries is
    left alone, and a name carried by one future gets that future's
    document when the fetch succeeded. *)
Lemma store_loop_other (rs : list fetched) (acc : gmap string payload * db)
    (n : string) :
  n ∉ fetched_name <$> rs →
  (foldl (store_step c) acc rs).1 !! n = acc.1 !! n.
Proof.
  revert acc. induction rs as [|r rs IH]; intros acc Hn; [done|].
  cbn [foldl]. rewrite fmap_cons, not_elem_of_cons in Hn.
  destruct Hn as [Hne Hn]. rewrite IH by done.
  unfold store_step. destruct (fetched_data r) as [v|]; [|done].
  destruct (truthy v); [|done]. simpl. by rewrite lookup_insert_ne.
Qed.

Lemma store_loop_one (rs : list fetched) (acc : gmap string payload * db)
    (r : fetched) :
  NoDup (fetched_name <$> rs) →
  r ∈ rs →
  (foldl (store_step c) acc rs).1 !! fetched_name r
  = if succeeded r then fetched_data r else acc.1 !! fetched_name r.
Proof.
  revert acc. induction rs as [|r' rs IH]; intros acc Hnd Hin.
  { by apply elem_of_nil in Hin. }
  cbn [foldl]. rewrite fmap_cons in Hnd. apply NoDup_cons in Hnd as [Hfresh Hnd].
  apply elem_of_cons in Hin as [<-|Hin].
  - rewrite store_loop_other by done.
    unfold store_step, succeeded. destruct (fetched_data r) as [v|]; [|done].
    destruct (truthy v); [|done]. simpl. by rewrite lookup_insert_eq.
  - rewrite IH by done.
    assert (fetched_name r ≠ fetched_name r') as Hne.
    { intros Heq. apply Hfresh. rewrite <-Heq.
      by apply list_elem_of_fmap_2. }
    destruct (succeeded r); [done|].
    unfold store_step. destruct (fetched_data r') as [v|]; [|done].
    destruct (truthy v); [|done]. simpl. by rewrite lookup_insert_ne.
Qed.

Lemma fetched_name_fetch (i : district_info) :
  fetched_name (fetch i) = info_name i.
Proof.
  unfold fetch_single_district.
  destruct (session_get _ _ _ _) as [code body|msg]; [|done].
  case_bool_decide; [|done]. by destruct (loads body).
Qed.

(** A fetch never hands on a document together with an error, and a
    failed fetch hands on no document. *)
Lemma fetch_data_or_error (i : district_info) :
  (is_Some (fetched_data (fetch i)) ∧ fetched_error (fetch i) = None)
  ∨ (fetched_data (fetch i) = None ∧ is_Some (fetched_error (fetch i))).
Proof.
  unfold fetch_single_district.
  destruct (session_get _ _ _ _) as [code body|msg]; [|by right].
  case_bool_decide; [|by right]. destruct (loads body); [by left|by right].
Qed.

Section one_call.
Variables (districts : gmap string (coord * coord)) (cache_time : option Z).
Variable d : db.
Hypothesis ttl_given : default CACHE_TIME cache_time = ttl.

Abbreviation items := (map_to_list districts).
Abbreviation misses := (filter (λ it, fresh d it.1 = None) items).
Abbreviation b :=
  (get_bulk_weather_data province districts forecast_days cache_time c d).

Lemma bulk_unfold :
  let st := foldl step (LookupState [] ∅ d) items in
  bulk_calls b = uncached st
  ∧ bulk_result b
    = (foldl (store_step c) (cached_data st, store st)
         (as_completed (fetch <$> uncached st))).1.
Proof.
  cbn zeta. unfold get_bulk_weather_data. rewrite ttl_given.
  destruct (uncached (foldl step _ _)) as [|i is'] eqn:Hq.
  - assert (as_completed (fetch <$> []) = []) as ->; [|done].
    apply Permutation_nil_r, as_completed_perm.
  - by destruct (foldl (store_step c) _ _).
Qed.

(** The requests submitted are those of the districts without a fresh
    entry, in the order of the dictionary. *)
Lemma bulk_calls_spec : bulk_calls b = request <$> misses.
Proof.
  destruct bulk_unfold as [-> _].
  by destruct (lookup_loop_spec items (LookupState [] ∅ d)) as (_ & -> & _).
Qed.

Lemma item_names (n : string) : n ∈ items.*1 ↔ is_Some (districts !! n).
Proof.
  rewrite list_elem_of_fmap. split.
  - intros ([n' xy] & -> & Hin). apply elem_of_map_to_list in Hin. by eexists.
  - intros [xy Hxy]. exists (n, xy). by rewrite elem_of_map_to_list.
Qed.

Lemma miss_names (n : string) :
  n ∈ info_name <$> (request <$> misses)
  ↔ is_Some (districts !! n) ∧ fresh d n = None.
Proof.
  rewrite <-list_fmap_compose, list_elem_of_fmap.
  setoid_rewrite list_elem_of_filter. split.
  - intros ([n' xy] & -> & Hmiss & Hin). split; [|done].
    apply elem_of_map_to_list in Hin. by eexists.
  - intros [[xy Hxy] Hmiss]. exists (n, xy). split; [done|].
    split; [done|]. by apply elem_of_map_to_list.
Qed.

Lemma miss_names_NoDup : NoDup (info_name <$> (request <$> misses)).
Proof.
  rewrite <-list_fmap_compose.
  apply (sublist_NoDup _ items.*1); [apply NoDup_fst_map_to_list|].
  apply fmap_sublist, sublist_filter.
Qed.

Lemma future_names (rs : list fetched) :
  rs ≡ₚ fetch <$> (request <$> misses) →
  fetched_name <$> rs ≡ₚ info_name <$> (request <$> misses).
Proof.
  intros ->. rewrite <-list_fmap_compose.
  erewrite list_fmap_ext; [done|]. intros _ i _. apply fetched_name_fetch.
Qed.

(** The returned mapping, name by name. *)
Lemma bulk_result_lookup (n : string) :
  bulk_result b !! n
  = match districts !! n with
    | Some xy =>
        match fresh d n with
        | Some v => Some v
        | None =>
            let r := fetch (request (n, xy)) in
            if succeeded r then fetched_data r else None
        end
    | None => None
    end.
Proof.
  destruct bulk_unfold as [_ ->].
  destruct (lookup_loop_spec items (LookupState [] ∅ d))
    as (Hstore & Hqueue & Hhits).
  cbn [uncached cached_data store app] in *. rewrite Hqueue.
  set (rs := as_completed _).
  assert (rs ≡ₚ fetch <$> (request <$> misses)) as Hrs
    by apply as_completed_perm.
  pose proof (future_names rs Hrs) as Hnames.
  assert (∀ n, cached_data (foldl step (LookupState [] ∅ d) items) !! n
               = districts !! n ≫= λ _, fresh d n) as Hcached.
  { intros n'. rewrite Hhits, lookup_empty.
    destruct (decide (n' ∈ items.*1)) as [Hin|Hout].
    - apply item_names in Hin as [xy ->]. simpl. by destruct (fresh d n').
    - rewrite item_names, <-eq_None_not_Some in Hout. by rewrite Hout. }
  destruct (districts !! n) as [xy|] eqn:Hn.
  - destruct (fresh d n) as [v|] eqn:Hfresh.
    + rewrite store_loop_other; [by rewrite Hcached, Hn; simpl|].
      rewrite Hnames, miss_names, Hfresh. naive_solver.
    + assert (fetch (request (n, xy)) ∈ rs) as Hin.
      { rewrite Hrs. apply list_elem_of_fmap_2, list_elem_of_fmap_2.
        apply list_elem_of_filter. split; [done|].
        by apply elem_of_map_to_list. }
      pose proof (store_loop_one rs
                    (cached_data (foldl step (LookupState [] ∅ d) items),
                     store (foldl step (LookupState [] ∅ d) items))
                    (fetch (request (n, xy)))) as Hone.
      rewrite fetched_name_fetch in Hone. cbn [info_of info_name fst] in Hone.
      rewrite Hone; [|by rewrite Hnames; apply miss_names_NoDup|done].
      cbn [fst]. rewrite Hcached, Hn. simpl. by rewrite Hfresh.
  - rewrite store_loop_other; [by rewrite Hcached, Hn|].
    rewrite Hnames, miss_names, Hn. intros [[? [=]] _].
Qed.
End one_call.
End bulk_facts.

Section bulk_claims.
Context {json : Json} {config : Config} {validation : Validation}.
Context {geo : Geo} {upstream : Upstream} {executor : Executor}.
Variables (province : string) (districts : gmap string (coord * coord)).
Variables (forecast_days : Z) (cache_time : option Z) (c : clock) (d : db).

Abbreviation effective_ttl := (default CACHE_TIME cache_time).
Abbreviation fresh_in_store :=
  (fresh_entry province forecast_days effective_ttl c d).
Abbreviation call :=
  (get_bulk_weather_data province districts forecast_days cache_time c d).
Abbreviation futures :=
  (fetch_single_district forecast_days <$> bulk_calls call).

Lemma succeeded_data (r : fetched) :
  is_Some (if succeeded r then fetched_data r else None) ↔ succeeded r = true.
Proof.
  unfold succeeded. destruct (fetched_data r) as [v|]; simpl.
  - destruct (truthy v); [by split; eauto|]. split; [by intros [? [=]]|done].
  - split; [by intros [? [=]]|done].
Qed.

Lemma hit_names (n : string) :
  n ∈ (filter (λ it, is_Some (fresh_in_store it.1)) (map_to_list districts)).*1
  ↔ is_Some (districts !! n) ∧ is_Some (fresh_in_store n).
Proof.
  rewrite list_elem_of_fmap. setoid_rewrite list_elem_of_filter. split.
  - intros ([n' xy] & -> & Hhit & Hin). split; [|done].
    apply elem_of_map_to_list in Hin. by eexists.
  - intros [[xy Hxy] Hhit]. exists (n, xy). split; [done|].
    split; [done|]. by apply elem_of_map_to_list.
Qed.

Lemma success_names (n : string) :
  n ∈ fetched_name <$> filter (λ r, succeeded r = true) futures
  ↔ ∃ xy, districts !! n = Some xy ∧ fresh_in_store n = None
          ∧ succeeded
              (fetch_single_district forecast_days
                 (info_of province forecast_days (n, xy))) = true.
Proof.
  rewrite (bulk_calls_spec _ _ effective_ttl) by done.
  rewrite list_elem_of_fmap. setoid_rewrite list_elem_of_filter.
  setoid_rewrite list_elem_of_fmap. setoid_rewrite list_elem_of_fmap.
  setoid_rewrite list_elem_of_filter. split.
  - intros (r & -> & Hok & i & -> & [n' xy] & -> & Hmiss & Hin).
    rewrite fetched_name_fetch. cbn [info_of info_name fst] in *.
    apply elem_of_map_to_list in Hin. by exists xy.
  - intros (xy & Hxy & Hmiss & Hok).
    eexists. split; [|split; [exact Hok|]].
    + by rewrite fetched_name_fetch.
    + eexists. split; [done|]. exists (n, xy). split; [done|].
      split; [done|]. by apply elem_of_map_to_list.
Qed.

Lemma bulk_result_dom :
  dom (bulk_result call)
  = list_to_set
      ((filter (λ it, is_Some (fresh_in_store it.1)) (map_to_list districts)).*1
       ++ (fetched_name <$> filter (λ r, succeeded r = true) futures)).
Proof.
  apply set_eq. intros n.
  rewrite elem_of_dom, elem_of_list_to_set, elem_of_app.
  rewrite hit_names, success_names.
  rewrite (bulk_result_lookup _ _ effective_ttl) by done.
  destruct (districts !! n) as [xy|]; [|by split; [intros [? [=]]|naive_solver]].
  destruct (fresh_in_store n) as [v|]; [naive_solver|].
  cbn zeta. rewrite succeeded_data. split.
  - intros Hok. right. by exists xy.
  - intros [[_ [? [=]]]|(xy' & [= <-] & _ & Hok)]. done.
Qed.

Lemma bulk_result_names_NoDup :
  NoDup
    ((filter (λ it, is_Some (fresh_in_store it.1)) (map_to_list districts)).*1
     ++ (fetched_name <$> filter (λ r, succeeded r = true) futures)).
Proof.
  apply NoDup_app. split; [|split].
  - apply (sublist_NoDup _ (map_to_list districts).*1);
      [apply NoDup_fst_map_to_list|].
    apply fmap_sublist, sublist_filter.
  - intros n [_ [v Hhit]]%hit_names (xy & _ & Hmiss & _)%success_names.
    congruence.
  - apply (sublist_NoDup _ (fetched_name <$> futures));
      [|apply fmap_sublist, sublist_filter].
    rewrite (bulk_calls_spec _ _ effective_ttl) by done.
    rewrite <-list_fmap_compose.
    erewrite list_fmap_ext;
      [apply (miss_names_NoDup province forecast_days effective_ttl c)|].
    intros _ i _. apply fetched_name_fetch.
Qed.

(** The hit test of the code.  One call of [get_bulk_weather_data] over a
    dictionary of locations, where a location is a hit when the store holds
    a live, readable row under its key whose age as the code measures it,
    from the stamp of the database to the clock of the process, is below
    the effective TTL (the
    argument [cache_time], or [Config.CACHE_TIME] when it is absent):
    - when every location is a hit, no request is submitted and every
      location is mapped to its cached payload;
    - when no location is a hit, the requests submitted are one per
      location, in the order of the dictionary;
    - in general the requests submitted name each location that is not a
      hit once, and nothing else;
    - for the empty dictionary the result is empty and nothing is
      submitted;
    - the result has as many entries as there are hits plus fetches that
      succeeded. *)
Theorem get_bulk_weather_data_cache_split :
  ((∀ n, is_Some (districts !! n) → is_Some (fresh_in_store n)) →
   bulk_calls call = []
   ∧ ∀ n, is_Some (districts !! n) → bulk_result call !! n = fresh_in_store n)
  ∧ ((∀ n, is_Some (districts !! n) → fresh_in_store n = None) →
     info_name <$> bulk_calls call = (map_to_list districts).*1
     ∧ length (bulk_calls call) = size districts)
  ∧ (NoDup (info_name <$> bulk_calls call)
     ∧ ∀ n, n ∈ info_name <$> bulk_calls call
            ↔ is_Some (districts !! n) ∧ fresh_in_store n = None)
  ∧ (districts = ∅ → bulk_result call = ∅ ∧ bulk_calls call = [])
  ∧ size (bulk_result call)
    = (length
         (filter (λ it, is_Some (fresh_in_store it.1)) (map_to_list districts))
       + length (filter (λ r, succeeded r = true) futures))%nat.
Proof.
  assert (NoDup (info_name <$> bulk_calls call)
          ∧ ∀ n, n ∈ info_name <$> bulk_calls call
                 ↔ is_Some (districts !! n) ∧ fresh_in_store n = None)
    as Hcalls.
  { rewrite (bulk_calls_spec _ _ effective_ttl) by done. split.
    - apply miss_names_NoDup.
    - apply miss_names. }
  split; [|split; [|split; [done|split]]].
  - intros Hall. assert (bulk_calls call = []) as Hnone.
    { destruct (bulk_calls call) as [|i is'] eqn:Hq; [done|]. exfalso.
      destruct Hcalls as [_ Hcalls].
      destruct (proj1 (Hcalls (info_name i))) as [Hin Hmiss].
      { rewrite fmap_cons. apply elem_of_cons; by left. }
      apply Hall in Hin as [v Hv]. congruence. }
    split; [done|]. intros n Hn.
    rewrite (bulk_result_lookup _ _ effective_ttl) by done.
    destruct (Hall n Hn) as [v Hv]. destruct Hn as [xy ->]. by rewrite Hv.
  - intros Hnone.
    assert (info_name <$> bulk_calls call = (map_to_list districts).*1) as Hnames.
    { rewrite (bulk_calls_spec _ _ effective_ttl) by done.
      rewrite <-list_fmap_compose.
      assert (filter (λ it, fresh_in_store it.1 = None) (map_to_list districts)
              = map_to_list districts) as ->; [|done].
      apply filter_all. intros [n xy] Hin.
      apply Hnone. apply elem_of_map_to_list in Hin. by eexists. }
    split; [done|].
    rewrite <-(length_fmap info_name), Hnames, length_fmap.
    apply length_map_to_list.
  - intros ->. split.
    + apply map_empty. intros n.
      rewrite (bulk_result_lookup _ _ effective_ttl) by done.
      by rewrite lookup_empty.
    + rewrite (bulk_calls_spec _ _ effective_ttl) by done.
      by rewrite map_to_list_empty.
  - rewrite <-size_dom, bulk_result_dom.
    rewrite size_list_to_set by apply bulk_result_names_NoDup.
    by rewrite length_app, !length_fmap.
Qed.
End bulk_claims.

Section bulk_failures.
Context {json : Json} {config : Config} {validation : Validation}.
Context {geo : Geo} {executor : Executor}.
Variables (province : string) (districts : gmap string (coord * coord)).
Variables (forecast_days : Z) (cache_time : option Z) (c : clock) (d : db).

Lemma failed_reply_not_succeeded (up : Upstream) (i : district_info) :
  reply_failed
    (session_get (info_name i) (info_lat i) (info_lon i) forecast_days) →
  succeeded (fetch_single_district forecast_days i) = false.
Proof.
  unfold fetch_single_district, succeeded, reply_failed.
  destruct (session_get _ _ _ _) as [code body|msg]; [|done].
  intros Hcode. by rewrite bool_decide_eq_false_2.
Qed.

(** C3. In a batch, a location that is not a hit and whose fetch does not
    succeed (the session raised, the status was not 200, or the body was
    no usable document, all of which the code reports as a failed fetch)
    has no entry in the returned mapping; the call itself returns a
    mapping in every case, since no exception leaves
    [fetch_single_district] or the cache functions.  And the entries of
    all other locations do not depend on what the upstream replies for
    that location: two upstreams that differ only in their replies for it
    give the same entry, or the same absence of one, to every other
    name. *)
Theorem get_bulk_weather_data_drops_failures (up up' : Upstream)
    (n : string) :
  let b :=
    @get_bulk_weather_data json config validation geo up executor province
      districts forecast_days cache_time c d in
  let b' :=
    @get_bulk_weather_data json config validation geo up' executor province
      districts forecast_days cache_time c d in
  (∀ xy : coord * coord,
     districts !! n = Some xy →
     fresh_entry province forecast_days (default CACHE_TIME cache_time) c d n
     = None →
     succeeded
       (@fetch_single_district json geo up forecast_days
          (info_of province forecast_days (n, xy))) = false →
     bulk_result b !! n = None)
  ∧ ((∀ (n' : string) (lat lon : coord) (days : Z),
        n' ≠ n →
        @session_get geo up n' lat lon days
        = @session_get geo up' n' lat lon days) →
     ∀ n' : string, n' ≠ n → bulk_result b !! n' = bulk_result b' !! n').
Proof.
  cbn zeta. split.
  - intros xy Hxy Hmiss Hfail.
    rewrite (bulk_result_lookup _ _ (default CACHE_TIME cache_time)) by done.
    rewrite Hxy, Hmiss. cbn zeta. by rewrite Hfail.
  - intros Hagree n' Hne.
    rewrite !(bulk_result_lookup _ _ (default CACHE_TIME cache_time)) by done.
    destruct (districts !! n') as [xy|]; [|done].
    destruct (fresh_entry _ _ _ _ _ _); [done|]. cbn zeta.
    assert (@fetch_single_district json geo up forecast_days
              (info_of province forecast_days (n', xy))
            = @fetch_single_district json geo up' forecast_days
                (info_of province forecast_days (n', xy))) as ->; [|done].
    unfold fetch_single_district. cbn [info_of info_name fst].
    by rewrite Hagree.
Qed.
End bulk_failures.

(** C1, on the code.  The age that [get_bulk_weather_data] compares with
    the TTL is [datetime.now()], the local time of the process, minus
    [created_at], which the database has stamped with [CURRENT_TIMESTAMP],
    that is in UTC.  A location whose cached entry is live and readable and
    was written less than the TTL ago, but in a process whose clock is far
    enough ahead of UTC, is no hit: a request is sent for it. *)
Theorem get_bulk_weather_data_refetches_young_entry {json : Json}
    {config : Config} {validation : Validation} {geo : Geo}
    {upstream : Upstream} {executor : Executor} (province : string)
    (districts : gmap string (coord * coord)) (forecast_days : Z)
    (cache_time : option Z) (c : clock) (d : db) (n : string)
    (xy : coord * coord) (row : weather_row) (v : payload) :
  districts !! n = Some xy →
  weather_cache d !! weather_key forecast_days province (sanitize_filename n)
  = Some row →
  db_now c < expires_at row →
  loads (data row) = Some v →
  0 ≤ db_now c - created_at row < default CACHE_TIME cache_time * second →
  default CACHE_TIME cache_time * second ≤ py_now c - created_at row →
  let b :=
    get_bulk_weather_data province districts forecast_days cache_time c d in
  (get_raw_weather_cache
     (weather_key forecast_days province (sanitize_filename n)) c d).1
  = Some (v, created_at row)
  ∧ n ∈ info_name <$> bulk_calls b
  ∧ bulk_calls b ≠ [].
Proof.
  intros Hn Hrow Hlive Hloads Hyoung Hahead. cbn zeta.
  assert (n ∈ info_name
              <$> bulk_calls
                    (get_bulk_weather_data province districts forecast_days
                       cache_time c d)) as Hcall.
  { rewrite (bulk_calls_spec _ _ (default CACHE_TIME cache_time)) by done.
    apply miss_names. split; [by eexists|].
    unfold fresh_entry. rewrite Hrow, Hloads.
    rewrite bool_decide_eq_true_2 by done.
    by rewrite bool_decide_eq_false_2 by lia. }
  split; [|split; [done|]].
  - rewrite get_raw_weather_cache_spec, Hrow, Hloads.
    by rewrite bool_decide_eq_true_2.
  - intros Hnone. rewrite Hnone in Hcall. by apply elem_of_nil in Hcall.
Qed.

(** ** Background tasks *)

Section background_facts.
Context {V W : Type}.
Implicit Types (m : BackgroundTaskManager V) (func : W → task_outcome V * W).

Lemma wrapper_spec (task_id : string) func m (w : W) :
  wrapper task_id func m w
  = (match (func w).1 with
     | Aborted e => Raised e
     | _ => Returned tt
     end,
     Manager (delete task_id (tasks m))
       (match (func w).1 with
        | Completed v => <[task_id := v]> (task_results m)
        | _ => task_results m
        end)
       (match (func w).1 with
        | Failed e => <[task_id := e]> (task_errors m)
        | _ => task_errors m
        end),
     (func w).2).
Proof.
  unfold wrapper. destruct (func w) as [[v|e|e] w']; cbn [fst snd tasks];
    (case_bool_decide as Hin; cbn [tasks task_results task_errors];
     [done|]);
    rewrite delete_id; try done; try (by destruct m);
    by apply not_elem_of_dom.
Qed.

Lemma task_of_spec (job : W → outcome V * W) (w : W) :
  task_of job w
  = (match (job w).1 with
     | Returned v => Completed v
     | Raised e => Failed e
     end, (job w).2).
Proof. unfold task_of. by destruct (job w). Qed.
End background_facts.

(** ** The alert job *)

Section alert_job_facts.
Context {json : Json} {config : Config} {validation : Validation}.
Context {geo : Geo} {upstream : Upstream} {executor : Executor}.
Context {pandas : Pandas} {fields : DailyFields} {service : AlertService}.

Lemma store_loop_grows (c : clock) (rs : list fetched)
    (acc : gmap string payload * db) :
  acc.1 ≠ ∅ → (foldl (store_step c) acc rs).1 ≠ ∅.
Proof.
  revert acc. induction rs as [|r rs IH]; intros acc Hne; [done|].
  cbn [foldl]. apply IH. unfold store_step.
  destruct (fetched_data r) as [v|]; [|done].
  destruct (truthy v); [|done]. apply insert_non_empty.
Qed.

(** Nothing is written to the cache unless something is added to the
    result. *)
Lemma store_loop_empty (c : clock) (rs : list fetched)
    (acc : gmap string payload * db) :
  (foldl (store_step c) acc rs).1 = ∅ → (foldl (store_step c) acc rs).2 = acc.2.
Proof.
  revert acc. induction rs as [|r rs IH]; intros acc Hempty; [done|].
  cbn [foldl] in *. unfold store_step in *.
  destruct (fetched_data r) as [v|]; [|by apply IH].
  destruct (truthy v); [|by apply IH].
  exfalso. revert Hempty. apply store_loop_grows, insert_non_empty.
Qed.

Lemma bulk_empty_keeps_db (province : string)
    (districts : gmap string (coord * coord)) (forecast_days : Z)
    (cache_time : option Z) (c : clock) (d : db) :
  let b :=
    get_bulk_weather_data province districts forecast_days cache_time c d in
  bulk_result b = ∅ → bulk_db b = d.
Proof.
  cbn zeta. unfold get_bulk_weather_data.
  destruct (lookup_loop_spec province forecast_days
              (default CACHE_TIME cache_time) c (map_to_list districts)
              (LookupState [] ∅ d)) as (Hstore & _ & _).
  cbn [store] in Hstore.
  destruct (uncached _) as [|i is'].
  { intros _. exact Hstore. }
  destruct (foldl (store_step c) _ _) as [result d'] eqn:Hloop.
  cbn [bulk_result bulk_db]. intros ->.
  pose proof (store_loop_empty c _ _ (f_equal fst Hloop)) as Hdb.
  rewrite Hloop in Hdb. cbn [snd] in Hdb. by rewrite Hdb.
Qed.

(** C6, on the code.  When the bulk fetch of the job comes back empty, the
    job logs the failure and returns [None]: nothing is purged and nothing
    is persisted (the whole database is as it was), but no exception is
    raised, so that the wrapper of the task manager files [None] in the
    result dictionary and writes nothing to the error dictionary. *)
Theorem generate_alerts_task_empty_fetch (task_id province : string)
    (districts_to_fetch : gmap string (coord * coord)) (forecast_days : Z)
    (c : clock) (d : db) (m : BackgroundTaskManager (option report)) :
  bulk_result
    (get_bulk_weather_data province districts_to_fetch forecast_days
       (Some 0) c d) = ∅ →
  let job := generate_alerts_task province districts_to_fetch forecast_days c in
  let finished := wrapper task_id (task_of job) m d in
  job d = (Returned None, d)
  ∧ finished.2 = d
  ∧ get_result task_id finished.1.2 = Some None
  ∧ get_error task_id finished.1.2 = get_error task_id m.
Proof.
  intros Hempty. cbn zeta.
  assert (generate_alerts_task province districts_to_fetch forecast_days c d
          = (Returned None, d)) as Hjob.
  { unfold generate_alerts_task. rewrite Hempty.
    rewrite bool_decide_eq_true_2 by done.
    by rewrite bulk_empty_keeps_db. }
  rewrite wrapper_spec, task_of_spec, Hjob. unfold get_result, get_error.
  cbn [fst snd task_results task_errors].
  by rewrite lookup_insert_eq.
Qed.
End alert_job_facts.

(** * The statements at work on the small instance *)

(** A payload cached under [weather_3_PUNJAB_LAHORE] with a lifetime of 300
    seconds is read back at once; the row of Multan, expired an hour ago, is
    a miss. *)
Lemma set_then_get_raw_weather_cache_witness :
  (@get_raw_weather_cache demo_json "weather_3_PUNJAB_LAHORE" demo_clock
     (@set_raw_weather_cache demo_json demo_config "weather_3_PUNJAB_LAHORE"
        DocWarm demo_clock demo_db)).1
  = Some (DocWarm, 43200000000)
  ∧ (@get_raw_weather_cache demo_json "weather_3_PUNJAB_MULTAN" demo_clock
       demo_db).1 = None.
Proof.
  destruct (@set_then_get_raw_weather_cache demo_json demo_config)
    as [Hfresh Hexpired].
  split.
  - apply (Hfresh "weather_3_PUNJAB_LAHORE" DocWarm demo_clock).
    + intros v'. destruct v'; reflexivity.
    + vm_compute. reflexivity.
    + vm_compute. discriminate.
  - apply (Hexpired "weather_3_PUNJAB_MULTAN"
             (WeatherRow "[-3]" 40000000000 40300000000)).
    + vm_compute. reflexivity.
    + vm_compute. discriminate.
Defined.

Lemma get_raw_weather_cache_keeps_corrupt_row_witness :
  @get_raw_weather_cache demo_json "weather_3_PUNJAB_QUETTA" demo_clock demo_db
  = (None, demo_db)
  ∧ weather_cache
      (@get_raw_weather_cache demo_json "weather_3_PUNJAB_QUETTA" demo_clock
         demo_db).2
    !! "weather_3_PUNJAB_QUETTA"
    = Some (WeatherRow "<html>" 43100000000 43400000000).
Proof.
  apply (@get_raw_weather_cache_keeps_corrupt_row demo_json).
  - vm_compute. reflexivity.
  - vm_compute. reflexivity.
  - vm_compute. reflexivity.
Defined.

(** Five rows of Punjab at horizon 3, all five removed and counted; the rows
    of Sindh and of horizon 1 stay. *)
Lemma purge_cache_db_alerts_witness :
  (purge_cache_db "PUNJAB" [] 3 demo_db).1 = 5
  ∧ alerts (purge_cache_db "PUNJAB" [] 3 demo_db).2 !! ("PUNJAB", "OKARA", 3)
    = None
  ∧ alerts (purge_cache_db "PUNJAB" ["OKARA"] 3 demo_db).2
    !! ("PUNJAB", "LAHORE", 3)
    = Some (AlertRow "Heat" 43100000000 43400000000)
  ∧ alerts (purge_cache_db "PUNJAB" [] 3 demo_db).2 !! ("SINDH", "KARACHI", 3)
    = Some (AlertRow "Storm" 43100000000 43400000000).
Proof.
  destruct (purge_cache_db_alerts "PUNJAB" 3 demo_db)
    as ((Hcount & _ & Hall) & _ & Hframe).
  split; [|split; [|split]].
  - rewrite Hcount. vm_compute. reflexivity.
  - rewrite Hall. vm_compute. reflexivity.
  - rewrite (Hframe ["OKARA"] ("PUNJAB", "LAHORE", 3)).
    + vm_compute. reflexivity.
    + right. right. split; [discriminate|]. cbn.
      intros Hin%list_elem_of_singleton. discriminate.
  - rewrite (Hframe [] ("SINDH", "KARACHI", 3)).
    + vm_compute. reflexivity.
    + left. discriminate.
Defined.

(** Multan's alert has expired.  Asked for Multan and Lahore, the tuple-IN
    query leaves Multan out and the OR chain returns it. *)
Lemma get_alerts_batch_fallback_returns_expired_witness :
  (get_alerts_batch true [("PUNJAB", "MULTAN", 3); ("PUNJAB", "LAHORE", 3)]
     demo_clock demo_db).1 !! ("PUNJAB", "MULTAN", 3) = None
  ∧ (get_alerts_batch false [("PUNJAB", "MULTAN", 3); ("PUNJAB", "LAHORE", 3)]
       demo_clock demo_db).1 !! ("PUNJAB", "MULTAN", 3) = Some "Rain"
  ∧ get_alerts_batch true [("PUNJAB", "MULTAN", 3); ("PUNJAB", "LAHORE", 3)]
      demo_clock demo_db
    ≠ get_alerts_batch false [("PUNJAB", "MULTAN", 3); ("PUNJAB", "LAHORE", 3)]
        demo_clock demo_db.
Proof.
  apply (get_alerts_batch_fallback_returns_expired ("PUNJAB", "MULTAN", 3) []
           ("PUNJAB", "LAHORE", 3) (AlertRow "Rain" 40000000000 40300000000)).
  - vm_compute. reflexivity.
  - vm_compute. discriminate.
Defined.

(** Lahore alone, whose row is fresh: nothing is fetched.  All four
    districts: Lahore is a hit, Multan (expired), Okara (never cached) and
    Quetta (unreadable row) are fetched, and of these only Okara's fetch
    succeeds, so that the result has two entries. *)
Lemma get_bulk_weather_data_cache_split_witness :
  let one :=
    @get_bulk_weather_data demo_json demo_config demo_validation demo_geo
      demo_upstream demo_executor "PUNJAB"
      {[ "LAHORE" := (31520400, 74358700) ]} 3 None demo_clock demo_db in
  let all :=
    @get_bulk_weather_data demo_json demo_config demo_validation demo_geo
      demo_upstream demo_executor "PUNJAB" demo_districts 3 None demo_clock
      demo_db in
  (bulk_calls one = [] ∧ bulk_result one !! "LAHORE" = Some DocWarm)
  ∧ ("MULTAN" ∈ info_name <$> bulk_calls all
     ∧ "LAHORE" ∉ info_name <$> bulk_calls all)
  ∧ size (bulk_result all) = 2%nat.
Proof.
  cbn zeta. split; [|split].
  - destruct (@get_bulk_weather_data_cache_split demo_json demo_config
                demo_validation demo_geo demo_upstream demo_executor "PUNJAB"
                {[ "LAHORE" := (31520400, 74358700) ]} 3 None demo_clock demo_db)
      as (Hhits & _).
    destruct Hhits as [Hcalls Hresult].
    + intros n [xy Hn]. apply lookup_singleton_Some in Hn as [<- _].
      vm_compute. by eexists.
    + split; [exact Hcalls|]. rewrite Hresult.
      * vm_compute. reflexivity.
      * rewrite lookup_singleton_eq. by eexists.
  - destruct (@get_bulk_weather_data_cache_split demo_json demo_config
                demo_validation demo_geo demo_upstream demo_executor "PUNJAB"
                demo_districts 3 None demo_clock demo_db)
      as (_ & _ & (_ & Hcalls) & _).
    split.
    + apply Hcalls. split; [vm_compute; by eexists|vm_compute; reflexivity].
    + intros [_ Hmiss]%Hcalls. vm_compute in Hmiss. discriminate.
  - destruct (@get_bulk_weather_data_cache_split demo_json demo_config
                demo_validation demo_geo demo_upstream demo_executor "PUNJAB"
                demo_districts 3 None demo_clock demo_db)
      as (_ & _ & _ & _ & Hsize).
    rewrite Hsize. vm_compute. reflexivity.
Defined.

(** Multan's fetch ends in a 503: Multan is left out, and the entries of
    Lahore and Okara are the same as under an upstream that serves Multan. *)
Lemma get_bulk_weather_data_drops_failures_witness :
  let b :=
    @get_bulk_weather_data demo_json demo_config demo_validation demo_geo
      demo_upstream demo_executor "PUNJAB" demo_districts 3 None demo_clock
      demo_db in
  let b' :=
    @get_bulk_weather_data demo_json demo_config demo_validation demo_geo
      demo_upstream_multan_up demo_executor "PUNJAB" demo_districts 3 None
      demo_clock demo_db in
  bulk_result b !! "MULTAN" = None
  ∧ bulk_result b !! "OKARA" = bulk_result b' !! "OKARA"
  ∧ bulk_result b !! "LAHORE" = bulk_result b' !! "LAHORE".
Proof.
  cbn zeta.
  destruct (@get_bulk_weather_data_drops_failures demo_json demo_config
              demo_validation demo_geo demo_executor "PUNJAB" demo_districts 3
              None demo_clock demo_db demo_upstream demo_upstream_multan_up
              "MULTAN") as [Hdrop Hothers].
  split; [|split].
  - apply (Hdrop (30157500, 71524900)).
    + vm_compute. reflexivity.
    + vm_compute. reflexivity.
    + apply failed_reply_not_succeeded. vm_compute. discriminate.
  - apply Hothers; [|discriminate].
    intros n' lat lon days Hne. cbn. unfold demo_session_get.
    by rewrite (bool_decide_eq_false_2 (n' = "MULTAN")).
  - apply Hothers; [|discriminate].
    intros n' lat lon days Hne. cbn. unfold demo_session_get.
    by rewrite (bool_decide_eq_false_2 (n' = "MULTAN")).
Defined.

(** The alert job for Multan and Quetta, which the upstream does not serve:
    the database is untouched, [None] is filed as the result of the task and
    the error dictionary stays empty. *)
Lemma generate_alerts_task_empty_fetch_witness :
  let districts : gmap string (Z * Z) :=
    {[ "MULTAN" := (30157500, 71524900); "QUETTA" := (30179800, 66975000) ]} in
  let finished :=
    wrapper "alerts_PUNJAB_3"
      (task_of
         (@generate_alerts_task demo_json demo_config demo_validation demo_geo
            demo_upstream demo_executor demo_pandas demo_fields
            demo_alert_service "PUNJAB" districts 3 demo_clock))
      new_manager demo_db in
  finished.2 = demo_db
  ∧ get_result "alerts_PUNJAB_3" finished.1.2 = Some None
  ∧ get_error "alerts_PUNJAB_3" finished.1.2 = None.
Proof.
  cbn zeta.
  destruct (@generate_alerts_task_empty_fetch demo_json demo_config
              demo_validation demo_geo demo_upstream demo_executor demo_pandas
              demo_fields demo_alert_service "alerts_PUNJAB_3" "PUNJAB"
              {[ "MULTAN" := (30157500, 71524900);
                 "QUETTA" := (30179800, 66975000) ]} 3 demo_clock demo_db
              new_manager) as (_ & Hdb & Hres & Herr).
  - vm_compute. reflexivity.
  - split; [exact Hdb|]. split; [exact Hres|].
    etransitivity; [exact Herr|]. vm_compute. reflexivity.
Defined.

(** ** Scenarios *)

(** Lahore cached and fresh, Multan cached and expired, Okara never cached:
    the requests go out for Multan and Okara. *)
Example bulk_fetch_scenario :
  info_name <$>
    bulk_calls
      (@get_bulk_weather_data demo_json demo_config demo_validation demo_geo
         demo_upstream demo_executor "PUNJAB" (delete "QUETTA" demo_districts)
         3 None demo_clock demo_db)
  = ["OKARA"; "MULTAN"].
Proof. vm_compute. reflexivity. Qed.

(** The fetched document of Okara is filed under the key that later purges
    leave alone. *)
Example bulk_fetch_writes_back :
  let b :=
    @get_bulk_weather_data demo_json demo_config demo_validation demo_geo
      demo_upstream demo_executor "PUNJAB" demo_districts 3 None demo_clock
      demo_db in
  weather_cache (bulk_db b) !! "weather_3_PUNJAB_OKARA"
  = Some (WeatherRow "[-3]" 43200000000 43500000000)
  ∧ weather_cache (purge_cache_db "PUNJAB" [] 3 (bulk_db b)).2
    = weather_cache (bulk_db b).
Proof. vm_compute. split; reflexivity. Qed.

(** Of a fresh, an expired, an unreadable and an unknown key, the batch
    lookup returns the fresh one. *)
Example batch_lookup_scenario :
  (@get_raw_weather_cache_batch demo_json
     ["weather_3_PUNJAB_LAHORE"; "weather_3_PUNJAB_MULTAN";
      "weather_3_PUNJAB_QUETTA"; "weather_3_PUNJAB_SAHIWAL"]
     demo_clock demo_db).1
  = {[ "weather_3_PUNJAB_LAHORE" := (DocWarm, 43100000000) ]}.
Proof. vm_compute. reflexivity. Qed.

(** The patterns of the purge do match the keys under which
    [create_weather_dataframe] caches frames, in any case of the letters. *)
Example like_scenario :
  like (alerts_pattern "PUNJAB" 3) "alerts_PUNJAB_3_LAHORE" = true
  ∧ like (forecast_pattern "PUNJAB" 3) "FORECAST_punjab_LAHORE_3" = true
  ∧ like (forecast_pattern "PUNJAB" 3) "weather_3_PUNJAB_LAHORE" = false.
Proof. vm_compute. repeat split. Qed.

(** With every district served, the job runs to its end and reports. *)
Example generate_alerts_task_scenario :
  (@generate_alerts_task demo_json demo_config demo_validation demo_geo
     demo_upstream demo_executor demo_pandas demo_fields demo_alert_service
     "PUNJAB" demo_districts 3 demo_clock demo_db).1
  = Returned
      (Some (Report "success" "Alerts generated for PUNJAB" "Alerts for PUNJAB"
               "PUNJAB")).
Proof. vm_compute. reflexivity. Qed.

(** * Further properties of the code *)

(** ** Counting rows *)

Lemma delete_where_partition `{EqK : EqDecision K, CountK : !Countable K} {V}
    (P : K → V → bool) (t : gmap K V) :
  Z.of_nat (size t)
  = Z.of_nat (size (delete_where P t).1) + (delete_where P t).2.
Proof.
  unfold delete_where. cbn [fst snd].
  rewrite <-Nat2Z.inj_add. f_equal.
  rewrite <-(map_filter_union_complement
               (λ kv : K * V, P kv.1 kv.2 = true) t) at 1.
  rewrite map_size_disj_union by apply map_disjoint_filter_complement.
  rewrite Nat.add_comm. f_equal. f_equal.
  apply map_filter_ext. intros k v _. cbn. by rewrite not_true_iff_false.
Qed.

Lemma count_where_complement `{EqK : EqDecision K, CountK : !Countable K} {V}
    (P Q : K → V → bool) (t : gmap K V) :
  (∀ k v, Q k v = negb (P k v)) →
  count_where P t + count_where Q t = Z.of_nat (size t).
Proof.
  intros Hneg. rewrite (delete_where_partition P t).
  unfold count_where, delete_where. cbn [fst snd]. rewrite Z.add_comm.
  f_equal. do 2 f_equal. apply map_filter_ext. intros k v _. cbn.
  rewrite Hneg. by destruct (P k v).
Qed.

Lemma count_where_none `{EqK : EqDecision K, CountK : !Countable K} {V}
    (P : K → V → bool) (t : gmap K V) :
  (∀ k v, t !! k = Some v → P k v = false) → count_where P t = 0.
Proof.
  intros Hnone. unfold count_where.
  assert (filter (λ kv : K * V, P kv.1 kv.2 = true) t = ∅) as ->.
  { apply map_empty. intros k. apply map_lookup_filter_None. right.
    intros v Hv. cbn. by rewrite (Hnone k v Hv). }
  by rewrite map_size_empty.
Qed.

Lemma delete_where_none `{EqK : EqDecision K, CountK : !Countable K} {V}
    (P : K → V → bool) (t : gmap K V) :
  (∀ k v, t !! k = Some v → P k v = false) → delete_where P t = (t, 0).
Proof.
  intros Hnone. unfold delete_where. f_equal.
  - apply map_filter_id. intros k v Hv. cbn. by apply Hnone.
  - by apply count_where_none.
Qed.

(** ** Alerts: single reads and writes *)

Section alert_facts.
Context {config : Config}.

Lemma get_alert_spec (province district : string) (forecast_days : Z)
    (c : clock) (d : db) :
  get_alert province district forecast_days c d
  = (match alerts d !! (province, district, forecast_days) with
     | Some row =>
         if bool_decide (db_now c < alert_expires_at row)
         then Some (alert_text row) else None
     | None => None
     end, d).
Proof.
  unfold get_alert, get_db_connection.
  destruct (alerts d !! _) as [row|]; [|done]. by case_bool_decide.
Qed.

Lemma save_alert_spec (province district : string) (forecast_days : Z)
    (text : string) (c : clock) (d : db) :
  save_alert province district forecast_days text c d
  = if sqlite_integer forecast_days then
      Db (weather_cache d)
        (<[(province, district, forecast_days) :=
             AlertRow text (db_now c)
               (add_seconds (replace_microsecond_0 (py_now c)) CACHE_TIME)]>
           (alerts d))
    else d.
Proof. unfold save_alert. by destruct (sqlite_integer forecast_days). Qed.

(** X1.  [save_alert] followed by [get_alert], for a horizon that fits the
    64 bits of an SQLite integer: the alert saved last under a key is the
    one read, whatever was stored under the key before; the alerts of other
    keys read as before and the weather cache is not touched. *)
Theorem save_alert_then_get_alert (province district : string)
    (forecast_days : Z) (text : string) (c : clock) (d : db) :
  - 2 ^ 63 ≤ forecast_days < 2 ^ 63 →
  0 < CACHE_TIME →
  db_now c ≤ py_now c →
  let d' := save_alert province district forecast_days text c d in
  (get_alert province district forecast_days c d').1 = Some text
  ∧ weather_cache d' = weather_cache d
  ∧ ∀ (p' d0 : string) (h' : Z) (c' : clock),
      (p', d0, h') ≠ (province, district, forecast_days) →
      (get_alert p' d0 h' c' d').1 = (get_alert p' d0 h' c' d).1.
Proof.
  intros Hfits Httl Hclocks. cbn zeta. rewrite save_alert_spec.
  unfold sqlite_integer. rewrite bool_decide_eq_true_2 by done.
  split; [|split; [done|]].
  - rewrite get_alert_spec. cbn [fst alerts]. rewrite lookup_insert_eq.
    cbn [alert_expires_at alert_text].
    rewrite bool_decide_eq_true_2; [done|].
    pose proof (replace_microsecond_0_bounds (py_now c)).
    unfold add_seconds, second in *. lia.
  - intros p' d0 h' c' Hne. rewrite !get_alert_spec. cbn [fst alerts].
    by rewrite lookup_insert_ne.
Qed.
End alert_facts.

(** ** Batch reads are the single reads, key by key *)

Lemma get_raw_weather_cache_batch_pointwise {json : Json}
    (cache_keys : list string) (c : clock) (d : db) (k : string) :
  (get_raw_weather_cache_batch cache_keys c d).1 !! k
  = if decide (k ∈ cache_keys) then (get_raw_weather_cache k c d).1 else None.
Proof.
  rewrite get_raw_weather_cache_spec. cbn [fst].
  destruct cache_keys as [|k0 keys].
  { cbn. rewrite lookup_empty. by rewrite decide_False by apply not_elem_of_nil. }
  set (ks := k0 :: keys).
  unfold get_raw_weather_cache_batch, get_db_connection, fetchall. simpl.
  rewrite batch_loop_lookup by apply NoDup_fst_map_to_list.
  rewrite list_to_map_to_list, lookup_empty, map_lookup_filter.
  destruct (weather_cache d !! k) as [row|]; simpl; [|by case_decide].
  case_guard as Hg; simpl in *;
    rewrite andb_true_iff, !bool_decide_eq_true in Hg.
  - destruct Hg as [Hin Hlive]. rewrite decide_True by done.
    rewrite bool_decide_eq_true_2 by done. unfold parsed_row.
    by destruct (loads (data row)).
  - case_decide; [|done]. case_bool_decide; [|done]. naive_solver.
Qed.

(** X2.  The batch lookup of the weather cache returns, for each key asked for,
    what [get_raw_weather_cache] returns for that key, and nothing for any
    other key. *)
Theorem get_raw_weather_cache_batch_is_pointwise {json : Json}
    (cache_keys : list string) (c : clock) (d : db) :
  (∀ k, k ∈ cache_keys →
        (get_raw_weather_cache_batch cache_keys c d).1 !! k
        = (get_raw_weather_cache k c d).1)
  ∧ (∀ k, k ∉ cache_keys →
          (get_raw_weather_cache_batch cache_keys c d).1 !! k = None).
Proof.
  split; intros k Hk; rewrite get_raw_weather_cache_batch_pointwise.
  - by rewrite decide_True.
  - by rewrite decide_False.
Qed.



(** ** All alerts of a horizon *)

Lemma all_alerts_step_lookup (found : gmap string (gmap string string))
    (r : alert_key * alert_row) (p dist : string) :
  all_alerts_step found r !! p ≫= (.!! dist)
  = if decide (r.1.1.1 = p ∧ r.1.1.2 = dist) then Some (alert_text r.2)
    else found !! p ≫= (.!! dist).
Proof.
  unfold all_alerts_step. destruct r as [[[rp rd] rh] row]. cbn [fst snd].
  destruct (decide (rp = p)) as [->|Hp].
  - rewrite lookup_alter_eq. case_bool_decide as Hin.
    + apply elem_of_dom in Hin as [inner Hinner]. rewrite Hinner. cbn.
      rewrite lookup_insert. repeat case_decide; naive_solver.
    + apply not_elem_of_dom in Hin. rewrite lookup_insert_eq, Hin. cbn.
      rewrite lookup_insert, lookup_empty. repeat case_decide; naive_solver.
  - rewrite lookup_alter_ne by done. rewrite decide_False by naive_solver.
    case_bool_decide; [done|]. by rewrite lookup_insert_ne.
Qed.

Lemma all_alerts_loop_lookup (h : Z) (rows : list (alert_key * alert_row))
    (found : gmap string (gmap string string)) (p dist : string) :
  (∀ r, r ∈ rows → r.1.2 = h) →
  NoDup rows.*1 →
  foldl all_alerts_step found rows !! p ≫= (.!! dist)
  = match (list_to_map rows : gmap alert_key alert_row) !! (p, dist, h) with
    | Some row => Some (alert_text row)
    | None => found !! p ≫= (.!! dist)
    end.
Proof.
  revert found. induction rows as [|[k row] rows IH]; intros found Hh Hnd.
  { done. }
  cbn [foldl fmap list_fmap fst] in *. apply NoDup_cons in Hnd as [Hfresh Hnd].
  rewrite IH; [|intros r Hr; apply Hh, elem_of_cons; by right|done].
  change (list_to_map ((k, row) :: rows))
    with (<[k := row]> (list_to_map rows : gmap alert_key alert_row)).
  rewrite all_alerts_step_lookup. cbn [fst snd].
  assert (k.2 = h) as Hk by (apply (Hh (k, row)), elem_of_cons; by left).
  destruct k as [[kp kd] kh]. cbn [fst snd] in *. subst kh.
  destruct (decide ((kp, kd, h) = (p, dist, h))) as [[= -> ->]|Hne].
  - rewrite lookup_insert_eq.
    rewrite (proj1 (not_elem_of_list_to_map rows (p, dist, h))) by done.
    by rewrite decide_True.
  - rewrite lookup_insert_ne by done.
    destruct (list_to_map rows !! (p, dist, h)); [done|].
    rewrite decide_False; [done|]. intros [-> ->]. done.
Qed.

Lemma all_alerts_loop_inner (rows : list (alert_key * alert_row))
    (found : gmap string (gmap string string)) :
  (∀ p inner, found !! p = Some inner → inner ≠ ∅) →
  ∀ p inner, foldl all_alerts_step found rows !! p = Some inner → inner ≠ ∅.
Proof.
  revert found. induction rows as [|r rows IH]; intros found Hinv; [done|].
  cbn [foldl]. apply IH. intros p inner. unfold all_alerts_step.
  destruct (decide (r.1.1.1 = p)) as [<-|Hp].
  - rewrite lookup_alter_eq. intros Hsome.
    destruct (_ !! r.1.1.1) as [inner0|]; [|done].
    injection Hsome as <-. apply insert_non_empty.
  - rewrite lookup_alter_ne by done. case_bool_decide; [apply Hinv|].
    rewrite lookup_insert_ne by done. apply Hinv.
Qed.

Lemma get_all_alerts_lookup (forecast_days : Z) (c : clock) (d : db)
    (p dist : string) :
  (get_all_alerts forecast_days c d).1 !! p ≫= (.!! dist)
  = (get_alert p dist forecast_days c d).1.
Proof.
  unfold get_all_alerts, get_db_connection, fetchall. cbn [or_return fst].
  rewrite (all_alerts_loop_lookup forecast_days).
  - rewrite list_to_map_to_list, lookup_empty, get_alert_spec. cbn [fst].
    rewrite map_lookup_filter.
    destruct (alerts d !! (p, dist, forecast_days)) as [row|]; [|done].
    simpl. rewrite (bool_decide_eq_true_2 (forecast_days = forecast_days))
      by done.
    cbn [andb]. case_bool_decide as Hlive.
    + by rewrite option_guard_True.
    + by rewrite option_guard_False.
  - intros [k row] Hr. apply elem_of_map_to_list in Hr.
    apply map_lookup_filter_Some in Hr as [_ Hr]. cbn in Hr.
    apply andb_true_iff in Hr as [Hr _]. by apply bool_decide_eq_true in Hr.
  - apply NoDup_fst_map_to_list.
Qed.

Lemma get_all_alerts_inner (forecast_days : Z) (c : clock) (d : db)
    (p : string) (inner : gmap string string) :
  (get_all_alerts forecast_days c d).1 !! p = Some inner → inner ≠ ∅.
Proof.
  unfold get_all_alerts, get_db_connection, fetchall. cbn [or_return fst].
  apply all_alerts_loop_inner. intros p' inner'. by rewrite lookup_empty.
Qed.

(** Two nested dictionaries without empty inner dictionaries are equal when
    they agree on every pair of keys. *)
Lemma nested_map_eq (m1 m2 : gmap string (gmap string string)) :
  (∀ p inner, m1 !! p = Some inner → inner ≠ ∅) →
  (∀ p inner, m2 !! p = Some inner → inner ≠ ∅) →
  (∀ p dist, m1 !! p ≫= (.!! dist) = m2 !! p ≫= (.!! dist)) →
  m1 = m2.
Proof.
  intros Hne1 Hne2 Heq. apply map_eq. intros p.
  destruct (m1 !! p) as [i1|] eqn:H1, (m2 !! p) as [i2|] eqn:H2; [| | |done].
  - f_equal. apply map_eq. intros dist. specialize (Heq p dist).
    by rewrite H1, H2 in Heq.
  - destruct (map_choose i1 (Hne1 p i1 H1)) as (dist & x & Hx).
    specialize (Heq p dist). rewrite H1, H2 in Heq. cbn in Heq. congruence.
  - destruct (map_choose i2 (Hne2 p i2 H2)) as (dist & x & Hx).
    specialize (Heq p dist). rewrite H1, H2 in Heq. cbn in Heq. congruence.
Qed.

(** X4.  [get_all_alerts]: the nested dictionary has an entry for a province and
    a district exactly when [get_alert] finds an alert for them at that
    horizon, and the entry is that alert; a province appears only with at
    least one district; the tables are left alone. *)
Theorem get_all_alerts_exact (forecast_days : Z) (c : clock) (d : db) :
  (get_all_alerts forecast_days c d).2 = d
  ∧ (∀ p dist : string,
       (get_all_alerts forecast_days c d).1 !! p ≫= (.!! dist)
       = (get_alert p dist forecast_days c d).1)
  ∧ (∀ (p : string) (inner : gmap string string),
       (get_all_alerts forecast_days c d).1 !! p = Some inner → inner ≠ ∅).
Proof.
  split; [done|]. split.
  - apply get_all_alerts_lookup.
  - apply get_all_alerts_inner.
Qed.

(** ** Expired rows: statistics and clean-up *)

Lemma cleanup_expired_cache_spec (c : clock) (d : db) :
  cleanup_expired_cache c d
  = ((delete_where
        (λ (_ : string) (row : weather_row),
           bool_decide (expires_at row ≤ db_now c)) (weather_cache d)).2
     + (delete_where
          (λ (_ : alert_key) (row : alert_row),
             bool_decide (alert_expires_at row ≤ db_now c)) (alerts d)).2,
     Db (delete_where
           (λ (_ : string) (row : weather_row),
              bool_decide (expires_at row ≤ db_now c)) (weather_cache d)).1
        (delete_where
           (λ (_ : alert_key) (row : alert_row),
              bool_decide (alert_expires_at row ≤ db_now c)) (alerts d)).1).
Proof. done. Qed.

Lemma cleanup_weather_lookup (c : clock) (d : db) (k : string) :
  weather_cache (cleanup_expired_cache c d).2 !! k
  = match weather_cache d !! k with
    | Some row =>
        if bool_decide (db_now c < expires_at row) then Some row else None
    | None => None
    end.
Proof.
  rewrite cleanup_expired_cache_spec. cbn [snd weather_cache].
  rewrite delete_where_lookup. destruct (weather_cache d !! k) as [row|]; [|done].
  repeat case_bool_decide; done || lia.
Qed.

Lemma cleanup_alerts_lookup (c : clock) (d : db) (k : alert_key) :
  alerts (cleanup_expired_cache c d).2 !! k
  = match alerts d !! k with
    | Some row =>
        if bool_decide (db_now c < alert_expires_at row) then Some row else None
    | None => None
    end.
Proof.
  rewrite cleanup_expired_cache_spec. cbn [snd alerts].
  rewrite delete_where_lookup. destruct (alerts d !! k) as [row|]; [|done].
  repeat case_bool_decide; done || lia.
Qed.

(** X5.  [cleanup_expired_cache] removes from both tables the rows whose
    [expires_at] is not in the future and no other row, and returns the
    number of rows it removed, which is the sum of the two expired counts
    that [get_cache_stats] reports beforehand. *)
Theorem cleanup_expired_cache_exact (c : clock) (d : db) :
  let r := cleanup_expired_cache c d in
  let before := (get_cache_stats c d).1 in
  (∀ (k : string) (row : weather_row),
     weather_cache r.2 !! k = Some row
     ↔ weather_cache d !! k = Some row ∧ db_now c < expires_at row)
  ∧ (∀ (k : alert_key) (row : alert_row),
       alerts r.2 !! k = Some row
       ↔ alerts d !! k = Some row ∧ db_now c < alert_expires_at row)
  ∧ r.1 = expired_weather_count before + expired_alerts_count before
  ∧ r.1 = Z.of_nat (size (weather_cache d)) + Z.of_nat (size (alerts d))
          - Z.of_nat (size (weather_cache r.2)) - Z.of_nat (size (alerts r.2)).
Proof.
  cbn zeta. split; [|split; [|split]].
  - intros k row. rewrite cleanup_weather_lookup.
    destruct (weather_cache d !! k) as [row'|]; [|naive_solver].
    case_bool_decide; naive_solver.
  - intros k row. rewrite cleanup_alerts_lookup.
    destruct (alerts d !! k) as [row'|]; [|naive_solver].
    case_bool_decide; naive_solver.
  - done.
  - rewrite cleanup_expired_cache_spec. cbn [fst snd weather_cache alerts].
    rewrite (delete_where_partition
               (λ (_ : string) (row : weather_row),
                  bool_decide (expires_at row ≤ db_now c)) (weather_cache d)).
    rewrite (delete_where_partition
               (λ (_ : alert_key) (row : alert_row),
                  bool_decide (alert_expires_at row ≤ db_now c)) (alerts d)).
    lia.
Qed.

(** X6.  No read notices a clean-up: at the time of the clean-up or later, the
    single reads of both tables return the same after it as without it. *)
Theorem cleanup_expired_cache_unobservable {json : Json} (c c' : clock)
    (d : db) :
  db_now c ≤ db_now c' →
  let d' := (cleanup_expired_cache c d).2 in
  (∀ k, (get_raw_weather_cache k c' d').1 = (get_raw_weather_cache k c' d).1)
  ∧ (∀ p dist h, (get_alert p dist h c' d').1 = (get_alert p dist h c' d).1)
  ∧ (∀ keys,
       (get_raw_weather_cache_batch keys c' d').1
       = (get_raw_weather_cache_batch keys c' d).1)
  ∧ (∀ h, (get_all_alerts h c' d').1 = (get_all_alerts h c' d).1).
Proof.
  intros Hlater. cbn zeta.
  assert (∀ k, (get_raw_weather_cache k c' (cleanup_expired_cache c d).2).1
               = (get_raw_weather_cache k c' d).1) as Hraw.
  { intros k. rewrite !get_raw_weather_cache_spec. cbn [fst].
    rewrite cleanup_weather_lookup.
    destruct (weather_cache d !! k) as [row|]; [|done].
    case_bool_decide; [done|]. rewrite bool_decide_eq_false_2 by lia. done. }
  assert (∀ p dist h, (get_alert p dist h c' (cleanup_expired_cache c d).2).1
                      = (get_alert p dist h c' d).1) as Halert.
  { intros p dist h. rewrite !get_alert_spec. cbn [fst].
    rewrite cleanup_alerts_lookup.
    destruct (alerts d !! (p, dist, h)) as [row|]; [|done].
    case_bool_decide; [done|]. rewrite bool_decide_eq_false_2 by lia. done. }
  split; [done|]. split; [done|]. split.
  - intros keys. apply map_eq. intros k.
    rewrite !get_raw_weather_cache_batch_pointwise. case_decide; [|done].
    apply Hraw.
  - intros h. apply nested_map_eq; try apply get_all_alerts_inner.
    intros p dist. rewrite !get_all_alerts_lookup. apply Halert.
Qed.

(** X7.  After a clean-up no expired row is left and no live row is missing, and
    a second clean-up at the same time finds nothing to do; before and
    after, the live and the expired counts of a table add up to its size. *)
Theorem get_cache_stats_and_cleanup (c : clock) (d : db) :
  let before := (get_cache_stats c d).1 in
  let d' := (cleanup_expired_cache c d).2 in
  let after := (get_cache_stats c d').1 in
  weather_cache_count before + expired_weather_count before
  = Z.of_nat (size (weather_cache d))
  ∧ alerts_count before + expired_alerts_count before
    = Z.of_nat (size (alerts d))
  ∧ expired_weather_count after = 0
  ∧ expired_alerts_count after = 0
  ∧ weather_cache_count after = weather_cache_count before
  ∧ alerts_count after = alerts_count before
  ∧ cleanup_expired_cache c d' = (0, d').
Proof.
  cbn zeta.
  assert (∀ t : gmap string weather_row,
            count_where (λ _ row, bool_decide (db_now c < expires_at row)) t
            + count_where (λ _ row, bool_decide (expires_at row ≤ db_now c)) t
            = Z.of_nat (size t)) as Hw.
  { intros t. apply count_where_complement. intros k row.
    repeat case_bool_decide; done || lia. }
  assert (∀ t : gmap alert_key alert_row,
            count_where (λ _ row, bool_decide (db_now c < alert_expires_at row)) t
            + count_where
                (λ _ row, bool_decide (alert_expires_at row ≤ db_now c)) t
            = Z.of_nat (size t)) as Ha.
  { intros t. apply count_where_complement. intros k row.
    repeat case_bool_decide; done || lia. }
  assert (∀ k row, weather_cache (cleanup_expired_cache c d).2 !! k = Some row →
                   bool_decide (expires_at row ≤ db_now c) = false) as Hwl.
  { intros k row. rewrite cleanup_weather_lookup.
    destruct (weather_cache d !! k) as [row'|]; [|done].
    case_bool_decide; [|done]. intros [= ->].
    apply bool_decide_eq_false_2. lia. }
  assert (∀ k row, alerts (cleanup_expired_cache c d).2 !! k = Some row →
                   bool_decide (alert_expires_at row ≤ db_now c) = false) as Hal.
  { intros k row. rewrite cleanup_alerts_lookup.
    destruct (alerts d !! k) as [row'|]; [|done].
    case_bool_decide; [|done]. intros [= ->].
    apply bool_decide_eq_false_2. lia. }
  pose proof (count_where_none _ _ Hwl) as Hw0.
  pose proof (count_where_none _ _ Hal) as Ha0.
  pose proof (Hw (weather_cache d)) as Hw1.
  pose proof (Hw (weather_cache (cleanup_expired_cache c d).2)) as Hw2.
  pose proof (Ha (alerts d)) as Ha1.
  pose proof (Ha (alerts (cleanup_expired_cache c d).2)) as Ha2.
  pose proof (delete_where_partition
                (λ (_ : string) (row : weather_row),
                   bool_decide (expires_at row ≤ db_now c)) (weather_cache d))
    as Hwp.
  pose proof (delete_where_partition
                (λ (_ : alert_key) (row : alert_row),
                   bool_decide (alert_expires_at row ≤ db_now c)) (alerts d))
    as Hap.
  split; [exact Hw1|]. split; [exact Ha1|].
  split; [exact Hw0|]. split; [exact Ha0|].
  unfold get_cache_stats, get_db_connection.
  cbn [or_return fst weather_cache_count alerts_count].
  split; [|split].
  - rewrite Hw0 in Hw2. rewrite cleanup_expired_cache_spec in Hw2 |- *.
    cbn [snd weather_cache] in *. rewrite delete_where_rowcount in Hwp.
    unfold count_where in *. lia.
  - rewrite Ha0 in Ha2. rewrite cleanup_expired_cache_spec in Ha2 |- *.
    cbn [snd alerts] in *. rewrite delete_where_rowcount in Hap.
    unfold count_where in *. lia.
  - rewrite (cleanup_expired_cache_spec c (cleanup_expired_cache c d).2).
    rewrite (delete_where_none _ _ Hwl), (delete_where_none _ _ Hal).
    cbn [fst snd]. by destruct (cleanup_expired_cache c d).2.
Qed.

(** ** Purge: what it counts and which cached frames it removes *)









Lemma purge_loop_weather_lookup (province : string) (forecast_days : Z)
    (districts : list string) (acc : Z * db) (k : string) :
  weather_cache (foldl (purge_district province forecast_days) acc districts).2
    !! k
  = if decide
         (Exists
            (λ district,
               k = forecast_key province district forecast_days
               ∨ k = alerts_cache_key province forecast_days district)
            districts)
    then None else weather_cache acc.2 !! k.
Proof.
  revert acc. induction districts as [|district districts IH]; intros [count d].
  { cbn. rewrite decide_False; [done|]. by intros ?%Exists_nil. }
  cbn [foldl]. rewrite IH, purge_district_spec. cbn [snd weather_cache].
  rewrite delete_where_lookup.
  destruct (decide (Exists _ districts)) as [Hlater|Hlater].
  { rewrite decide_True; [done|]. by apply Exists_cons_tl. }
  destruct (decide (k = forecast_key province district forecast_days
                    ∨ k = alerts_cache_key province forecast_days district))
    as [Hhere|Hhere].
  - rewrite decide_True by (by apply Exists_cons_hd).
    destruct (weather_cache d !! k); [|done].
    destruct Hhere as [->| ->].
    + by rewrite bool_decide_eq_true_2.
    + rewrite (bool_decide_eq_true_2 (_ = alerts_cache_key _ _ _)) by done.
      by rewrite orb_true_r.
  - rewrite decide_False by (intros [?|?]%Exists_cons; done).
    destruct (weather_cache d !! k); [|done].
    rewrite !bool_decide_eq_false_2; naive_solver.
Qed.

Lemma purge_loop_count (province : string) (forecast_days : Z)
    (districts : list string) (count : Z) (d : db) :
  let r := foldl (purge_district province forecast_days) (count, d) districts in
  r.1 = count + Z.of_nat (size (alerts d)) - Z.of_nat (size (alerts r.2)).
Proof.
  revert count d. induction districts as [|district districts IH];
    intros count d; cbn zeta.
  { cbn. lia. }
  cbn [foldl]. rewrite purge_district_spec. rewrite IH. cbn [alerts].
  destruct (alerts d !! (province, district, forecast_days)) as [row|] eqn:Hrow.
  - pose proof (map_size_delete_Some (province, district, forecast_days)
                  (alerts d) (mk_is_Some _ _ Hrow)) as Hsize.
    assert (size (alerts d) ≠ 0%nat) as Hpos.
    { intros Hz. apply map_size_empty_inv in Hz. by rewrite Hz in Hrow. }
    lia.
  - rewrite (delete_id _ _ Hrow). lia.
Qed.

Lemma db_eq (d1 d2 : db) :
  weather_cache d1 = weather_cache d2 → alerts d1 = alerts d2 → d1 = d2.
Proof. destruct d1, d2. cbn. by intros -> ->. Qed.

(** X8.  Whatever the district list, the number that [purge_cache_db] returns is
    the number of alert rows it has removed (rows removed from the weather
    cache are not counted), and a second purge of the same scope removes
    nothing and returns 0. *)
Theorem purge_cache_db_count (province : string) (districts : list string)
    (forecast_days : Z) (d : db) :
  let r := purge_cache_db province districts forecast_days d in
  r.1 = Z.of_nat (size (alerts d)) - Z.of_nat (size (alerts r.2))
  ∧ 0 ≤ r.1 ≤ Z.of_nat (size (alerts d))
  ∧ purge_cache_db province districts forecast_days r.2 = (0, r.2).
Proof.
  cbn zeta.
  assert ((purge_cache_db province districts forecast_days d).1
          = Z.of_nat (size (alerts d))
            - Z.of_nat
                (size (alerts (purge_cache_db province districts forecast_days d).2)))
    as Hcount.
  { destruct districts as [|district districts].
    - rewrite purge_cache_db_nil. cbn [fst snd alerts].
      rewrite (delete_where_partition
                 (purge_all_predicate province forecast_days) (alerts d)). lia.
    - rewrite purge_cache_db_cons.
      pose proof (purge_loop_count province forecast_days
                    (district :: districts) 0 d) as Hloop.
      cbn zeta in Hloop. lia. }
  assert (size (alerts (purge_cache_db province districts forecast_days d).2)
          ≤ size (alerts d))%nat as Hle.
  { destruct districts as [|district districts].
    - rewrite purge_cache_db_nil. cbn [snd alerts]. apply map_size_filter.
    - apply map_subseteq_size, map_subseteq_spec. intros k row.
      rewrite purge_cache_db_cons, purge_loop_alerts. cbn [snd].
      by case_decide. }
  split; [done|]. split; [lia|].
  destruct districts as [|district districts].
  - assert (∀ k row,
              alerts (purge_cache_db province [] forecast_days d).2 !! k
              = Some row →
              purge_all_predicate province forecast_days k row = false) as Ha.
    { intros k row. rewrite purge_cache_db_nil. cbn [snd alerts].
      rewrite delete_where_lookup. destruct (alerts d !! k) as [row'|]; [|done].
      destruct (purge_all_predicate _ _ _ _) eqn:Hp; [done|].
      intros [= <-]. unfold purge_all_predicate in *. done. }
    assert (∀ k row,
              weather_cache (purge_cache_db province [] forecast_days d).2 !! k
              = Some row →
              like (forecast_pattern province forecast_days) k
              || like (alerts_pattern province forecast_days) k = false) as Hw.
    { intros k row. rewrite purge_cache_db_nil. cbn [snd weather_cache].
      rewrite delete_where_lookup.
      destruct (weather_cache d !! k) as [row'|]; [|done].
      by destruct (_ || _) eqn:Hp. }
    rewrite (purge_cache_db_nil _ _ (purge_cache_db _ _ _ _).2).
    rewrite (delete_where_none _ _ Ha), (delete_where_none _ _ Hw).
    cbn [fst snd]. by destruct (purge_cache_db _ _ _ _).2.
  - set (ds := district :: districts) in *.
    assert ((purge_cache_db province ds forecast_days
               (purge_cache_db province ds forecast_days d).2).2
            = (purge_cache_db province ds forecast_days d).2) as Hsame.
    { apply db_eq.
      - apply map_eq. intros k. unfold ds.
        rewrite !purge_cache_db_cons, purge_loop_weather_lookup. cbn [snd].
        rewrite purge_loop_weather_lookup. cbn [snd]. by case_decide.
      - apply map_eq. intros k. unfold ds.
        rewrite !purge_cache_db_cons, purge_loop_alerts. cbn [snd].
        rewrite purge_loop_alerts. cbn [snd]. by case_decide. }
    apply injective_projections; cbn [fst snd]; [|done].
    assert ((purge_cache_db province ds forecast_days
               (purge_cache_db province ds forecast_days d).2).1
            = Z.of_nat (size (alerts (purge_cache_db province ds forecast_days d).2))
              - Z.of_nat
                  (size (alerts
                           (purge_cache_db province ds forecast_days
                              (purge_cache_db province ds forecast_days d).2).2)))
      as ->.
    { unfold ds. rewrite (purge_cache_db_cons _ _ _ _ (purge_cache_db _ _ _ _).2).
      pose proof (purge_loop_count province forecast_days
                    (district :: districts) 0
                    (purge_cache_db province (district :: districts)
                       forecast_days d).2) as Hloop.
      cbn zeta in Hloop. lia. }
    rewrite Hsame. lia.
Qed.



(** ** Bulk fetch: what it leaves in the database *)

Lemma append_inv_head (a x y : string) : a +:+ x = a +:+ y → x = y.
Proof.
  induction a as [|ch a IH]; [done|].
  change (String ch (a +:+ x) = String ch (a +:+ y) → x = y).
  intros [= Heq]. by apply IH.
Qed.

Lemma weather_key_inj (forecast_days : Z) (province s1 s2 : string) :
  weather_key forecast_days province s1 = weather_key forecast_days province s2 →
  s1 = s2.
Proof.
  unfold weather_key. intros Heq.
  do 5 apply append_inv_head in Heq. done.
Qed.

Section bulk_database.
Context {json : Json} {config : Config} {validation : Validation}.
Context {geo : Geo} {upstream : Upstream} {executor : Executor}.
Variables (province : string) (forecast_days : Z) (c : clock).

Lemma store_step_alerts (acc : gmap string payload * db) (r : fetched) :
  alerts (store_step c acc r).2 = alerts acc.2.
Proof.
  unfold store_step. destruct (fetched_data r) as [v|]; [|done].
  by destruct (truthy v).
Qed.

Lemma store_step_weather (acc : gmap string payload * db) (r : fetched)
    (k : string) :
  weather_cache (store_step c acc r).2 !! k
  = if decide (succeeded r = true ∧ fetched_key r = k)
    then written_row c <$> fetched_data r
    else weather_cache acc.2 !! k.
Proof.
  unfold store_step, succeeded. destruct (fetched_data r) as [v|].
  - destruct (truthy v).
    + rewrite set_raw_weather_cache_spec. cbn [snd weather_cache fmap option_fmap option_map].
      rewrite lookup_insert. repeat case_decide; naive_solver.
    + rewrite decide_False; [done|]. naive_solver.
  - rewrite decide_False; [done|]. naive_solver.
Qed.

Lemma store_loop_alerts (rs : list fetched) (acc : gmap string payload * db) :
  alerts (foldl (store_step c) acc rs).2 = alerts acc.2.
Proof.
  revert acc. induction rs as [|r rs IH]; intros acc; [done|].
  cbn [foldl]. by rewrite IH, store_step_alerts.
Qed.

Lemma store_loop_weather_other (rs : list fetched)
    (acc : gmap string payload * db) (k : string) :
  k ∉ fetched_key <$> rs →
  weather_cache (foldl (store_step c) acc rs).2 !! k = weather_cache acc.2 !! k.
Proof.
  revert acc. induction rs as [|r rs IH]; intros acc Hk; [done|].
  cbn [foldl]. rewrite fmap_cons, not_elem_of_cons in Hk.
  destruct Hk as [Hne Hk]. rewrite IH by done.
  rewrite store_step_weather. rewrite decide_False; [done|]. naive_solver.
Qed.

Lemma store_loop_weather_one (rs : list fetched)
    (acc : gmap string payload * db) (r : fetched) :
  NoDup (fetched_key <$> rs) →
  r ∈ rs →
  weather_cache (foldl (store_step c) acc rs).2 !! fetched_key r
  = if succeeded r then written_row c <$> fetched_data r
    else weather_cache acc.2 !! fetched_key r.
Proof.
  revert acc. induction rs as [|r' rs IH]; intros acc Hnd Hin.
  { by apply elem_of_nil in Hin. }
  cbn [foldl]. rewrite fmap_cons in Hnd. apply NoDup_cons in Hnd as [Hfresh Hnd].
  apply elem_of_cons in Hin as [<-|Hin].
  - rewrite store_loop_weather_other by done. rewrite store_step_weather.
    destruct (succeeded r).
    + by rewrite decide_True.
    + rewrite decide_False; [done|]. naive_solver.
  - rewrite IH by done. destruct (succeeded r); [done|].
    rewrite store_step_weather. rewrite decide_False; [done|].
    intros [_ Heq]. apply Hfresh. rewrite Heq. by apply list_elem_of_fmap_2.
Qed.

Lemma store_loop_weather_kept (rs : list fetched)
    (acc : gmap string payload * db) (k : string) :
  is_Some (weather_cache acc.2 !! k) →
  is_Some (weather_cache (foldl (store_step c) acc rs).2 !! k).
Proof.
  revert acc. induction rs as [|r rs IH]; intros acc Hk; [done|].
  cbn [foldl]. apply IH. rewrite store_step_weather. case_decide as Hr; [|done].
  destruct Hr as [Hok _]. unfold succeeded in Hok.
  destruct (fetched_data r); [by eexists|done].
Qed.

Lemma fetched_key_fetch (i : district_info) :
  fetched_key (fetch_single_district forecast_days i) = info_key i.
Proof.
  unfold fetch_single_district.
  destruct (session_get _ _ _ _) as [code body|msg]; [|done].
  case_bool_decide; [|done]. by destruct (loads body).
Qed.

Section one_call_database.
Variables (districts : gmap string (coord * coord)) (cache_time : option Z).
Variable d : db.

Abbreviation ttl := (default CACHE_TIME cache_time).
Abbreviation key_of :=
  (λ n : string, weather_key forecast_days province (sanitize_filename n)).
Abbreviation run :=
  (get_bulk_weather_data province districts forecast_days cache_time c d).
Abbreviation missed :=
  (filter (λ it, fresh_entry province forecast_days ttl c d it.1 = None)
     (map_to_list districts)).

Lemma bulk_db_unfold :
  ∃ rs cached,
    rs ≡ₚ fetch_single_district forecast_days
          <$> (info_of province forecast_days <$> missed)
    ∧ bulk_db run = (foldl (store_step c) (cached, d) rs).2.
Proof.
  unfold get_bulk_weather_data.
  destruct (lookup_loop_spec province forecast_days ttl c
              (map_to_list districts) (LookupState [] ∅ d))
    as (Hstore & Hqueue & _).
  cbn [uncached store app] in Hstore, Hqueue.
  destruct (uncached _) as [|i is'] eqn:Hq.
  - exists [], ∅. split; [|by rewrite Hstore]. by rewrite <-Hqueue.
  - exists (as_completed (fetch_single_district forecast_days <$> i :: is')).
    exists (cached_data
              (foldl (lookup_step province forecast_days ttl c)
                 (LookupState [] ∅ d) (map_to_list districts))).
    split.
    + rewrite as_completed_perm. by rewrite Hqueue.
    + rewrite Hstore. by destruct (foldl (store_step c) _ _).
Qed.

Lemma future_keys (rs : list fetched) :
  rs ≡ₚ fetch_single_district forecast_days
        <$> (info_of province forecast_days <$> missed) →
  fetched_key <$> rs ≡ₚ key_of <$> missed.*1.
Proof.
  intros ->. rewrite <-!list_fmap_compose.
  erewrite list_fmap_ext; [done|]. intros _ it _. cbn.
  by rewrite fetched_key_fetch.
Qed.

Lemma bulk_db_weather_other (k : string) :
  (∀ n, is_Some (districts !! n) →
        fresh_entry province forecast_days ttl c d n = None →
        k ≠ key_of n) →
  weather_cache (bulk_db run) !! k = weather_cache d !! k.
Proof.
  destruct bulk_db_unfold as (rs & cached & Hrs & ->).
  intros Hk. rewrite store_loop_weather_other; [done|].
  rewrite (future_keys rs Hrs). intros Hin.
  apply list_elem_of_fmap in Hin as (n & -> & Hn).
  apply list_elem_of_fmap in Hn as ([n' xy] & -> & Hit).
  apply list_elem_of_filter in Hit as [Hmiss Hit]. cbn in Hmiss.
  apply elem_of_map_to_list in Hit. by eapply (Hk n'); [eexists|..].
Qed.

(** X11.  [get_bulk_weather_data] never touches the alerts table, never removes a
    row of the weather cache, and leaves alone every key of the weather
    cache that is not the key of a requested district without a fresh
    entry. *)
Theorem get_bulk_weather_data_frame :
  alerts (bulk_db run) = alerts d
  ∧ (∀ k, is_Some (weather_cache d !! k) →
          is_Some (weather_cache (bulk_db run) !! k))
  ∧ (∀ k,
       (∀ n, is_Some (districts !! n) →
             fresh_entry province forecast_days ttl c d n = None →
             k ≠ key_of n) →
       weather_cache (bulk_db run) !! k = weather_cache d !! k).
Proof.
  split; [|split; [|apply bulk_db_weather_other]].
  - destruct bulk_db_unfold as (rs & cached & Hrs & ->).
    apply store_loop_alerts.
  - destruct bulk_db_unfold as (rs & cached & Hrs & ->).
    intros k. apply (store_loop_weather_kept rs (cached, d)).
Qed.
End one_call_database.
End bulk_database.

(** ** Bulk fetch: reading back what it has cached *)

Section bulk_read_back.
Context {json : Json} {config : Config} {validation : Validation}.
Context {geo : Geo} {upstream : Upstream} {executor : Executor}.
Variables (province : string) (districts : gmap string (coord * coord)).
Variables (forecast_days : Z) (cache_time : option Z) (c : clock) (d : db).

Abbreviation ttl_of := (default CACHE_TIME cache_time).
Abbreviation fresh_of := (fresh_entry province forecast_days ttl_of c).
Abbreviation cache_key_of n :=
  (weather_key forecast_days province (sanitize_filename n)).
Abbreviation first_run :=
  (get_bulk_weather_data province districts forecast_days cache_time c d).
Abbreviation fetch_of n xy :=
  (fetch_single_district forecast_days (info_of province forecast_days (n, xy))).

(** No two requested districts share a cache key. *)
Hypothesis keys_apart :
  ∀ n1 n2, is_Some (districts !! n1) → is_Some (districts !! n2) →
           sanitize_filename n1 = sanitize_filename n2 → n1 = n2.

Lemma bulk_db_hit_row (n : string) (v : payload) :
  is_Some (districts !! n) →
  fresh_of d n = Some v →
  weather_cache (bulk_db first_run) !! cache_key_of n
  = weather_cache d !! cache_key_of n.
Proof.
  intros Hn Hfresh.
  apply bulk_db_weather_other. intros n' Hn' Hmiss Hkey.
  apply weather_key_inj in Hkey. apply keys_apart in Hkey; [|done..].
  subst n'. congruence.
Qed.

Lemma bulk_db_miss_row (n : string) (xy : coord * coord) :
  districts !! n = Some xy →
  fresh_of d n = None →
  weather_cache (bulk_db first_run) !! cache_key_of n
  = if succeeded (fetch_of n xy)
    then written_row c <$> fetched_data (fetch_of n xy)
    else weather_cache d !! cache_key_of n.
Proof.
  intros Hn Hmiss.
  destruct (bulk_db_unfold province forecast_days c districts cache_time d)
    as (rs & cached & Hrs & ->).
  pose proof (store_loop_weather_one c rs (cached, d) (fetch_of n xy)) as Hone.
  rewrite fetched_key_fetch in Hone. cbn [info_of info_key fst] in Hone.
  apply Hone.
  - rewrite (future_keys province forecast_days c districts cache_time d rs Hrs).
    apply NoDup_fmap_2_strong.
    + intros n1 n2 Hn1 Hn2 Hkey.
      apply list_elem_of_fmap in Hn1 as ([? xy1] & -> & Hit1).
      apply list_elem_of_fmap in Hn2 as ([? xy2] & -> & Hit2).
      apply list_elem_of_filter in Hit1 as [_ Hit1].
      apply list_elem_of_filter in Hit2 as [_ Hit2].
      apply elem_of_map_to_list in Hit1, Hit2. cbn in *.
      apply weather_key_inj in Hkey. apply keys_apart; [by eexists|by eexists|done].
    + apply (sublist_NoDup _ (map_to_list districts).*1);
        [apply NoDup_fst_map_to_list|].
      apply fmap_sublist, sublist_filter.
  - rewrite Hrs. apply list_elem_of_fmap_2, list_elem_of_fmap_2.
    apply list_elem_of_filter. split; [done|]. by apply elem_of_map_to_list.
Qed.

(** Where the document of a district in the result of the call comes from,
    and the row it has in the weather cache after the call. *)
Lemma bulk_result_row (n : string) (v : payload) :
  (∀ v', loads (dumps v') = Some v') →
  bulk_result first_run !! n = Some v →
  is_Some (districts !! n)
  ∧ ∃ row, weather_cache (bulk_db first_run) !! cache_key_of n = Some row
           ∧ loads (data row) = Some v
           ∧ ((fresh_of d n = Some v
               ∧ db_now c < expires_at row
               ∧ py_now c - created_at row < ttl_of * second)
              ∨ (fresh_of d n = None ∧ row = written_row c v)).
Proof.
  intros Hjson. rewrite (bulk_result_lookup _ _ ttl_of) by done.
  destruct (districts !! n) as [xy|] eqn:Hn; [|done].
  destruct (fresh_of d n) as [v'|] eqn:Hfresh.
  - intros [= ->]. split; [by eexists|].
    rewrite (bulk_db_hit_row n v); [|by eexists|done].
    unfold fresh_entry in Hfresh.
    destruct (weather_cache d !! cache_key_of n) as [row|]; [|done].
    exists row. split; [done|].
    case_bool_decide as Hlive; [|done].
    destruct (loads (data row)) as [v0|]; [|done].
    case_bool_decide as Hage; [|done]. injection Hfresh as ->.
    split; [done|]. by left.
  - cbn zeta. intros Hok. split; [by eexists|].
    rewrite (bulk_db_miss_row n xy) by done.
    destruct (succeeded (fetch_of n xy)); [|done]. rewrite Hok. cbn.
    exists (written_row c v). split; [done|]. split; [apply Hjson|].
    right. done.
Qed.

(** X12.  What [get_bulk_weather_data] returns for a district is what
    [get_weather_forecast] reads for that district afterwards: the cached
    document of a hit and the written-back document of a fetch.  The cache
    lifetime is positive and the process clock is not behind the database
    clock, so that a row written now is live now. *)
Theorem get_weather_forecast_after_bulk (n : string) (v : payload) :
  (∀ v', loads (dumps v') = Some v') →
  0 < CACHE_TIME →
  db_now c ≤ py_now c →
  bulk_result first_run !! n = Some v →
  (get_weather_forecast province n forecast_days c (bulk_db first_run)).1
  = Some v.
Proof.
  intros Hjson Httl Hclocks Hres.
  destruct (bulk_result_row n v Hjson Hres) as (_ & row & Hrow & Hloads & Hcase).
  unfold get_weather_forecast. rewrite get_raw_weather_cache_spec, Hrow.
  rewrite bool_decide_eq_true_2; [by rewrite Hloads|].
  destruct Hcase as [(_ & Hlive & _)|[_ ->]]; [done|].
  cbn [written_row expires_at].
  pose proof (replace_microsecond_0_bounds (py_now c)).
  unfold add_seconds, second in *. lia.
Qed.

(** X13.  A second call with the same arguments at the same time, after the first
    has filled the cache, sends no request for any district that the first
    call has answered, and answers it with the same document.  Besides the
    conditions of the read-back, a row written now must count as younger
    than the effective lifetime. *)
Theorem get_bulk_weather_data_twice :
  (∀ v', loads (dumps v') = Some v') →
  0 < CACHE_TIME →
  db_now c ≤ py_now c →
  py_now c - db_now c < ttl_of * second →
  let second_run :=
    get_bulk_weather_data province districts forecast_days cache_time c
      (bulk_db first_run) in
  ∀ n v, bulk_result first_run !! n = Some v →
         (n ∉ info_name <$> bulk_calls second_run)
         ∧ bulk_result second_run !! n = Some v.
Proof.
  intros Hjson Httl Hclocks Hage. cbn zeta. intros n v Hres.
  destruct (bulk_result_row n v Hjson Hres) as (Hn & row & Hrow & Hloads & Hcase).
  assert (fresh_of (bulk_db first_run) n = Some v) as Hfresh.
  { unfold fresh_entry. rewrite Hrow, Hloads.
    destruct Hcase as [(_ & Hlive & Hyoung)|[_ ->]].
    - by rewrite !bool_decide_eq_true_2.
    - cbn [written_row expires_at created_at].
      pose proof (replace_microsecond_0_bounds (py_now c)).
      rewrite !bool_decide_eq_true_2; [done|done|].
      unfold add_seconds, second in *. lia. }
  split.
  - rewrite (bulk_calls_spec _ _ ttl_of) by done.
    rewrite miss_names. intros [_ Hmiss]. congruence.
  - rewrite (bulk_result_lookup _ _ ttl_of) by done.
    destruct Hn as [xy ->]. by rewrite Hfresh.
Qed.
End bulk_read_back.

(** X14.  With [cache_time=0], which is how the routes call it, the bulk fetch
    uses no cached document: a request goes out for every district, and
    the result holds exactly the districts whose fetch succeeded, with the
    fetched document.  This needs that no stored row is stamped later than
    the process clock reads, an age below zero being a hit. *)
Theorem get_bulk_weather_data_forced {json : Json} {config : Config}
    {validation : Validation} {geo : Geo} {upstream : Upstream}
    {executor : Executor} (province : string)
    (districts : gmap string (coord * coord)) (forecast_days : Z) (c : clock)
    (d : db) :
  (∀ k row, weather_cache d !! k = Some row → created_at row ≤ py_now c) →
  let b :=
    get_bulk_weather_data province districts forecast_days (Some 0) c d in
  info_name <$> bulk_calls b = (map_to_list districts).*1
  ∧ ∀ n, bulk_result b !! n
         = match districts !! n with
           | Some xy =>
               let r :=
                 fetch_single_district forecast_days
                   (info_of province forecast_days (n, xy)) in
               if succeeded r then fetched_data r else None
           | None => None
           end.
Proof.
  intros Hpast. cbn zeta.
  assert (∀ n, fresh_entry province forecast_days 0 c d n = None) as Hnone.
  { intros n. unfold fresh_entry.
    destruct (weather_cache d !! _) as [row|] eqn:Hrow; [|done].
    case_bool_decide; [|done]. destruct (loads (data row)); [|done].
    rewrite bool_decide_eq_false_2; [done|].
    specialize (Hpast _ _ Hrow). lia. }
  split.
  - rewrite (bulk_calls_spec _ _ 0) by done.
    rewrite filter_all by (intros; apply Hnone).
    rewrite <-list_fmap_compose. done.
  - intros n. rewrite (bulk_result_lookup _ _ 0) by done.
    destruct (districts !! n); [|done]. by rewrite Hnone.
Qed.

(** ** Background tasks: cleaning up *)

Section cleanup_facts.
Context {V : Type}.
Implicit Types (m : BackgroundTaskManager V) (alive : gset nat).

Lemma is_running_tasks m m' alive (tid : string) :
  tasks m' = tasks m → is_running tid m' alive = is_running tid m alive.
Proof. unfold is_running. by intros ->. Qed.

Lemma cleanup_step_spec alive m (tid : string) :
  let m' := cleanup_step alive m tid in
  tasks m' = tasks m
  ∧ ∀ k, task_results m' !! k
         = (if bool_decide (k = tid) && negb (is_running k m alive)
            then None else task_results m !! k)
         ∧ task_errors m' !! k
           = (if bool_decide (k = tid) && negb (is_running k m alive)
              then None else task_errors m !! k).
Proof.
  cbn zeta. unfold cleanup_step.
  destruct (is_running tid m alive) eqn:Hrun.
  { split; [done|]. intros k. case_bool_decide as Hk; [|done].
    subst k. by rewrite Hrun. }
  cbn [tasks task_results task_errors]. split; [done|]. intros k.
  assert (∀ {A} (t : gmap string A),
            (if bool_decide (tid ∈ dom t) then delete tid t else t) !! k
            = if bool_decide (k = tid) then None else t !! k) as Hdel.
  { intros A t. case_bool_decide as Hin; case_bool_decide as Hk.
    - subst k. apply lookup_delete_eq.
    - by apply lookup_delete_ne.
    - subst k. by apply not_elem_of_dom.
    - done. }
  rewrite !Hdel. case_bool_decide as Hk; [|done]. subst k. by rewrite Hrun.
Qed.

Lemma cleanup_loop_spec alive (l : list string) m :
  let m' := foldl (cleanup_step alive) m l in
  tasks m' = tasks m
  ∧ ∀ k, task_results m' !! k
         = (if bool_decide (k ∈ l) && negb (is_running k m alive)
            then None else task_results m !! k)
         ∧ task_errors m' !! k
           = (if bool_decide (k ∈ l) && negb (is_running k m alive)
              then None else task_errors m !! k).
Proof.
  cbn zeta. revert m. induction l as [|tid l IH]; intros m.
  { split; [done|]. intros k. by rewrite bool_decide_eq_false_2 by set_solver. }
  cbn [foldl].
  destruct (cleanup_step_spec alive m tid) as [Htasks Hstep].
  destruct (IH (cleanup_step alive m tid)) as [Htasks' Hloop].
  split; [congruence|]. intros k.
  destruct (Hloop k) as [-> ->]. destruct (Hstep k) as [-> ->].
  rewrite (is_running_tasks m _ alive k Htasks).
  destruct (is_running k m alive); cbn [negb]; rewrite ?andb_false_r; [done|].
  rewrite !andb_true_r.
  destruct (decide (k = tid)) as [->|Hne].
  - rewrite (bool_decide_eq_true_2 (tid = tid)) by done.
    rewrite (bool_decide_eq_true_2 (tid ∈ tid :: l)) by set_solver.
    by destruct (bool_decide (tid ∈ l)).
  - rewrite (bool_decide_eq_false_2 (k = tid)) by done.
    destruct (decide (k ∈ l)) as [Hin|Hout].
    + rewrite (bool_decide_eq_true_2 (k ∈ l)) by done.
      by rewrite (bool_decide_eq_true_2 (k ∈ tid :: l)) by set_solver.
    + rewrite (bool_decide_eq_false_2 (k ∈ l)) by done.
      by rewrite (bool_decide_eq_false_2 (k ∈ tid :: l)) by set_solver.
Qed.

Lemma cleanup_old_results_lookup m alive :
  let m' := cleanup_old_results m alive in
  tasks m' = tasks m
  ∧ ∀ task_id,
      is_running task_id m' alive = is_running task_id m alive
      ∧ get_result task_id m'
        = (if is_running task_id m alive then get_result task_id m else None)
      ∧ get_error task_id m'
        = (if is_running task_id m alive then get_error task_id m
           else match get_result task_id m with
                | Some _ => None
                | None => get_error task_id m
                end).
Proof.
  cbn zeta. unfold cleanup_old_results, get_result, get_error.
  destruct (cleanup_loop_spec alive (map_to_list (task_results m)).*1 m)
    as [Htasks Hloop].
  split; [done|]. intros k.
  split; [by apply is_running_tasks|].
  destruct (Hloop k) as [-> ->].
  destruct (is_running k m alive); cbn [negb];
    rewrite ?andb_false_r, ?andb_true_r; [done|].
  destruct (task_results m !! k) as [v|] eqn:Hres.
  - rewrite bool_decide_eq_true_2; [done|].
    apply list_elem_of_fmap. exists (k, v). split; [done|].
    by apply elem_of_map_to_list.
  - rewrite bool_decide_eq_false_2; [done|].
    intros ([k' v] & -> & Hin)%list_elem_of_fmap.
    apply elem_of_map_to_list in Hin. cbn in *. congruence.
Qed.

(** X15.  What [cleanup_old_results] leaves behind: the thread table as it was;
    of the results, those of the tasks still running; of the errors, those
    of the tasks still running and those of every identifier that has no
    result.  The error of a task that has only failed is thus never
    cleaned. *)
Theorem cleanup_old_results_exact m alive :
  let m' := cleanup_old_results m alive in
  tasks m' = tasks m
  ∧ ∀ task_id,
      is_running task_id m' alive = is_running task_id m alive
      ∧ get_result task_id m'
        = (if is_running task_id m alive then get_result task_id m else None)
      ∧ get_error task_id m'
        = (if is_running task_id m alive then get_error task_id m
           else match get_result task_id m with
                | Some _ => None
                | None => get_error task_id m
                end).
Proof. apply cleanup_old_results_lookup. Qed.

Section task_runs.
Context {W : Type}.
Implicit Types (func : W → task_outcome V * W) (ev : manager_event V W).

Lemma manager_step_other (task_id : string) m ev :
  of_other_task task_id ev →
  no_cleanup ev ∨ task_results m !! task_id = None →
  tasks (manager_step m ev) !! task_id = tasks m !! task_id
  ∧ task_results (manager_step m ev) !! task_id = task_results m !! task_id
  ∧ task_errors (manager_step m ev) !! task_id = task_errors m !! task_id.
Proof.
  destruct ev as [id t|id func w|alive];
    cbn [of_other_task no_cleanup manager_step]; intros Hother Hok.
  - cbn [run_task fst tasks task_results task_errors].
    by rewrite lookup_insert_ne.
  - rewrite wrapper_spec. cbn [fst snd tasks task_results task_errors].
    rewrite lookup_delete_ne by done. split; [done|].
    split; destruct (func w).1; by rewrite ?lookup_insert_ne.
  - destruct Hok as [[]|Hnone].
    destruct (cleanup_old_results_lookup m alive) as [Htasks Hlook].
    destruct (Hlook task_id) as (_ & Hres & Herr).
    unfold get_result, get_error in Hres, Herr.
    rewrite Htasks, Hres, Herr, Hnone.
    split; [done|]. split; by destruct (is_running _ _ _).
Qed.

Lemma manager_steps_other (task_id : string) (l : list (manager_event V W)) m :
  Forall (of_other_task task_id) l →
  Forall no_cleanup l ∨ task_results m !! task_id = None →
  tasks (foldl manager_step m l) !! task_id = tasks m !! task_id
  ∧ task_results (foldl manager_step m l) !! task_id
    = task_results m !! task_id
  ∧ task_errors (foldl manager_step m l) !! task_id
    = task_errors m !! task_id.
Proof.
  revert m. induction l as [|ev l IH]; intros m Hother Hok; [done|].
  cbn [foldl]. apply Forall_cons in Hother as [Hev Hother].
  destruct (manager_step_other task_id m ev Hev) as (Ht & Hr & He).
  { destruct Hok as [Hquiet|Hnone]; [left|by right].
    by apply Forall_cons in Hquiet as [? _]. }
  destruct (IH (manager_step m ev) Hother) as (Ht' & Hr' & He').
  { destruct Hok as [Hquiet|Hnone]; [left|right; by rewrite Hr].
    by apply Forall_cons in Hquiet as [_ ?]. }
  by rewrite Ht', Hr', He'.
Qed.

Lemma manager_steps_tasks (task_id : string) (l : list (manager_event V W)) m :
  Forall (of_other_task task_id) l →
  tasks (foldl manager_step m l) !! task_id = tasks m !! task_id.
Proof.
  revert m. induction l as [|ev l IH]; intros m Hother; [done|].
  cbn [foldl]. apply Forall_cons in Hother as [Hev Hother].
  rewrite IH by done.
  destruct ev as [id t|id func w|alive]; cbn [of_other_task manager_step] in *.
  - cbn [run_task fst tasks]. by rewrite lookup_insert_ne.
  - rewrite wrapper_spec. cbn [fst snd tasks]. by rewrite lookup_delete_ne.
  - by destruct (cleanup_old_results_lookup m alive) as [-> _].
Qed.

(** C5, as the code has it.  A task is scheduled under an identifier for
    which neither dictionary has an entry, and which no other task uses:
    whatever else happens to the manager, clean-ups included, no other task
    is scheduled or ends under that identifier.  While its unit of work
    runs and its thread is alive, the task is reported as running; once
    the unit of work has ended it is never again reported as running,
    whatever the unit of work did.  When the unit of work raised an
    exception that derives from [Exception], the wrapper returns, the
    error dictionary alone has an entry for the identifier, the message of
    the exception, and this stays so.  When the unit of work returned, the
    wrapper returns, and as long as [cleanup_old_results] is not called the
    result dictionary alone has an entry for the identifier, the value
    returned.  An exception that does not derive from [Exception] is
    recorded nowhere and leaves the wrapper. *)
Theorem wrapper_records_once (task_id : string) func m (w : W) (t : nat)
    (alive : gset nat) (before after : list (manager_event V W)) :
  task_results m !! task_id = None →
  task_errors m !! task_id = None →
  Forall (of_other_task task_id) (before ++ after) →
  let scheduled := run_task task_id t m alive in
  let started := foldl manager_step scheduled.1 before in
  let finished := wrapper task_id func started w in
  let m' := foldl manager_step finished.1.2 after in
  is_running task_id scheduled.1 scheduled.2 = true
  ∧ (∀ alive', t ∈ alive' → is_running task_id started alive' = true)
  ∧ (∀ alive', is_running task_id m' alive' = false)
  ∧ match (func w).1 with
    | Completed v =>
        finished.1.1 = Returned tt
        ∧ (Forall no_cleanup after →
           get_result task_id m' = Some v
           ∧ get_error task_id m' = None
           ∧ exactly_one_recorded task_id m')
    | Failed e =>
        finished.1.1 = Returned tt
        ∧ get_error task_id m' = Some e
        ∧ get_result task_id m' = None
        ∧ exactly_one_recorded task_id m'
    | Aborted e =>
        finished.1.1 = Raised e
        ∧ get_result task_id m' = None
        ∧ get_error task_id m' = None
    end.
Proof.
  intros Hres Herr Hother. cbn zeta.
  apply Forall_app in Hother as [Hbefore Hafter].
  set (m0 := (run_task task_id t m alive).1).
  assert (tasks m0 !! task_id = Some t) as Ht0 by apply lookup_insert_eq.
  destruct (manager_steps_other task_id before m0 Hbefore) as (Ht1 & Hr1 & He1).
  { by right. }
  rewrite Ht0 in Ht1.
  change (task_results m0) with (task_results m) in Hr1.
  change (task_errors m0) with (task_errors m) in He1.
  rewrite Hres in Hr1. rewrite Herr in He1.
  set (m1 := foldl manager_step m0 before) in *.
  pose proof (wrapper_spec task_id func m1 w) as Hend.
  set (ended := wrapper task_id func m1 w) in *.
  pose proof (manager_steps_tasks task_id after ended.1.2 Hafter) as Ht2.
  pose proof (manager_steps_other task_id after ended.1.2 Hafter) as Hkept.
  unfold is_running, get_result, get_error, exactly_one_recorded.
  rewrite Ht0, Ht1, Ht2.
  rewrite Hend in Hkept |- *.
  cbn [run_task fst snd tasks task_results task_errors] in Hkept |- *.
  rewrite lookup_delete_eq.
  split; [apply bool_decide_eq_true; set_solver|].
  split; [intros alive' Hin; by apply bool_decide_eq_true|].
  split; [done|].
  destruct (func w).1 as [v|e|e]; (split; [done|]).
  - intros Hquiet. destruct Hkept as (_ & -> & ->); [by left|].
    rewrite lookup_insert_eq, He1.
    split; [done|]. split; [done|]. left. split; [by eexists|done].
  - destruct Hkept as (_ & -> & ->); [by right|].
    rewrite lookup_insert_eq, Hr1.
    split; [done|]. split; [done|]. right. split; [done|by eexists].
  - destruct Hkept as (_ & -> & ->); [by right|]. by rewrite Hr1, He1.
Qed.

(** X16.  A task whose unit of work raised an exception that derives from
    [Exception] keeps its error message through everything that happens
    to the manager later, every [cleanup_old_results] included, whatever
    threads are alive: the task was scheduled under an identifier without
    a result, and no other task is scheduled or ends under that
    identifier. *)
Theorem failed_task_error_survives_cleanup (task_id : string) func m (w : W)
    (t : nat) (alive : gset nat) (e : string)
    (before after : list (manager_event V W)) :
  task_results m !! task_id = None →
  (func w).1 = Failed e →
  Forall (of_other_task task_id) (before ++ after) →
  let started :=
    foldl manager_step (run_task task_id t m alive).1 before in
  let m' := foldl manager_step (wrapper task_id func started w).1.2 after in
  (∀ alive', is_running task_id m' alive' = false)
  ∧ get_result task_id m' = None
  ∧ get_error task_id m' = Some e.
Proof.
  intros Hres Hfailed Hother. cbn zeta.
  apply Forall_app in Hother as [Hbefore Hafter].
  set (m0 := (run_task task_id t m alive).1).
  destruct (manager_steps_other task_id before m0 Hbefore) as (_ & Hr1 & _).
  { by right. }
  change (task_results m0) with (task_results m) in Hr1. rewrite Hres in Hr1.
  set (m1 := foldl manager_step m0 before) in *.
  pose proof (wrapper_spec task_id func m1 w) as Hend.
  rewrite Hfailed in Hend.
  set (ended := wrapper task_id func m1 w) in *.
  destruct (manager_steps_other task_id after ended.1.2 Hafter)
    as (Ht2 & Hr2 & He2).
  { right. by rewrite Hend. }
  unfold is_running, get_result, get_error.
  rewrite Ht2, Hr2, He2, Hend. cbn [fst snd tasks task_results task_errors].
  by rewrite lookup_delete_eq, lookup_insert_eq.
Qed.

(** X17.  Two tasks scheduled under one identifier share the slot of the thread
    table: when the unit of work of the first ends, the second is no longer
    reported as running, although its thread is alive. *)
Theorem is_running_lost_on_shared_id (task_id : string) func m (w : W)
    (t t' : nat) alive :
  let first := run_task task_id t m alive in
  let second := run_task task_id t' first.1 first.2 in
  let m' := (wrapper task_id func second.1 w).1.2 in
  is_running task_id second.1 second.2 = true
  ∧ t' ∈ second.2
  ∧ is_running task_id m' second.2 = false.
Proof.
  cbn zeta. rewrite wrapper_spec. unfold is_running.
  cbn [fst snd run_task tasks]. rewrite lookup_insert_eq, lookup_delete_eq.
  split; [apply bool_decide_eq_true; set_solver|]. split; [set_solver|done].
Qed.
End task_runs.
End cleanup_facts.

(** The three ways in which a task can end otherwise.  Two tasks are
    scheduled under one identifier before either ends, each at a time when
    neither dictionary has an entry for it; one raises and one returns, and
    both dictionaries have an entry.  A unit of work calls [sys.exit()]:
    [SystemExit] is not caught, it leaves the wrapper and neither
    dictionary has an entry.  A task returns and [cleanup_old_results] is
    called: its result is gone. *)
Lemma wrapper_records_once_needs_conditions :
  let failing : unit → task_outcome Z * unit := λ w, (Failed "boom", w) in
  let returning : unit → task_outcome Z * unit := λ w, (Completed 7, w) in
  let exiting : unit → task_outcome Z * unit :=
    λ w, (Aborted "SystemExit", w) in
  (let first := run_task "t" 1%nat new_manager ∅ in
   let second := run_task "t" 2%nat first.1 first.2 in
   let m1 := (wrapper "t" failing second.1 tt).1.2 in
   let m2 := (wrapper "t" returning m1 tt).1.2 in
   (get_result "t" first.1 = None ∧ get_error "t" first.1 = None)
   ∧ get_result "t" m2 = Some 7
   ∧ get_error "t" m2 = Some "boom"
   ∧ ¬ exactly_one_recorded "t" m2)
  ∧ (let ended := wrapper "t" exiting (run_task "t" 1%nat new_manager ∅).1 tt in
     ended.1.1 = Raised "SystemExit"
     ∧ get_error "t" ended.1.2 = None
     ∧ ¬ exactly_one_recorded "t" ended.1.2)
  ∧ (let m1 :=
       (wrapper "t" returning (run_task "t" 1%nat new_manager ∅).1 tt).1.2 in
     get_result "t" m1 = Some 7
     ∧ get_result "t" (cleanup_old_results m1 ∅) = None).
Proof.
  cbn zeta. unfold exactly_one_recorded, get_result, get_error.
  split; [|split].
  - rewrite !wrapper_spec.
    cbn [fst snd run_task new_manager tasks task_results task_errors].
    rewrite !lookup_insert_eq. split; [done|]. split; [done|].
    split; [done|]. intros [[_ [=]]|[[=] _]].
  - rewrite !wrapper_spec.
    cbn [fst snd run_task new_manager tasks task_results task_errors].
    split; [done|]. split; [done|]. intros [[[v [=]] _]|[_ [e [=]]]].
  - split; vm_compute; reflexivity.
Qed.

(** ** Frames and their cache *)

Section frame_facts.
Context {json : Json} {config : Config} {pandas : Pandas}.
Context {fields : DailyFields}.

Lemma get_weather_cache_spec (k : string) (c : clock) (d : db) :
  get_weather_cache k c d
  = match weather_cache d !! k with
    | Some row =>
        if bool_decide (db_now c < expires_at row)
        then match loads (data row) ≫= from_records with
             | Some df => (Some df, d)
             | None => (None, with_weather_cache (delete k) d)
             end
        else (None, d)
    | None => (None, d)
    end.
Proof.
  unfold get_weather_cache, get_db_connection, fetchone_live.
  destruct (weather_cache d !! k) as [row|]; [|done].
  case_bool_decide; [|done]. by destruct (loads (data row) ≫= from_records).
Qed.

Lemma get_weather_cache_frame (k : string) (c : clock) (d : db) :
  alerts (get_weather_cache k c d).2 = alerts d
  ∧ ∀ k', k' ≠ k →
          weather_cache (get_weather_cache k c d).2 !! k'
          = weather_cache d !! k'.
Proof.
  rewrite get_weather_cache_spec.
  destruct (weather_cache d !! k) as [row|]; [|done].
  case_bool_decide; [|done].
  destruct (loads (data row) ≫= from_records); [done|].
  split; [done|]. intros k' Hne. cbn. by apply lookup_delete_ne.
Qed.

Lemma get_weather_cache_written (k : string) (df df' : DataFrame)
    (c : clock) (d : db) :
  0 < CACHE_TIME →
  db_now c ≤ py_now c →
  weather_cache d !! k = Some (written_frame_row c df) →
  loads (to_json df) ≫= from_records = Some df' →
  get_weather_cache k c d = (Some df', d).
Proof.
  intros Httl Hclocks Hrow Hback. rewrite get_weather_cache_spec, Hrow.
  cbn [written_frame_row expires_at data]. rewrite Hback.
  rewrite bool_decide_eq_true_2; [done|].
  pose proof (replace_microsecond_0_bounds (py_now c)).
  unfold add_seconds, second in *. lia.
Qed.

(** X18.  A read of the frame cache that finds a live row whose text does not
    give a frame deletes that row, unlike the read of the raw cache, and
    reports a miss; no other row is touched. *)
Theorem get_weather_cache_deletes_corrupt_row (k : string)
    (row : weather_row) (c : clock) (d : db) :
  weather_cache d !! k = Some row →
  db_now c < expires_at row →
  loads (data row) ≫= from_records = None →
  (get_weather_cache k c d).1 = None
  ∧ (get_weather_cache k c d).2 = with_weather_cache (delete k) d
  ∧ (get_raw_weather_cache k c d).2 = d
  ∧ ∀ c', get_weather_cache k c' (get_weather_cache k c d).2
          = (None, (get_weather_cache k c d).2).
Proof.
  intros Hrow Hlive Hbad. rewrite get_raw_weather_cache_spec.
  rewrite get_weather_cache_spec, Hrow, bool_decide_eq_true_2, Hbad by done.
  cbn [fst snd]. split; [done|]. split; [done|]. split; [done|].
  intros c'. rewrite get_weather_cache_spec. cbn [with_weather_cache weather_cache].
  by rewrite lookup_delete_eq.
Qed.

(** X19.  [create_weather_dataframe] with a cache key, on a miss: the frame built
    from [daily] is returned and stored under the key, nothing else
    changes; and from then on, while the stored row is live, every call
    with that key returns the frame read back from the stored text,
    whatever [daily] it is given, and writes nothing. *)
Theorem create_weather_dataframe_miss_then_hit (daily : payload)
    (k : string) (df : DataFrame) (c : clock) (d : db) :
  k ≠ EmptyString →
  (get_weather_cache k c d).1 = None →
  daily_frame daily = Returned df →
  let first := create_weather_dataframe daily (Some k) c d in
  first.1 = Returned df
  ∧ weather_cache first.2 !! k = Some (written_frame_row c df)
  ∧ (∀ k', k' ≠ k → weather_cache first.2 !! k' = weather_cache d !! k')
  ∧ alerts first.2 = alerts d
  ∧ (0 < CACHE_TIME → db_now c ≤ py_now c →
     ∀ df', loads (to_json df) ≫= from_records = Some df' →
            ∀ daily', create_weather_dataframe daily' (Some k) c first.2
                      = (Returned df', first.2)).
Proof.
  intros Hk Hmiss Hframe. cbn zeta.
  destruct (get_weather_cache_frame k c d) as [Halerts Hothers].
  assert (create_weather_dataframe daily (Some k) c d
          = (Returned df,
             set_weather_cache k df c (get_weather_cache k c d).2)) as Hfirst.
  { unfold create_weather_dataframe. destruct k as [|a k]; [done|].
    destruct (get_weather_cache (String a k) c d) as [cached d1].
    cbn [fst snd] in *. subst cached. by rewrite Hframe. }
  rewrite Hfirst. cbn [fst snd].
  assert (weather_cache (set_weather_cache k df c (get_weather_cache k c d).2)
          !! k = Some (written_frame_row c df)) as Hrow.
  { cbn. apply lookup_insert_eq. }
  split; [done|]. split; [done|]. split; [|split; [done|]].
  - intros k' Hne. rewrite <-(Hothers k' Hne). cbn. by apply lookup_insert_ne.
  - intros Httl Hclocks df' Hback daily'.
    unfold create_weather_dataframe. destruct k as [|a k]; [done|].
    by rewrite (get_weather_cache_written _ df df') by done.
Qed.

Lemma create_weather_dataframe_hit (daily : payload) (k : string)
    (row : weather_row) (df : DataFrame) (c : clock) (d : db) :
  k ≠ EmptyString →
  weather_cache d !! k = Some row →
  db_now c < expires_at row →
  loads (data row) ≫= from_records = Some df →
  create_weather_dataframe daily (Some k) c d = (Returned df, d).
Proof.
  intros Hk Hrow Hlive Hback.
  unfold create_weather_dataframe. destruct k as [|a k]; [done|].
  rewrite get_weather_cache_spec, Hrow, bool_decide_eq_true_2, Hback by done.
  done.
Qed.
End frame_facts.

(** ** The frames that alert generation works on *)

Section alert_frames.
Context {json : Json} {config : Config} {validation : Validation}.
Context {geo : Geo} {upstream : Upstream} {executor : Executor}.
Context {pandas : Pandas} {fields : DailyFields}.

Lemma bulk_db_keeps_frame_rows (province province' : string)
    (districts : gmap string (coord * coord)) (forecast_days days' : Z)
    (cache_time : option Z) (c : clock) (d : db) (n : string) :
  weather_cache
    (bulk_db
       (get_bulk_weather_data province districts forecast_days cache_time c d))
  !! alerts_cache_key province' days' n
  = weather_cache d !! alerts_cache_key province' days' n.
Proof.
  apply bulk_db_weather_other. intros n' _ _. unfold alerts_cache_key, weather_key.
  cbn. discriminate.
Qed.

(** X20.  The job of [/generate_alerts] fetches the weather afresh
    ([cache_time=0]), but the frame it builds for a district goes through
    [create_weather_dataframe] under the key [alerts_<province>_<days>_<d>]:
    while a row under that key is live and reads back as a frame, the step
    of the loop files that stored frame for the district, whatever document
    was just fetched, and writes nothing.  The bulk fetch before it has
    left such rows as they were. *)
Theorem forecast_step_reuses_cached_frame (province : string)
    (districts : gmap string (coord * coord)) (forecast_days : Z) (c : clock)
    (d : db) (forecasts : gmap string DataFrame) (n : string)
    (v daily : payload) (row : weather_row) (df : DataFrame) :
  weather_cache d !! alerts_cache_key province forecast_days n = Some row →
  db_now c < expires_at row →
  loads (data row) ≫= from_records = Some df →
  normalized_daily v = Returned daily →
  let b :=
    get_bulk_weather_data province districts forecast_days (Some 0) c d in
  weather_cache (bulk_db b) !! alerts_cache_key province forecast_days n
  = Some row
  ∧ forecast_step province forecast_days c forecasts (n, v) (bulk_db b)
    = (Returned (<[n := df]> forecasts), bulk_db b).
Proof.
  intros Hrow Hlive Hback Hdaily. cbn zeta.
  rewrite bulk_db_keeps_frame_rows. split; [done|].
  unfold forecast_step, py_bind, py_lift, py_ret. cbn [fst snd].
  rewrite Hdaily.
  rewrite (create_weather_dataframe_hit daily _ row df); [done|done| |done..].
  by rewrite bulk_db_keeps_frame_rows.
Qed.
End alert_frames.

(** ** The routes that read all alerts and purge *)

Lemma elem_of_keys `{Countable K} {A} (m : gmap K A) (k : K) :
  k ∈ (map_to_list m).*1 ↔ is_Some (m !! k).
Proof.
  rewrite list_elem_of_fmap. split.
  - intros ([k' x] & -> & Hin). apply elem_of_map_to_list in Hin. by eexists.
  - intros [x Hx]. exists (k, x). split; [done|]. by apply elem_of_map_to_list.
Qed.

Lemma insert_loop_lookup (x : string) (dl : list string)
    (inner : gmap string string) (k : string) :
  foldl (λ i dist, <[dist := x]> i) inner dl !! k
  = if decide (k ∈ dl) then Some x else inner !! k.
Proof.
  revert inner. induction dl as [|dist dl IH]; intros inner.
  { cbn. by rewrite decide_False by apply not_elem_of_nil. }
  cbn [foldl]. rewrite IH.
  destruct (decide (k ∈ dl)) as [Hin|Hout].
  - by rewrite decide_True by (by right).
  - destruct (decide (k = dist)) as [->|Hne].
    + rewrite lookup_insert_eq. by rewrite decide_True by left.
    + rewrite lookup_insert_ne by done.
      rewrite decide_False; [done|]. by intros [?|?]%elem_of_cons.
Qed.

Lemma init_district_loop (p : string) (dl : list string)
    (acc : gmap string (gmap string string)) (p' : string) :
  foldl (init_district p) acc dl !! p'
  = if decide (p' = p)
    then (λ inner, foldl (λ i dist, <[dist := no_alert_yet]> i) inner dl)
           <$> acc !! p
    else acc !! p'.
Proof.
  revert acc. induction dl as [|dist dl IH]; intros acc.
  { cbn [foldl]. case_decide as Hp; [|done]. subst p'.
    by destruct (acc !! p). }
  cbn [foldl]. rewrite IH. unfold init_district.
  case_decide as Hp.
  - rewrite lookup_alter_eq. by destruct (acc !! p).
  - by rewrite lookup_alter_ne.
Qed.

Lemma overlay_empty (shown : gmap string string) : overlay shown ∅ = shown.
Proof.
  apply map_eq. intros k. unfold overlay. rewrite map_lookup_imap.
  destruct (shown !! k); [|done]. cbn. by rewrite lookup_empty.
Qed.

Lemma overlay_lookup (shown found : gmap string string) (k : string) :
  overlay shown found !! k
  = (λ text, default text (found !! k)) <$> shown !! k.
Proof.
  unfold overlay. rewrite map_lookup_imap. by destruct (shown !! k).
Qed.

Lemma merge_district_loop (p : string) (dl : list (string * string))
    (acc : gmap string (gmap string string)) (p' : string) :
  NoDup dl.*1 →
  foldl (merge_district p) acc dl !! p'
  = if decide (p' = p)
    then (λ inner, overlay inner (list_to_map dl)) <$> acc !! p
    else acc !! p'.
Proof.
  revert acc. induction dl as [|[dist text] dl IH]; intros acc Hnd.
  { cbn [foldl]. case_decide as Hp; [|done]. subst p'.
    destruct (acc !! p); [|done]. cbn. by rewrite overlay_empty. }
  rewrite fmap_cons in Hnd. apply NoDup_cons in Hnd as [Hfresh Hnd].
  cbn [foldl]. rewrite IH by done.
  assert (merge_district p acc (dist, text) !! p
          = (λ inner, if bool_decide (dist ∈ dom inner)
                      then <[dist := text]> inner else inner) <$> acc !! p)
    as Hstep.
  { unfold merge_district. cbn [fst snd]. rewrite lookup_total_alt.
    destruct (acc !! p) as [inner|] eqn:Hacc; cbn [default].
    - cbn [fmap option_fmap option_map].
      destruct (decide (dist ∈ dom inner)) as [Hin|Hout].
      + rewrite !bool_decide_eq_true_2 by done.
        by rewrite lookup_alter_eq, Hacc.
      + by rewrite !bool_decide_eq_false_2 by done.
    - rewrite bool_decide_eq_false_2; [by rewrite Hacc|].
      cbn. set_solver. }
  case_decide as Hp.
  - rewrite Hstep. destruct (acc !! p) as [inner|]; [|done]. cbn. f_equal.
    apply map_eq. intros k. rewrite !overlay_lookup.
    cbn [fst] in Hfresh.
    apply (not_elem_of_list_to_map_1 (M:=gmap string)) in Hfresh.
    destruct (decide (k = dist)) as [->|Hne].
    + rewrite lookup_insert_eq, Hfresh.
      case_bool_decide as Hin.
      * rewrite lookup_insert_eq. cbn.
        apply elem_of_dom in Hin as [x ->]. done.
      * apply not_elem_of_dom in Hin. by rewrite Hin.
    + rewrite (lookup_insert_ne (list_to_map dl)) by done.
      case_bool_decide; [|done]. by rewrite lookup_insert_ne.
  - unfold merge_district. cbn [fst snd].
    case_bool_decide; [|done]. by rewrite lookup_alter_ne.
Qed.

Lemma merge_province_loop (l : list (string * gmap string string))
    (acc : gmap string (gmap string string)) (p : string) :
  NoDup l.*1 →
  foldl merge_province acc l !! p
  = (λ inner,
       overlay inner
         (default ∅ ((list_to_map l : gmap string (gmap string string)) !! p)))
      <$> acc !! p.
Proof.
  revert acc. induction l as [|[p0 found] l IH]; intros acc Hnd.
  { cbn [foldl]. destruct (acc !! p); [|done]. cbn.
    by rewrite lookup_empty, overlay_empty. }
  rewrite fmap_cons in Hnd. apply NoDup_cons in Hnd as [Hfresh Hnd].
  cbn [foldl]. rewrite IH by done.
  cbn [fst] in Hfresh.
  apply (not_elem_of_list_to_map_1 (M:=gmap string)) in Hfresh.
  rewrite list_to_map_cons.
  assert (merge_province acc (p0, found) !! p
          = if decide (p = p0)
            then (λ inner, overlay inner found) <$> acc !! p0
            else acc !! p) as ->.
  { unfold merge_province. cbn [fst snd]. case_bool_decide as Hin.
    - rewrite merge_district_loop by apply NoDup_fst_map_to_list.
      by rewrite list_to_map_to_list.
    - apply not_elem_of_dom in Hin. case_decide as Hp; [|done].
      subst p. by rewrite Hin. }
  case_decide as Hp.
  - subst p. rewrite Hfresh, lookup_insert_eq.
    destruct (acc !! p0); [|done]. cbn. by rewrite overlay_empty.
  - by rewrite lookup_insert_ne.
Qed.

Section route_facts.
Context {geo : Geo} {models : Models} {validators : RequestValidation}.

Lemma init_province_loop (pl : list string)
    (acc : gmap string (gmap string string)) (p : string) :
  foldl init_province acc pl !! p
  = if decide (p ∈ pl)
    then Some ((λ _, no_alert_yet) <$> (PROVINCES !!! p))
    else acc !! p.
Proof.
  revert acc. induction pl as [|p0 pl IH]; intros acc.
  { cbn. by rewrite decide_False by apply not_elem_of_nil. }
  cbn [foldl]. rewrite IH.
  destruct (decide (p ∈ pl)) as [Hin|Hout].
  { by rewrite decide_True by (by right). }
  unfold init_province. rewrite init_district_loop.
  destruct (decide (p = p0)) as [->|Hne].
  - rewrite decide_True by left. rewrite lookup_insert_eq. cbn. f_equal.
    apply map_eq. intros k. rewrite insert_loop_lookup, lookup_fmap.
    case_decide as Hk.
    + apply elem_of_keys in Hk as [x ->]. done.
    + rewrite lookup_empty. destruct (_ !! k) as [x|] eqn:Hx; [|done].
      destruct Hk. apply elem_of_keys. by eexists.
  - rewrite lookup_insert_ne by done.
    rewrite decide_False; [done|]. by intros [?|?]%elem_of_cons.
Qed.

Lemma get_all_alerts_route_body (days : Z) (c : clock) (d : db) :
  validate_forecast_days days = true →
  ∃ body,
    get_all_alerts_route days c d = (Ok body, d)
    ∧ ∀ p, body !! p
           = (λ ds, overlay ((λ _, no_alert_yet) <$> ds)
                      (default ∅ ((get_all_alerts days c d).1 !! p)))
               <$> PROVINCES !! p.
Proof.
  intros Hvalid. unfold get_all_alerts_route. rewrite Hvalid. cbn [negb].
  assert ((get_all_alerts days c d).2 = d) as Hdb by done.
  destruct (get_all_alerts days c d) as [db_alerts d'] eqn:Hget.
  cbn [fst snd] in *. subst d'. eexists. split; [done|]. intros p.
  rewrite merge_province_loop by apply NoDup_fst_map_to_list.
  rewrite list_to_map_to_list, init_province_loop.
  case_decide as Hp.
  - apply elem_of_keys in Hp. rewrite (lookup_lookup_total _ _ Hp). done.
  - destruct (PROVINCES !! p) eqn:Hprov; [|by rewrite lookup_empty].
    destruct Hp. apply elem_of_keys. by eexists.
Qed.

(** X21.  The route [/get_all_alerts/<days>], for a horizon that passes the
    validation: the reply lists exactly the provinces of [PROVINCES], each
    with exactly its listed districts; a district shows the alert that
    [get_alert] finds for it at that horizon, and the placeholder text when
    there is none.  Alerts stored for other provinces or districts do not
    appear, and the database is left as it was. *)
Theorem get_all_alerts_route_exact (days : Z) (c : clock) (d : db) :
  validate_forecast_days days = true →
  ∃ body,
    get_all_alerts_route days c d = (Ok body, d)
    ∧ dom body = dom PROVINCES
    ∧ ∀ p ds,
        PROVINCES !! p = Some ds →
        ∃ inner,
          body !! p = Some inner
          ∧ dom inner = dom ds
          ∧ ∀ district,
              is_Some (ds !! district) →
              inner !! district
              = Some (default no_alert_yet (get_alert p district days c d).1).
Proof.
  intros Hvalid.
  destruct (get_all_alerts_route_body days c d Hvalid) as (body & Hroute & Hbody).
  exists body. split; [done|]. split.
  - apply set_eq. intros p. rewrite !elem_of_dom, Hbody.
    by rewrite fmap_is_Some.
  - intros p ds Hds. rewrite Hbody, Hds. cbn [fmap option_fmap option_map].
    eexists. split; [done|]. split.
    + apply set_eq. intros k. rewrite !elem_of_dom, overlay_lookup, lookup_fmap.
      by rewrite !fmap_is_Some.
    + intros district [xy Hxy]. rewrite overlay_lookup, lookup_fmap, Hxy.
      cbn [fmap option_fmap option_map]. f_equal. rewrite <-get_all_alerts_lookup.
      destruct ((get_all_alerts days c d).1 !! p); cbn; [done|].
      by rewrite lookup_empty.
Qed.

(** X22.  The route [/purge_cache] asked to purge a whole province (no district in
    the request): when [PROVINCES] lists districts for the province, the
    route hands that list to [purge_cache_db], so the alerts removed are
    those of the listed districts only.  An alert stored for the province
    under a district that is not listed stays, although [purge_cache_db]
    with its own empty list would have removed it. *)
Theorem purge_cache_route_listed_only (province : string)
    (ds : gmap string (coord * coord)) (forecast_days : Z) (d : db) :
  validate_province province = true →
  PROVINCES !! province = Some ds →
  ds ≠ ∅ →
  let r := purge_cache_route province [] forecast_days d in
  (∃ purged_count, r.1 = Ok purged_count)
  ∧ (∀ k : alert_key,
       alerts r.2 !! k
       = if decide (k.1.1 = province ∧ k.2 = forecast_days
                    ∧ is_Some (ds !! k.1.2))
         then None else alerts d !! k)
  ∧ ∀ district row,
      ds !! district = None →
      alerts d !! (province, district, forecast_days) = Some row →
      alerts r.2 !! (province, district, forecast_days) = Some row
      ∧ alerts (purge_cache_db province [] forecast_days d).2
        !! (province, district, forecast_days) = None.
Proof.
  intros Hvalid Hds Hne. cbn zeta.
  assert (∃ n l, (map_to_list ds).*1 = n :: l) as (n & l & Hlist).
  { destruct (map_to_list ds) as [|[n xy] l] eqn:Hl.
    - by apply map_to_list_empty_iff in Hl.
    - by eexists _, _. }
  assert (∀ k : alert_key,
            alerts (purge_cache_route province [] forecast_days d).2 !! k
            = if decide (k.1.1 = province ∧ k.2 = forecast_days
                         ∧ is_Some (ds !! k.1.2))
              then None else alerts d !! k) as Hlookup.
  { intros k. unfold purge_cache_route. rewrite Hvalid, Hds. cbn [negb default from_option id].
    rewrite Hlist, purge_cache_db_cons, <-Hlist.
    destruct (foldl _ _ _) as [count d'] eqn:Hloop. cbn [snd].
    pose proof (purge_loop_alerts province forecast_days (map_to_list ds).*1
                  (0, d) k) as Hk.
    rewrite Hloop in Hk. cbn [snd] in Hk. rewrite Hk.
    destruct (decide (_ ∧ _ ∧ _ ∈ _)) as [(? & ? & Hin)|Hout].
    - rewrite decide_True; [done|]. by rewrite <-elem_of_keys.
    - rewrite decide_False; [done|]. by rewrite <-elem_of_keys. }
  split; [|split; [done|]].
  - unfold purge_cache_route. rewrite Hvalid. cbn [negb].
    destruct (purge_cache_db _ _ _ _). by eexists.
  - intros district row Hnone Hrow. split.
    + rewrite Hlookup. cbn [fst snd]. rewrite decide_False; [done|].
      intros (_ & _ & Hsome). rewrite Hnone in Hsome. by destruct Hsome.
    + rewrite purge_cache_db_nil. cbn [snd alerts].
      rewrite delete_where_lookup, Hrow. unfold purge_all_predicate.
      cbn [fst snd]. by rewrite !bool_decide_eq_true_2.
Qed.
End route_facts.

(** ** The combined route *)

Lemma py_bind_returns {A B} (m : Py A) (k : A → Py B) (P : B → Prop) (d : db) :
  (∀ a d1 b d2, k a d1 = (Returned b, d2) → P b) →
  ∀ b d2, py_bind m k d = (Returned b, d2) → P b.
Proof.
  intros Hk b d2. unfold py_bind. destruct (m d) as [[a|e] d1]; [|done].
  apply Hk.
Qed.

Lemma fresh_entry_zero_ttl {json : Json} {validation : Validation}
    (province : string) (forecast_days : Z) (c : clock) (d : db) (n : string) :
  (∀ k row, weather_cache d !! k = Some row → created_at row ≤ py_now c) →
  fresh_entry province forecast_days 0 c d n = None.
Proof.
  intros Hpast. unfold fresh_entry.
  destruct (weather_cache d !! _) as [row|] eqn:Hrow; [|done].
  case_bool_decide; [|done]. destruct (loads (data row)); [|done].
  rewrite bool_decide_eq_false_2; [done|].
  specialize (Hpast _ _ Hrow). lia.
Qed.

Section combined_route_facts.
Context {json : Json} {config : Config} {validation : Validation}.
Context {geo : Geo} {upstream : Upstream} {executor : Executor}.
Context {pandas : Pandas} {fields : DailyFields} {service : AlertService}.
Context {models : Models} {combined : CombinedFields}.

(** X23.  The route [/generate_forecast_and_alerts], for a province that
    [PROVINCES] lists: it answers with the error body [Failed to fetch
    weather data.] exactly when the forced bulk fetch returns no district,
    and then it has purged and saved nothing, the database being as it
    was.  This is what happens when the upstream fails for every selected
    district, whatever the weather cache holds for them, provided no stored
    row is stamped later than the process clock reads. *)
Theorem generate_forecast_and_alerts_fetch_failed (province : string)
    (districts : list string) (forecast_days : Z) (c : clock) (d : db)
    (selected : gmap string (coord * coord)) :
  select_districts province districts = Returned selected →
  let r := generate_forecast_and_alerts province districts forecast_days c d in
  let b :=
    get_bulk_weather_data province selected forecast_days (Some 0) c d in
  (r.1 = FetchFailed ↔ bulk_result b = ∅)
  ∧ (r.1 = FetchFailed → r.2 = d)
  ∧ ((∀ k row, weather_cache d !! k = Some row → created_at row ≤ py_now c) →
     (∀ n xy, selected !! n = Some xy →
              reply_failed (session_get n xy.1 xy.2 forecast_days)) →
     r = (FetchFailed, d)).
Proof.
  intros Hsel. cbn zeta.
  assert (bulk_result
            (get_bulk_weather_data province selected forecast_days (Some 0) c d)
          = ∅ →
          generate_forecast_and_alerts province districts forecast_days c d
          = (FetchFailed, d)) as Hempty.
  { intros Hnone. unfold generate_forecast_and_alerts, py_bind at 1, py_lift.
    rewrite Hsel, Hnone, bool_decide_eq_true_2 by done.
    by rewrite bulk_empty_keeps_db. }
  assert (bulk_result
            (get_bulk_weather_data province selected forecast_days (Some 0) c d)
          ≠ ∅ →
          (generate_forecast_and_alerts province districts forecast_days c d).1
          ≠ FetchFailed) as Hsome.
  { intros Hany. unfold generate_forecast_and_alerts, py_bind at 1, py_lift.
    rewrite Hsel, bool_decide_eq_false_2 by done.
    destruct (py_bind _ _ _) as [[reply|ex] d'] eqn:Hbody; [|done].
    cbn [fst]. revert reply d' Hbody.
    do 5 (apply py_bind_returns; intros ? ?).
    unfold py_ret. by intros reply d' [= <- _]. }
  split; [split|split].
  - intros Hfailed.
    destruct (decide (bulk_result
                        (get_bulk_weather_data province selected forecast_days
                           (Some 0) c d) = ∅)) as [|Hany]; [done|].
    by destruct (Hsome Hany).
  - intros Hnone. by rewrite Hempty.
  - intros Hfailed.
    destruct (decide (bulk_result
                        (get_bulk_weather_data province selected forecast_days
                           (Some 0) c d) = ∅)) as [Hnone|Hany].
    + by rewrite Hempty.
    + by destruct (Hsome Hany).
  - intros Hpast Hdown. apply Hempty. apply map_eq. intros n.
    rewrite (bulk_result_lookup _ _ 0) by done. rewrite lookup_empty.
    destruct (selected !! n) as [xy|] eqn:Hn; [|done].
    rewrite fresh_entry_zero_ttl by done. cbn zeta.
    rewrite failed_reply_not_succeeded; [done|]. by apply Hdown.
Qed.
End combined_route_facts.

(** * The further properties at work on the small instance *)

(** An alert saved for Multan replaces the expired one and is read back. *)
Lemma save_alert_then_get_alert_witness :
  (get_alert "PUNJAB" "MULTAN" 3 demo_clock
     (@save_alert demo_config "PUNJAB" "MULTAN" 3 "Flood" demo_clock demo_db)).1
  = Some "Flood".
Proof.
  assert (- 2 ^ 63 ≤ 3 < 2 ^ 63) as Hfits by lia.
  assert (0 < @CACHE_TIME demo_config) as Httl by (vm_compute; reflexivity).
  assert (db_now demo_clock ≤ py_now demo_clock) as Hclocks
    by (vm_compute; discriminate).
  exact (proj1 (@save_alert_then_get_alert demo_config "PUNJAB" "MULTAN" 3
                  "Flood" demo_clock demo_db Hfits Httl Hclocks)).
Defined.

(** After the expired rows are cleaned up, Lahore's row reads as before. *)
Lemma cleanup_expired_cache_unobservable_witness :
  (@get_raw_weather_cache demo_json "weather_3_PUNJAB_LAHORE" demo_clock
     (cleanup_expired_cache demo_clock demo_db).2).1
  = Some (DocWarm, 43100000000).
Proof.
  assert (db_now demo_clock ≤ db_now demo_clock) as Hclocks
    by (vm_compute; discriminate).
  destruct (@cleanup_expired_cache_unobservable demo_json demo_clock
              demo_clock demo_db Hclocks) as (Hraw & _).
  rewrite Hraw. vm_compute. reflexivity.
Defined.


(** Okara is fetched by the bulk call, and its forecast is then read from
    the cache. *)
Lemma get_weather_forecast_after_bulk_witness :
  (@get_weather_forecast demo_json demo_validation "PUNJAB" "OKARA" 3
     demo_clock
     (bulk_db
        (@get_bulk_weather_data demo_json demo_config demo_validation
           demo_geo demo_upstream demo_executor "PUNJAB" demo_districts 3
           None demo_clock demo_db))).1
  = Some DocCold.
Proof.
  apply (@get_weather_forecast_after_bulk demo_json demo_config
           demo_validation demo_geo demo_upstream demo_executor).
  - intros n1 n2 _ _ Hsame. exact Hsame.
  - intros v'. destruct v'; reflexivity.
  - vm_compute. reflexivity.
  - vm_compute. discriminate.
  - vm_compute. reflexivity.
Defined.

(** A second bulk call right after the first does not ask for Okara again. *)
Lemma get_bulk_weather_data_twice_witness :
  let first :=
    @get_bulk_weather_data demo_json demo_config demo_validation demo_geo
      demo_upstream demo_executor "PUNJAB" demo_districts 3 None demo_clock
      demo_db in
  let second :=
    @get_bulk_weather_data demo_json demo_config demo_validation demo_geo
      demo_upstream demo_executor "PUNJAB" demo_districts 3 None demo_clock
      (bulk_db first) in
  ("OKARA" ∉ info_name <$> bulk_calls second)
  ∧ bulk_result second !! "OKARA" = Some DocCold.
Proof.
  cbn zeta.
  apply (@get_bulk_weather_data_twice demo_json demo_config demo_validation
           demo_geo demo_upstream demo_executor).
  - intros n1 n2 _ _ Hsame. exact Hsame.
  - intros v'. destruct v'; reflexivity.
  - vm_compute. reflexivity.
  - vm_compute. discriminate.
  - vm_compute. reflexivity.
  - vm_compute. reflexivity.
Defined.

(** With [cache_time=0] even Lahore, whose row is fresh, is fetched. *)
Lemma get_bulk_weather_data_forced_witness :
  info_name
  <$> bulk_calls
        (@get_bulk_weather_data demo_json demo_config demo_validation
           demo_geo demo_upstream demo_executor "PUNJAB" demo_districts 3
           (Some 0) demo_clock demo_db)
  = (map_to_list demo_districts).*1.
Proof.
  assert (∀ k row, weather_cache demo_db !! k = Some row →
                   created_at row ≤ py_now demo_clock) as Hpast.
  { intros k row Hrow. unfold demo_db in Hrow. cbn [weather_cache] in Hrow.
    apply elem_of_list_to_map_2 in Hrow.
    repeat (apply elem_of_cons in Hrow as [[= -> ->]|Hrow];
            [vm_compute; discriminate|]).
    by apply elem_of_nil in Hrow. }
  exact (proj1 (@get_bulk_weather_data_forced demo_json demo_config
                  demo_validation demo_geo demo_upstream demo_executor
                  "PUNJAB" demo_districts 3 demo_clock demo_db Hpast)).
Defined.

(** A job that raised: its message is still there after another task
    has come and gone and the results have been cleaned up twice. *)
Lemma failed_task_error_survives_cleanup_witness :
  let failing : unit → task_outcome Z * unit :=
    λ w, (Failed "ollama is down", w) in
  let later : list (manager_event Z unit) :=
    [CleanupOldResults ∅; RunTask "alerts_SINDH_3" 2%nat;
     WrapperEnds "alerts_SINDH_3" (λ w, (Completed 7, w)) tt;
     CleanupOldResults {[2%nat]}] in
  get_error "alerts_PUNJAB_3"
    (foldl manager_step
       (wrapper "alerts_PUNJAB_3" failing
          (run_task "alerts_PUNJAB_3" 1%nat new_manager ∅).1 tt).1.2
       later)
  = Some "ollama is down".
Proof.
  cbn zeta.
  assert (task_results (new_manager (V:=Z)) !! "alerts_PUNJAB_3" = None)
    as Hnew by reflexivity.
  assert (Forall (of_other_task (V:=Z) (W:=unit) "alerts_PUNJAB_3")
            ([] ++ [CleanupOldResults ∅; RunTask "alerts_SINDH_3" 2%nat;
                    WrapperEnds "alerts_SINDH_3" (λ w, (Completed 7, w)) tt;
                    CleanupOldResults {[2%nat]}])) as Hother.
  { repeat constructor; discriminate. }
  exact (proj2 (proj2 (failed_task_error_survives_cleanup "alerts_PUNJAB_3"
                         (λ w : unit, (Failed "ollama is down", w))
                         new_manager tt 1%nat ∅ "ollama is down" [] _ Hnew
                         eq_refl Hother))).
Defined.

(** Quetta's row, which is not JSON, is deleted by the read of the frame
    cache. *)
Lemma get_weather_cache_deletes_corrupt_row_witness :
  (@get_weather_cache demo_json demo_pandas "weather_3_PUNJAB_QUETTA"
     demo_clock demo_db).2
  = with_weather_cache (delete "weather_3_PUNJAB_QUETTA") demo_db.
Proof.
  assert (weather_cache demo_db !! "weather_3_PUNJAB_QUETTA"
          = Some (WeatherRow "<html>" 43100000000 43400000000)) as Hrow
    by (vm_compute; reflexivity).
  assert (db_now demo_clock
          < expires_at (WeatherRow "<html>" 43100000000 43400000000))
    as Hlive by (vm_compute; reflexivity).
  assert (@loads demo_json (data (WeatherRow "<html>" 43100000000 43400000000))
          ≫= @from_records demo_json demo_pandas = None) as Hbad
    by reflexivity.
  exact (proj1 (proj2 (@get_weather_cache_deletes_corrupt_row demo_json
                         demo_pandas "weather_3_PUNJAB_QUETTA" _ demo_clock
                         demo_db Hrow Hlive Hbad))).
Defined.

(** The frame built for Lahore is stored, and a later call with another
    document gets the stored frame. *)
Lemma create_weather_dataframe_miss_then_hit_witness :
  let first :=
    @create_weather_dataframe demo_json demo_config demo_pandas demo_fields
      DocWarm (Some "alerts_PUNJAB_3_LAHORE") demo_clock demo_db in
  first.1 = Returned DocWarm
  ∧ @create_weather_dataframe demo_json demo_config demo_pandas demo_fields
      DocCold (Some "alerts_PUNJAB_3_LAHORE") demo_clock first.2
    = (Returned DocWarm, first.2).
Proof.
  assert ("alerts_PUNJAB_3_LAHORE" ≠ EmptyString) as Hkey by discriminate.
  assert ((@get_weather_cache demo_json demo_pandas "alerts_PUNJAB_3_LAHORE"
             demo_clock demo_db).1 = None) as Hmiss
    by (vm_compute; reflexivity).
  assert (@daily_frame demo_json demo_pandas demo_fields DocWarm
          = Returned DocWarm) as Hframe by reflexivity.
  destruct (@create_weather_dataframe_miss_then_hit demo_json demo_config
              demo_pandas demo_fields DocWarm "alerts_PUNJAB_3_LAHORE"
              DocWarm demo_clock demo_db Hkey Hmiss Hframe)
    as (Hfirst & _ & _ & _ & Hlater).
  split; [exact Hfirst|]. apply Hlater.
  - vm_compute. reflexivity.
  - vm_compute. discriminate.
  - reflexivity.
Defined.

(** A frame stored for Lahore is what the job works on, although the
    document just fetched is another one. *)
Lemma forecast_step_reuses_cached_frame_witness :
  let d :=
    with_weather_cache
      (<["alerts_PUNJAB_3_LAHORE" :=
           WeatherRow "[20]" 43100000000 43400000000]>) demo_db in
  let b :=
    @get_bulk_weather_data demo_json demo_config demo_validation demo_geo
      demo_upstream demo_executor "PUNJAB" demo_districts 3 (Some 0)
      demo_clock d in
  @forecast_step demo_json demo_config demo_pandas demo_fields "PUNJAB" 3
    demo_clock ∅ ("LAHORE", DocCold) (bulk_db b)
  = (Returned {[ "LAHORE" := DocWarm ]}, bulk_db b).
Proof.
  cbn zeta.
  refine (proj2 (@forecast_step_reuses_cached_frame demo_json demo_config
                   demo_validation demo_geo demo_upstream demo_executor
                   demo_pandas demo_fields "PUNJAB" demo_districts 3
                   demo_clock _ ∅ "LAHORE" DocCold DocCold
                   (WeatherRow "[20]" 43100000000 43400000000) DocWarm
                   _ _ _ _)).
  - vm_compute. reflexivity.
  - vm_compute. reflexivity.
  - reflexivity.
  - reflexivity.
Defined.

(** Of the districts listed for Punjab, Okara shows its live alert, Multan,
    whose alert has expired, and Quetta, which has none, the placeholder. *)
Lemma get_all_alerts_route_exact_witness :
  ∃ body inner,
    @get_all_alerts_route demo_geo demo_models demo_request_validation 3
      demo_clock demo_db = (Ok body, demo_db)
    ∧ body !! "PUNJAB" = Some inner
    ∧ inner !! "OKARA" = Some "Wind"
    ∧ inner !! "MULTAN" = Some no_alert_yet
    ∧ inner !! "QUETTA" = Some no_alert_yet.
Proof.
  assert (@validate_forecast_days demo_request_validation 3 = true) as Hvalid
    by reflexivity.
  destruct (@get_all_alerts_route_exact demo_geo demo_models
              demo_request_validation 3 demo_clock demo_db Hvalid)
    as (body & Hroute & _ & Hbody).
  destruct (Hbody "PUNJAB" demo_districts) as (inner & Hinner & _ & Hshown).
  { vm_compute. reflexivity. }
  exists body, inner. split; [exact Hroute|]. split; [exact Hinner|].
  split; [|split]; rewrite Hshown;
    (vm_compute; reflexivity) || (vm_compute; by eexists).
Defined.

(** Kasur is not among the districts listed for Punjab: its alert survives
    the purge of the whole province through the route, not the purge of the
    whole province by [purge_cache_db]. *)
Lemma purge_cache_route_listed_only_witness :
  alerts
    (@purge_cache_route demo_geo demo_models demo_request_validation "PUNJAB"
       [] 3 demo_db).2
  !! ("PUNJAB", "KASUR", 3)
  = Some (AlertRow "Fog" 43100000000 43400000000)
  ∧ alerts (purge_cache_db "PUNJAB" [] 3 demo_db).2 !! ("PUNJAB", "KASUR", 3)
    = None.
Proof.
  assert (@validate_province demo_request_validation "PUNJAB" = true)
    as Hvalid by reflexivity.
  assert (@PROVINCES demo_geo demo_models !! "PUNJAB" = Some demo_districts)
    as Hlisted by (vm_compute; reflexivity).
  assert (demo_districts ≠ ∅) as Hsome.
  { intros Hempty. apply (f_equal (λ m, m !! "LAHORE")) in Hempty.
    vm_compute in Hempty. discriminate. }
  destruct (@purge_cache_route_listed_only demo_geo demo_models
              demo_request_validation "PUNJAB" demo_districts 3 demo_db
              Hvalid Hlisted Hsome) as (_ & _ & Hkept).
  apply Hkept; vm_compute; reflexivity.
Defined.

(** The upstream serves neither Multan nor Quetta: the combined route
    answers that the fetch failed and leaves the database alone. *)
Lemma generate_forecast_and_alerts_fetch_failed_witness :
  @generate_forecast_and_alerts demo_json demo_config demo_validation demo_geo
    demo_upstream demo_executor demo_pandas demo_fields demo_alert_service
    demo_models demo_combined_fields "PUNJAB" ["MULTAN"; "QUETTA"] 3
    demo_clock demo_db
  = (FetchFailed, demo_db).
Proof.
  assert (∀ k row, weather_cache demo_db !! k = Some row →
                   created_at row ≤ py_now demo_clock) as Hpast.
  { intros k row Hrow. unfold demo_db in Hrow. cbn [weather_cache] in Hrow.
    apply elem_of_list_to_map_2 in Hrow.
    repeat (apply elem_of_cons in Hrow as [[= -> ->]|Hrow];
            [vm_compute; discriminate|]).
    by apply elem_of_nil in Hrow. }
  assert (∀ (n : string) (xy : Z * Z),
            ({[ "MULTAN" := (30157500, 71524900);
                "QUETTA" := (30179800, 66975000) ]} : gmap string (Z * Z))
            !! n = Some xy →
            reply_failed (@session_get demo_geo demo_upstream n xy.1 xy.2 3))
    as Hdown.
  { intros n xy Hn.
    apply lookup_insert_Some in Hn as [[<- <-]|[_ Hn]].
    - vm_compute. discriminate.
    - apply lookup_singleton_Some in Hn as [<- <-]. vm_compute. exact I. }
  assert (@select_districts demo_geo demo_models "PUNJAB" ["MULTAN"; "QUETTA"]
          = Returned
              {[ "MULTAN" := (30157500, 71524900);
                 "QUETTA" := (30179800, 66975000) ]}) as Hsel
    by (vm_compute; reflexivity).
  exact (proj2 (proj2
           (@generate_forecast_and_alerts_fetch_failed demo_json demo_config
              demo_validation demo_geo demo_upstream demo_executor demo_pandas
              demo_fields demo_alert_service demo_models demo_combined_fields
              "PUNJAB" ["MULTAN"; "QUETTA"] 3 demo_clock demo_db _ Hsel))
           Hpast Hdown).
Defined.

(** A job scheduled alone under its identifier returns 7: from then on it
    is not running and 7 is its result, while another task comes and
    goes. *)
Lemma wrapper_records_once_witness :
  let job : unit → task_outcome Z * unit := λ w, (Completed 7, w) in
  let others : list (manager_event Z unit) :=
    [RunTask "alerts_SINDH_3" 2%nat;
     WrapperEnds "alerts_SINDH_3" (λ w, (Failed "timed out", w)) tt] in
  let scheduled := run_task "alerts_PUNJAB_3" 1%nat new_manager ∅ in
  let m' :=
    foldl manager_step (wrapper "alerts_PUNJAB_3" job scheduled.1 tt).1.2
      others in
  is_running "alerts_PUNJAB_3" scheduled.1 scheduled.2 = true
  ∧ is_running "alerts_PUNJAB_3" m' scheduled.2 = false
  ∧ get_result "alerts_PUNJAB_3" m' = Some 7
  ∧ exactly_one_recorded "alerts_PUNJAB_3" m'.
Proof.
  cbn zeta.
  assert (Forall (of_other_task (V:=Z) (W:=unit) "alerts_PUNJAB_3")
            ([] ++ [RunTask "alerts_SINDH_3" 2%nat;
                    WrapperEnds "alerts_SINDH_3"
                      (λ w, (Failed "timed out", w)) tt])) as Hother.
  { repeat constructor; discriminate. }
  assert (Forall (no_cleanup (V:=Z) (W:=unit))
            [RunTask "alerts_SINDH_3" 2%nat;
             WrapperEnds "alerts_SINDH_3" (λ w, (Failed "timed out", w)) tt])
    as Hquiet.
  { repeat constructor. }
  destruct (wrapper_records_once (V:=Z) (W:=unit) "alerts_PUNJAB_3"
              (λ w, (Completed 7, w)) new_manager tt 1%nat ∅ [] _ eq_refl
              eq_refl Hother)
    as (Hrun & _ & Hstop & _ & Hres).
  split; [exact Hrun|]. split; [apply Hstop|].
  destruct (Hres Hquiet) as (Hseven & _ & Hone). by split.
Defined.

(** In a process whose local time is five hours behind UTC, a payload
    written with a lifetime of 300 seconds is in the table and cannot be
    read. *)
Lemma set_raw_weather_cache_born_expired_witness :
  let c := Clock 25200000000 43200000000 in
  (@get_raw_weather_cache demo_json "weather_3_PUNJAB_LAHORE" c
     (@set_raw_weather_cache demo_json demo_config "weather_3_PUNJAB_LAHORE"
        DocWarm c demo_db)).1
  = None.
Proof.
  cbn zeta.
  assert (py_now (Clock 25200000000 43200000000)
          + @CACHE_TIME demo_config * second
          ≤ db_now (Clock 25200000000 43200000000)) as Hbehind
    by (vm_compute; discriminate).
  exact (proj2 (@set_raw_weather_cache_born_expired demo_json demo_config
                  "weather_3_PUNJAB_LAHORE" DocWarm _ demo_db Hbehind)).
Defined.

(** In a process whose local time is five hours ahead of UTC, the forecast
    of Okara is fetched and cached by one call, and fetched again by the
    call that follows at once. *)
Lemma get_bulk_weather_data_refetches_young_entry_witness :
  let c := Clock 43200000000 25200000000 in
  let okara : gmap string (Z * Z) := {[ "OKARA" := (30808100, 73445800) ]} in
  let first :=
    @get_bulk_weather_data demo_json demo_config demo_validation demo_geo
      demo_upstream demo_executor "PUNJAB" okara 3 None c demo_db in
  let second :=
    @get_bulk_weather_data demo_json demo_config demo_validation demo_geo
      demo_upstream demo_executor "PUNJAB" okara 3 None c (bulk_db first) in
  bulk_result first !! "OKARA" = Some DocCold
  ∧ (@get_raw_weather_cache demo_json "weather_3_PUNJAB_OKARA" c
       (bulk_db first)).1 = Some (DocCold, 25200000000)
  ∧ "OKARA" ∈ info_name <$> bulk_calls second.
Proof.
  cbn zeta. split; [vm_compute; reflexivity|].
  refine (let H :=
            @get_bulk_weather_data_refetches_young_entry demo_json
              demo_config demo_validation demo_geo demo_upstream
              demo_executor "PUNJAB" {[ "OKARA" := (30808100, 73445800) ]} 3
              None (Clock 43200000000 25200000000) _ "OKARA"
              (30808100, 73445800)
              (WeatherRow "[-3]" 25200000000 43500000000) DocCold
              _ _ _ _ _ _ in conj (proj1 H) (proj1 (proj2 H))).
  - vm_compute. reflexivity.
  - vm_compute. reflexivity.
  - vm_compute. reflexivity.
  - reflexivity.
  - vm_compute. split; [discriminate|reflexivity].
  - vm_compute. discriminate.
Defined.
